(** * getplanes.py: lease acquisition bot, shallow embedding

    The program drives a remote web UI through Selenium, reads acquisition
    rules from a spreadsheet, and purchases leases either in monitor mode
    ([main]) or in saturation mode ([launch_agent]).

    The embedding is a state-and-exception monad over a [World] that holds
    the program's mutable variables (the counter dictionary, the worker's
    purchase count), the local file system, and a model of the remote
    collaborators (the site behind the browser, the spreadsheet, the wall
    clock).  Every remote primitive may raise: a fault schedule in the world
    says which calls do. *)

From stdpp Require Import base gmap strings list sorting.
From Stdlib Require Import ZArith Lia Sorted Permutation.

Local Open Scope string_scope.
Local Open Scope Z_scope.

(** ** Python values and control *)

Inductive Exn :=
| ValueError
| KeyError
| IndexError
| WebDriverException
| OverflowError.

(** The outcome of running a piece of the program: a value, a raised
    exception, or an exhausted loop budget (the loops of the source are
    unbounded; [OutOfFuel] is not an exception and no handler sees it). *)
Inductive Res (A : Type) :=
| Ok (a : A)
| Raise (e : Exn)
| OutOfFuel.
Arguments Ok {A} a.
Arguments Raise {A} e.
Arguments OutOfFuel {A}.

(** A spreadsheet or table cell as the integer coercion sees it: a text
    that reads as an integer, with that integer, or one that does not. *)
Inductive Cell :=
| Num (z : Z)
| NonNum (s : string).

(** [int(x)] on one cell: Python's integers have no bound. *)
Definition py_int (c : Cell) : Res Z :=
  match c with
  | Num z => Ok z
  | NonNum _ => Raise ValueError
  end.

(** The range of numpy's [int64], the type [astype(int)] coerces to. *)
Definition int64_min : Z := -9223372036854775808.
Definition int64_max : Z := 9223372036854775807.

Definition in_int64 (z : Z) : bool :=
  (int64_min <=? z) && (z <=? int64_max).

(** [astype(int)] on one cell of a column of texts (the pager's row makes
    the column of a page one of texts): a text that is no integer is a
    [ValueError], an integer that [int64] does not hold an
    [OverflowError]. *)
Definition to_int64 (c : Cell) : Res Z :=
  match c with
  | Num z => if in_int64 z then Ok z else Raise OverflowError
  | NonNum _ => Raise ValueError
  end.

(** [l[i]] on a Python list: negative indices count from the end,
    out of range is an [IndexError]. *)
Definition py_index {A} (l : list A) (i : Z) : Res A :=
  let n := Z.of_nat (length l) in
  let j := if 0 <=? i then i else n + i in
  if (0 <=? j) && (j <? n) then
    match l !! Z.to_nat j with
    | Some x => Ok x
    | None => Raise IndexError
    end
  else Raise IndexError.

(** ** The counter dictionary

    [airframe_count] is a [collections.defaultdict(int)] when the program
    creates it, and whatever mapping [count.pickle] holds when the file
    exists. *)
Inductive PyMapping :=
| DefaultDict (m : gmap string Z)
| Dict (m : gmap string Z).

Definition items (d : PyMapping) : gmap string Z :=
  match d with DefaultDict m | Dict m => m end.

(** [d[k]]: a defaultdict inserts the default on a miss, a plain dict
    raises.  Returns the value and the (possibly grown) mapping. *)
Definition getitem (d : PyMapping) (k : string) : Res Z * PyMapping :=
  match d with
  | DefaultDict m =>
      match m !! k with
      | Some v => (Ok v, d)
      | None => (Ok 0, DefaultDict (<[k := 0]> m))
      end
  | Dict m =>
      match m !! k with
      | Some v => (Ok v, d)
      | None => (Raise KeyError, d)
      end
  end.

Definition setitem (d : PyMapping) (k : string) (v : Z) : PyMapping :=
  match d with
  | DefaultDict m => DefaultDict (<[k := v]> m)
  | Dict m => Dict (<[k := v]> m)
  end.

(** ** Tables *)

(** One body row of the rendered table: the "Hours flown" cell and the
    remaining columns, which the program never inspects. *)
Record RawRow := { raw_hours : Cell; raw_rest : string }.

(** The body rows of the first table of a rendered page, pager row last. *)
Abbreviation Dom := (list RawRow).

(** A data frame as [get_table] returns it: rows in order, labelled
    0, 1, ... by position. *)
Abbreviation PageTable := (list RawRow).

(** A row of the indexed frame [build_table_index] returns: the
    (pagenum, row label) index pair, the coerced hours, the rest. *)
Record Lease := { pagenum : nat; rowidx : nat; hours : Z; rest : string }.

(** A row of the spreadsheet of desired leases. *)
Record Rule := {
  aircraft_type : string;
  maximum_airframes : Cell;
  maximum_hours : Cell
}.

(** ** Trace of observable actions *)

Inductive Control :=
| BtnApplyFilter
| PageLink (target : nat)
| RowLink (index : Z)
| ChkPrepay
| BtnGetQuote.

Inductive Message :=
| DebugNotFound (airframe : string)
| DebugIdx (idx : nat)
| ErrorMsg (e : Exn)
| InfoTimeToPurchase
| WarnPurchasing (airframe : string) (e : Exn)
| WarnLogin
| QuoteTable.

Inductive Event :=
| NewSession                         (* BrowserAgent() *)
| Login                              (* login_workflow() *)
| GotoLeases                         (* goto_leases() *)
| SelectByValue (value : string)
| Click (c : Control)
| CallPurchase (pagenum rownum : Z)  (* purchase_aircraft(pagenum, rownum) entered *)
| Dump (file : string) (d : PyMapping)
| Print (m : Message)
| Sleep.

(** ** The world *)

(** The remote collaborators, fixed during a run: the filter's options as
    (text, value) pairs, the result pages behind each option value, the
    unfiltered listing, and the spreadsheet. *)
Record Site := {
  site_options : list (string * string);
  site_listing : string -> list Dom;
  site_unfiltered : list Dom;
  site_sheet : list Rule
}.

(** What the browser currently shows. *)
Record Browser := {
  selected : option string;
  shown : list Dom;
  cur : nat
}.

Definition fresh_browser : Browser :=
  {| selected := None; shown := []; cur := 0%nat |}.

Record World := {
  site : Site;
  browser : Browser;
  fs : gmap string PyMapping;      (* pickle files by name *)
  airframe_count : PyMapping;      (* main's dictionary *)
  purchases : Z;                   (* launch_agent's counter *)
  faults : list bool;              (* per remote call: does it raise? *)
  clock : list bool;               (* per deadline test: still before it? *)
  trace : list Event
}.

Definition set_browser (b : Browser) (w : World) : World :=
  {| site := site w; browser := b; fs := fs w;
     airframe_count := airframe_count w; purchases := purchases w;
     faults := faults w; clock := clock w; trace := trace w |}.
Definition set_fs (f : gmap string PyMapping) (w : World) : World :=
  {| site := site w; browser := browser w; fs := f;
     airframe_count := airframe_count w; purchases := purchases w;
     faults := faults w; clock := clock w; trace := trace w |}.
Definition set_airframe_count (d : PyMapping) (w : World) : World :=
  {| site := site w; browser := browser w; fs := fs w;
     airframe_count := d; purchases := purchases w;
     faults := faults w; clock := clock w; trace := trace w |}.
Definition set_purchases (p : Z) (w : World) : World :=
  {| site := site w; browser := browser w; fs := fs w;
     airframe_count := airframe_count w; purchases := p;
     faults := faults w; clock := clock w; trace := trace w |}.
Definition set_faults (l : list bool) (w : World) : World :=
  {| site := site w; browser := browser w; fs := fs w;
     airframe_count := airframe_count w; purchases := purchases w;
     faults := l; clock := clock w; trace := trace w |}.
Definition set_clock (l : list bool) (w : World) : World :=
  {| site := site w; browser := browser w; fs := fs w;
     airframe_count := airframe_count w; purchases := purchases w;
     faults := faults w; clock := l; trace := trace w |}.
Definition set_trace (t : list Event) (w : World) : World :=
  {| site := site w; browser := browser w; fs := fs w;
     airframe_count := airframe_count w; purchases := purchases w;
     faults := faults w; clock := clock w; trace := t |}.

(** ** The monad *)

Definition M (A : Type) : Type := World -> Res A * World.

Definition ret {A} (a : A) : M A := fun w => (Ok a, w).

Definition bind {A B} (m : M A) (k : A -> M B) : M B :=
  fun w =>
    match m w with
    | (Ok a, w') => k a w'
    | (Raise e, w') => (Raise e, w')
    | (OutOfFuel, w') => (OutOfFuel, w')
    end.

Definition raise {A} (e : Exn) : M A := fun w => (Raise e, w).
Definition out_of_fuel {A} : M A := fun w => (OutOfFuel, w).

(** [try: m except Exception as e: h e] *)
Definition try_except {A} (m : M A) (h : Exn -> M A) : M A :=
  fun w =>
    match m w with
    | (Raise e, w') => h e w'
    | r => r
    end.

Definition lift {A} (r : Res A) : M A := fun w => (r, w).

Declare Scope py_scope.
Delimit Scope py_scope with py.
Notation "'let*' x ':=' m 'in' k" := (bind m (fun x => k))
  (at level 10, x name, m at level 100, k at level 200) : py_scope.
Notation "m ';;' k" := (bind m (fun _ => k))
  (at level 100, k at level 200, right associativity) : py_scope.
Local Open Scope py_scope.

Definition emit (e : Event) : M unit :=
  fun w => (Ok tt, set_trace (trace w ++ [e]) w).

(** A remote call: consult the fault schedule.  An exhausted schedule
    means no further faults. *)
Definition tick : M unit :=
  fun w =>
    match faults w with
    | [] => (Ok tt, w)
    | true :: l => (Raise WebDriverException, set_faults l w)
    | false :: l => (Ok tt, set_faults l w)
    end.

(** [datetime.datetime.now() < deadline] *)
Definition before_deadline : M bool :=
  fun w =>
    match clock w with
    | [] => (Ok false, w)
    | b :: l => (Ok b, set_clock l w)
    end.

(** ** BrowserAgent *)

Definition modify_browser (f : Browser -> Browser) : M unit :=
  fun w => (Ok tt, set_browser (f (browser w)) w).

Definition get_browser : M Browser := fun w => (Ok (browser w), w).
Definition get_site : M Site := fun w => (Ok (site w), w).

(** [BrowserAgent()]: starts a new browser. *)
Definition BrowserAgent : M unit :=
  tick ;; emit NewSession ;; modify_browser (fun _ => fresh_browser).

(** [goto_leases]: two clicks that land on the unfiltered first page of
    the used-leases listing. *)
Definition goto_leases : M unit :=
  tick ;;
  emit GotoLeases ;;
  let* s := get_site in
  modify_browser (fun _ =>
    {| selected := None; shown := site_unfiltered s; cur := 0%nat |}).

(** [login_workflow]: authenticate, pass the splash page, go to leases. *)
Definition login_workflow : M unit :=
  tick ;; emit Login ;; goto_leases.

(** The options of the filter's selection list, as (text, value). *)
Definition read_options : M (list (string * string)) :=
  tick ;; let* s := get_site in ret (site_options s).

(** [{x.text: x.get_attribute("value") for x in options}]: for a repeated
    text the last option wins. *)
Definition available_airframes (opts : list (string * string))
  : gmap string string :=
  list_to_map (reverse opts).

Definition select_by_value (v : string) : M unit :=
  tick ;;
  emit (SelectByValue v) ;;
  modify_browser (fun b =>
    {| selected := Some v; shown := shown b; cur := cur b |}).

(** Clicking "apply filter" shows the first page of the selected option's
    results. *)
Definition click_apply_filter : M unit :=
  tick ;;
  emit (Click BtnApplyFilter) ;;
  let* s := get_site in
  modify_browser (fun b =>
    {| selected := selected b;
       shown := match selected b with
                | Some v => site_listing s v
                | None => site_unfiltered s
                end;
       cur := 0%nat |}).

(** [wait.until(visibility_of_element_located(...))] *)
Definition wait_until : M unit := tick.

(** [driver.page_source], cut down to the body rows of its first table. *)
Definition page_source : M Dom :=
  tick ;; let* b := get_browser in ret (default [] (shown b !! cur b)).

(** [LeaseStrainer(dom).get_table()]: the table without its last row. *)
Definition get_table (dom : Dom) : PageTable := removelast dom.

(** The pager shows the current page as text and every other page as a
    link: the targets of the links of the table's last row, in order. *)
Definition pager_targets (b : Browser) : list nat :=
  filter (fun p => p <> cur b) (seq 0 (length (shown b))).

(** [self._get_navbar().find_elements(By.TAG_NAME, "a")] *)
Definition navbar_links : M (list nat) :=
  tick ;; let* b := get_browser in ret (pager_targets b).

Definition click_page (target : nat) : M unit :=
  tick ;;
  emit (Click (PageLink target)) ;;
  modify_browser (fun b =>
    {| selected := selected b; shown := shown b; cur := target |}).

(** The first steps shared by [get_lease_page] and [get_leases]: look the
    airframe up among the options; when present select it, apply the
    filter and wait for the table.  Returns whether it was present. *)
Definition apply_airframe_filter (airframe : string) : M bool :=
  let* opts := read_options in
  match available_airframes opts !! airframe with
  | None => emit (Print (DebugNotFound airframe)) ;; ret false
  | Some v =>
      select_by_value v ;;
      click_apply_filter ;;
      wait_until ;;
      ret true
  end.

(** [get_lease_page]: the first page only; [None] when the airframe is
    not offered. *)
Definition get_lease_page (airframe : string) : M (option PageTable) :=
  let* present := apply_airframe_filter airframe in
  if present : bool then
    let* dom := page_source in ret (Some (get_table dom))
  else ret None.

(** The body of [for idx in range(len(pages))] in [get_leases]. *)
Fixpoint get_leases_loop (idxs : list nat) (tables : list PageTable)
  : M (list PageTable) :=
  match idxs with
  | [] => ret tables
  | idx :: idxs' =>
      emit (Print (DebugIdx idx)) ;;
      let* links := navbar_links in
      let* page := lift (py_index links (Z.of_nat idx)) in
      click_page page ;;
      wait_until ;;
      let* dom := page_source in
      get_leases_loop idxs' (tables ++ [get_table dom])
  end.

(** [get_leases]: every page of the filtered listing; [None] when the
    airframe is not offered. *)
Definition get_leases (airframe : string) : M (option (list PageTable)) :=
  let* present := apply_airframe_filter airframe in
  if present : bool then
    let* dom := page_source in
    let tables := [get_table dom] in
    let* pages := navbar_links in
    let* tables := get_leases_loop (seq 0 (length pages)) tables in
    ret (Some tables)
  else ret None.

(** [BrowserAgent._goto_page] *)
Definition _goto_page (pagenum : Z) : M unit :=
  let* links := navbar_links in
  match links with
  | [] => ret tt
  | _ =>
      let* link := lift (py_index links (pagenum - 1)) in
      click_page link ;;
      wait_until
  end.

(** The data rows of the table on the page shown. *)
Definition table_rows (b : Browser) : PageTable :=
  get_table (default [] (shown b !! cur b)).

(** [table.find_elements(By.TAG_NAME, "a")] on the page shown: the links
    of the table in document order, one in each data row, then those of
    the pager in its last row. *)
Definition table_links (b : Browser) : list Control :=
  (map (fun j => RowLink (Z.of_nat j)) (seq 0 (length (table_rows b)))
   ++ map PageLink (pager_targets b))%list.

(** [link.click()] on a link of the table: a link of the pager shows its
    page. *)
Definition click_link (c : Control) : M unit :=
  emit (Click c) ;;
  modify_browser (fun b =>
    match c with
    | PageLink t => {| selected := selected b; shown := shown b; cur := t |}
    | _ => b
    end).

(** [wait.until(visibility_of_element_located(btnGetQuote))]: the button
    is on the page that the link of a row opens and nowhere else, so after
    another link the wait ends in a [TimeoutException], a
    [WebDriverException]. *)
Definition wait_quote (c : Control) : M unit :=
  match c with
  | RowLink _ => wait_until
  | _ => raise WebDriverException
  end.

(** [purchase_aircraft]: go to the page when [pagenum >= 0], find the
    links of the table and take the one at [rownum - 1] (a Python list
    index: [IndexError] when there is none), click it, tick prepay, get
    the quote, go back to the listing.  The final "accept" click is
    commented out in the source. *)
Definition purchase_aircraft (pagenum rownum : Z) : M unit :=
  emit (CallPurchase pagenum rownum) ;;
  (if 0 <=? pagenum then _goto_page pagenum else ret tt) ;;
  tick ;;
  let* b := get_browser in
  let* link := lift (py_index (table_links b) (rownum - 1)) in
  click_link link ;;
  wait_quote link ;;
  tick ;;
  emit (Print QuoteTable) ;;
  tick ;;
  emit (Click ChkPrepay) ;;
  tick ;;
  emit (Click BtnGetQuote) ;;
  wait_until ;;
  goto_leases.

(** ** SheetsHandler *)

(** [SheetsHandler()]: authorises against the spreadsheet service. *)
Definition SheetsHandler : M unit := tick.

(** [get_spreadsheet]: the rows of the sheet, headers taken off. *)
Definition get_spreadsheet : M (list Rule) :=
  tick ;; let* s := get_site in ret (site_sheet s).

(** ** build_table_index *)

(** [itertools.chain.from_iterable(repeat(i, len(x)) for i, x in enumerate(dfs))] *)
Definition newindex (dfs : list PageTable) : list nat :=
  concat (imap (fun i x => replicate (length x) i) dfs).

(** [pd.concat(dfs)]: the rows of all frames in order, each keeping the
    label it has in its own frame. *)
Definition pd_concat (dfs : list PageTable) : list (nat * RawRow) :=
  concat (map (fun x => imap (fun j r => (j, r)) x) dfs).

(** [df["Hours flown"].astype(int)] over the rows, first failure wins. *)
Fixpoint astype_int (rows : list (nat * (nat * RawRow))) : Res (list Lease) :=
  match rows with
  | [] => Ok []
  | (p, (j, r)) :: rows' =>
      match to_int64 (raw_hours r) with
      | Ok h =>
          match astype_int rows' with
          | Ok ls => Ok ({| pagenum := p; rowidx := j; hours := h;
                            rest := raw_rest r |} :: ls)
          | Raise e => Raise e
          | OutOfFuel => OutOfFuel
          end
      | Raise e => Raise e
      | OutOfFuel => OutOfFuel
      end
  end.

(** [build_table_index]: [pd.concat] of no frames raises. *)
Definition build_table_index (dfs : list PageTable) : Res (list Lease) :=
  match dfs with
  | [] => Raise ValueError
  | _ => astype_int (zip (newindex dfs) (pd_concat dfs))
  end.

(** ** Monitor mode: [main] *)

(** [airframe_count[k]] *)
Definition count_getitem (k : string) : M Z :=
  fun w =>
    let '(r, d) := getitem (airframe_count w) k in
    (r, set_airframe_count d w).

(** [airframe_count[k] += 1] *)
Definition count_incr (k : string) : M unit :=
  let* v := count_getitem k in
  fun w => (Ok tt, set_airframe_count (setitem (airframe_count w) k (v + 1)) w).

(** [with open("filename.pickle", "wb") as handle:
      pickle.dump(airframe_count, handle, ...)] *)
Definition dump_counts : M unit :=
  fun w =>
    (Ok tt,
     set_trace (trace w ++ [Dump "filename.pickle" (airframe_count w)])
       (set_fs (<["filename.pickle" := airframe_count w]> (fs w)) w)).

(** The first statement of [main]: load [count.pickle] when it is a file,
    else start from an empty [defaultdict(int)]. *)
Definition load_counts : M unit :=
  fun w =>
    (Ok tt,
     set_airframe_count
       (match fs w !! "count.pickle" with
        | Some d => d
        | None => DefaultDict ∅
        end) w).

(** [df[df["Hours flown"] < max_hours]] *)
Definition filter_hours (max_hours : Z) (df : list Lease) : list Lease :=
  filter (fun l => hours l < max_hours) df.

Section Monitor.

(** [df.sort_values("Hours flown")], pandas' sort with its default
    algorithm.  The program is read for any sort; what pandas promises
    of it is [sort_contract] below. *)
Variable sort_values : list Lease -> list Lease.

(** [for j, lease in df.iterrows(): ...] *)
Fixpoint purchase_all (airframe : string) (df : list Lease) : M unit :=
  match df with
  | [] => ret tt
  | lease :: df' =>
      purchase_aircraft (Z.of_nat (pagenum lease) + 1)
                        (Z.of_nat (rowidx lease) + 1) ;;
      count_incr airframe ;;
      dump_counts ;;
      purchase_all airframe df'
  end.

(** [while airframe_count[type] < int(row["Maximum Airframes"]): ...] *)
Fixpoint acquire (fuel : nat) (row : Rule) (df : list Lease) : M unit :=
  match fuel with
  | O => out_of_fuel
  | S fuel' =>
      let* c := count_getitem (aircraft_type row) in
      let* mx := lift (py_int (maximum_airframes row)) in
      if c <? mx then
        let* mh := lift (py_int (maximum_hours row)) in
        let df1 := filter_hours mh df in
        if Z.of_nat (length df1) <=? 0 then ret tt
        else
          let df2 := sort_values df1 in
          purchase_all (aircraft_type row) df2 ;;
          acquire fuel' row df2
      else ret tt
  end.

(** The body of [for i, row in desired_leases.iterrows()]. *)
Definition rule_pass (fuel : nat) (row : Rule) : M unit :=
  goto_leases ;;
  let* tables := get_leases (aircraft_type row) in
  match tables with
  | None | Some [] => ret tt
  | Some ts =>
      let* df := lift (build_table_index ts) in
      acquire fuel row df
  end.

Fixpoint for_rules (fuel : nat) (rows : list Rule) : M unit :=
  match rows with
  | [] => ret tt
  | row :: rows' => rule_pass fuel row ;; for_rules fuel rows'
  end.

(** [while datetime.datetime.now() < sheets_refresh_time: ...] *)
Fixpoint sheets_loop (fuel : nat) (rows : list Rule) : M unit :=
  match fuel with
  | O => out_of_fuel
  | S fuel' =>
      let* b := before_deadline in
      if b : bool then
        for_rules fuel' rows ;;
        emit Sleep ;;
        sheets_loop fuel' rows
      else ret tt
  end.

(** [while datetime.datetime.now() < refresh_time: ...] *)
Fixpoint refresh_loop (fuel : nat) : M unit :=
  match fuel with
  | O => out_of_fuel
  | S fuel' =>
      let* b := before_deadline in
      if b : bool then
        SheetsHandler ;;
        let* rows := get_spreadsheet in
        sheets_loop fuel' rows ;;
        refresh_loop fuel'
      else ret tt
  end.

(** The [try] block of [main]. *)
Definition session (fuel : nat) : M unit :=
  BrowserAgent ;;
  login_workflow ;;
  refresh_loop fuel.

(** [while True: try: ... except Exception as e: print(...); continue] *)
Fixpoint main_loop (fuel : nat) : M unit :=
  match fuel with
  | O => out_of_fuel
  | S fuel' =>
      try_except (session fuel') (fun e => emit (Print (ErrorMsg e))) ;;
      main_loop fuel'
  end.

Definition main (fuel : nat) : M unit :=
  load_counts ;; main_loop fuel.

End Monitor.

(** ** Saturation mode: [launch_agent] *)

Definition get_purchases : M Z := fun w => (Ok (purchases w), w).

(** The body of the inner [try] of [launch_agent]. *)
Definition agent_pass (aircraft : string) : M unit :=
  goto_leases ;;
  let* tables := get_lease_page aircraft in
  match tables with
  | None => ret tt
  | Some _ =>
      purchase_aircraft (-1) 1 ;;
      (fun w => (Ok tt, set_purchases (purchases w + 1) w)) ;;
      emit (Print InfoTimeToPurchase)
  end.

(** The inner [while purchases < max_airframes]. *)
Fixpoint agent_loop (fuel : nat) (aircraft : string) (max_airframes : Z)
  : M unit :=
  match fuel with
  | O => out_of_fuel
  | S fuel' =>
      let* p := get_purchases in
      if p <? max_airframes then
        try_except (agent_pass aircraft)
                   (fun e => emit (Print (WarnPurchasing aircraft e))) ;;
        agent_loop fuel' aircraft max_airframes
      else ret tt
  end.

(** The outer [while purchases < max_airframes]. *)
Fixpoint launch_loop (fuel : nat) (aircraft : string) (max_airframes : Z)
  : M unit :=
  match fuel with
  | O => out_of_fuel
  | S fuel' =>
      let* p := get_purchases in
      if p <? max_airframes then
        try_except
          (BrowserAgent ;; login_workflow ;;
           agent_loop fuel' aircraft max_airframes)
          (fun e => emit (Print WarnLogin)) ;;
        launch_loop fuel' aircraft max_airframes
      else ret tt
  end.

Definition launch_agent (fuel : nat) (aircraft : string) (max_airframes : Z)
  : M unit :=
  (fun w => (Ok tt, set_purchases 0 w)) ;;
  launch_loop fuel aircraft max_airframes.

(** ** Two sorts by hours *)

(** Insertion sort with a comparison that decides whether the new row goes
    before the row it meets. *)
Fixpoint insert_by (before : Lease -> Lease -> bool) (x : Lease)
  (l : list Lease) : list Lease :=
  match l with
  | [] => [x]
  | y :: l' => if before x y then x :: l else y :: insert_by before x l'
  end.

Definition sort_by (before : Lease -> Lease -> bool) (l : list Lease)
  : list Lease :=
  foldr (insert_by before) [] l.

(** A row goes before the first row with at least its hours: rows of
    equal hours keep their order. *)
Definition stable_sort : list Lease -> list Lease :=
  sort_by (fun x y => hours x <=? hours y).

(** A row goes after the rows with its hours: rows of equal hours end up
    in reverse order. *)
Definition tie_reversing_sort : list Lease -> list Lease :=
  sort_by (fun x y => hours x <? hours y).

(** What pandas promises of [sort_values]: the same rows, in ascending
    order of the column. *)
Definition by_hours (a b : Lease) : Prop := hours a <= hours b.

Definition sort_contract (sort : list Lease -> list Lease) : Prop :=
  forall l, sort l ≡ₚ l /\ Sorted by_hours (sort l).

(** A sort keeps ties in order on [l] when, for each number of hours, the
    rows with that number appear in the result in the order they have
    in [l]. *)
Definition keeps_ties (sort : list Lease -> list Lease) (l : list Lease)
  : Prop :=
  forall h, filter (fun x => hours x = h) (sort l)
            = filter (fun x => hours x = h) l.

(** ** Concrete worlds used by the examples *)

(** A data row with the given hours. *)
Definition row (h : Z) : RawRow := {| raw_hours := Num h; raw_rest := "" |}.

(** The pager row that ends the table of every page. *)
Definition pager : RawRow := {| raw_hours := NonNum "1 2 3"; raw_rest := "" |}.

(** A rendered page: its data rows followed by the pager row. *)
Definition page (hs : list Z) : Dom := (map row hs ++ [pager])%list.

(** A site that leases one type, the A320, offered under the value 17:
    the unfiltered listing is the listing of that type. *)
Definition site_of (pages : list Dom) (sheet : list Rule) : Site :=
  {| site_options := [("A320", "17")];
     site_listing := fun v => if String.eqb v "17" then pages else [];
     site_unfiltered := pages;
     site_sheet := sheet |}.

Definition world_of (s : Site) (clk : list bool) : World :=
  {| site := s; browser := fresh_browser; fs := ∅;
     airframe_count := DefaultDict ∅; purchases := 0;
     faults := []; clock := clk; trace := [] |}.

Definition rule (t : string) (n h : Z) : Rule :=
  {| aircraft_type := t; maximum_airframes := Num n; maximum_hours := Num h |}.

(** ** Reading traces *)

(** The calls to [purchase_aircraft] recorded in a trace, as (page, row). *)
Definition purchase_calls (evs : list Event) : list (Z * Z) :=
  omap (fun e => match e with CallPurchase p r => Some (p, r) | _ => None end)
       evs.

(** The clicks on links of rows recorded in a trace, by 0-based row. *)
Definition is_row_click (e : Event) : bool :=
  match e with Click (RowLink _) => true | _ => false end.

Definition row_clicks (evs : list Event) : list Z :=
  omap (fun e => match e with Click (RowLink j) => Some j | _ => None end)
       evs.

(** The table that applying the filter for the option [v] yields: the
    data rows of the first page of its listing. *)
Definition first_page_table (s : Site) (v : string) : PageTable :=
  get_table (default [] (site_listing s v !! 0%nat)).

(** How many purchases were reported as done by [launch_agent]. *)
Definition is_info (e : Event) : bool :=
  match e with Print InfoTimeToPurchase => true | _ => false end.

Definition info_count (evs : list Event) : nat :=
  length (List.filter is_info evs).

(** Session constructions and supervisor error reports, in order. *)
Definition is_session_event (e : Event) : bool :=
  match e with NewSession | Print (ErrorMsg _) => true | _ => false end.

Definition session_events (evs : list Event) : list Event :=
  List.filter is_session_event evs.

(** Events of the browser that change what the remote UI shows. *)
Definition is_ui_mutation (e : Event) : bool :=
  match e with SelectByValue _ | Click _ => true | _ => false end.

Definition ui_mutations (evs : list Event) : list Event :=
  List.filter is_ui_mutation evs.

(** The events the methods of [BrowserAgent] produce on their own, apart
    from the entry marker of [purchase_aircraft] and the construction of
    the agent. *)
Definition is_ui_event (e : Event) : bool :=
  match e with
  | Login | GotoLeases | SelectByValue _ | Click _ => true
  | Print (DebugNotFound _) | Print (DebugIdx _) | Print QuoteTable => true
  | _ => false
  end.

(** A new operating-system process over the same files: what a crash and
    restart leaves of a world. *)
Definition restart (w : World) : World :=
  {| site := site w; browser := fresh_browser; fs := fs w;
     airframe_count := DefaultDict ∅; purchases := 0;
     faults := faults w; clock := clock w; trace := [] |}.

(** ** Relations between worlds *)

(** Whatever [m] returns or raises, it moves the world along [R]. *)
Definition steps (R : World -> World -> Prop) {A} (m : M A) : Prop :=
  forall w r w', m w = (r, w') -> R w w'.

(** A step of the browser: the program's variables, the files, the site
    and the clock stay as they are, faults are only consumed, and the
    trace grows by UI events. *)
Record driver_step (w w' : World) : Prop := {
  ds_site : site w' = site w;
  ds_fs : fs w' = fs w;
  ds_count : airframe_count w' = airframe_count w;
  ds_purchases : purchases w' = purchases w;
  ds_clock : clock w' = clock w;
  ds_faults : faults w = [] -> faults w' = [];
  ds_trace : exists evs,
      trace w' = (trace w ++ evs)%list /\ forallb is_ui_event evs = true
}.

(** A step of a worker: the count grows by the number of purchases
    reported in the stretch of trace, every purchase call asks for row 1
    of the current page, and there are at least as many calls as reported
    purchases. *)
Record sat_step (w w' : World) : Prop := {
  ss_site : site w' = site w;
  ss_faults : faults w = [] -> faults w' = [];
  ss_trace : exists evs,
      trace w' = (trace w ++ evs)%list /\
      purchases w' = purchases w + Z.of_nat (info_count evs) /\
      Forall (fun c => c = (-1, 1)) (purchase_calls evs) /\
      (info_count evs <= length (purchase_calls evs))%nat
}.

(** The trace only grows. *)
Definition trace_ext (w w' : World) : Prop :=
  exists evs, trace w' = (trace w ++ evs)%list.

(** The world after a remote call that did not raise. *)
Definition after_tick (w : World) : World :=
  match faults w with
  | [] => w
  | _ :: l => set_faults l w
  end.

(** The world after a construction and a login without faults. *)
Definition after_start (w : World) : World :=
  set_browser {| selected := None; shown := site_unfiltered (site w);
                 cur := 0%nat |}
    (set_trace (trace w ++ [NewSession; Login; GotoLeases]) w).

(** The clicks on the pager in a stretch of trace, by target page. *)
Definition page_clicks (evs : list Event) : list nat :=
  omap (fun e => match e with Click (PageLink p) => Some p | _ => None end)
       evs.

(** The purchase of a pass of a worker with what follows it in the
    source. *)
Definition purchase_and_count : M unit :=
  purchase_aircraft (-1) 1 ;;
  (fun w => (Ok tt, set_purchases (purchases w + 1) w)) ;;
  emit (Print InfoTimeToPurchase).

(** The arguments [main] gives [purchase_aircraft] for a row:
    [j[0] + 1] and [j[1] + 1]. *)
Definition purchase_args (l : Lease) : Z * Z :=
  (Z.of_nat (pagenum l) + 1, Z.of_nat (rowidx l) + 1).

(** ** The collected table, said directly *)

Definition cell_value (c : Cell) : Z :=
  match c with Num z => z | NonNum _ => 0 end.

(** The hours cell of the row is one that [astype(int)] accepts: an
    integer that [int64] holds. *)
Definition numeric (r : RawRow) : Prop :=
  exists z, raw_hours r = Num z /\ in_int64 z = true.

Definition lease_of (p j : nat) (r : RawRow) : Lease :=
  {| pagenum := p; rowidx := j; hours := cell_value (raw_hours r);
     rest := raw_rest r |}.

(** The rows of the pages in order, page after page, each with the number
    of its page and its position on the page, both counted from 0. *)
Definition tagged_concat (dfs : list PageTable) : list Lease :=
  concat (imap (fun p t => imap (fun j r => lease_of p j r) t) dfs).

(** ** Worlds and tables of the examples *)

(** One page with one row of 10 hours; one A320 wanted. *)
Definition one_row_world : World :=
  world_of (site_of [page [10]] [rule "A320" 1 100]) [true; true].

(** One page with rows of 10 and 20 hours; one A320 wanted. *)
Definition two_row_world : World :=
  world_of (site_of [page [10; 20]] [rule "A320" 1 100]) [true; true].

(** The table of the example: one page with hours 50, 10, 200, 10. *)
Definition example_table : PageTable := map row [50; 10; 200; 10].

Definition example_df : list Lease :=
  [ {| pagenum := 0; rowidx := 0; hours := 50; rest := "" |};
    {| pagenum := 0; rowidx := 1; hours := 10; rest := "" |};
    {| pagenum := 0; rowidx := 2; hours := 200; rest := "" |};
    {| pagenum := 0; rowidx := 3; hours := 10; rest := "" |} ].

(** Pages of 3, 3 and 1 rows. *)
Definition three_page_world : World :=
  world_of (site_of [page [11; 12; 13]; page [21; 22; 23]; page [31]] []) [].

(** A worker's world in which the second remote call, the login, raises;
    the count it starts from is overwritten by [launch_agent]. *)
Definition flaky_login_world : World :=
  {| site := site_of [page [10; 20; 30]] []; browser := fresh_browser;
     fs := ∅; airframe_count := DefaultDict ∅; purchases := 7;
     faults := [false; true]; clock := []; trace := [] |}.

(** The airframe is offered and its first page has no rows. *)
Definition empty_page_world : World :=
  world_of (site_of [page []] []) [].

(** Two pages, the second with an hours cell that is not a number. *)
Definition malformed_world : World :=
  world_of
    (site_of [ page [10];
               [row 20; {| raw_hours := NonNum "n/a"; raw_rest := "" |};
                pager] ]
             [rule "A320" 1 100])
    [true; true].

(** Two types on offer: the B737 with one row of 10 hours, and the A320
    whose second page has an hours cell that is not a number.  The sheet
    asks for the B737 first. *)
Definition two_type_site : Site :=
  {| site_options := [("B737", "9"); ("A320", "17")];
     site_listing := fun v =>
       if String.eqb v "9" then [page [10]]
       else if String.eqb v "17" then
         [ page [10];
           [row 20; {| raw_hours := NonNum "n/a"; raw_rest := "" |}; pager] ]
       else [];
     site_unfiltered := [page [10]];
     site_sheet := [rule "B737" 1 100; rule "A320" 1 100] |}.

Definition later_rule_world : World := world_of two_type_site [true; true].

(** ** Where a computation is in the course of another *)

(** [reaches k w1 m w]: the run of [m] from [w] comes to run [k] from
    [w1], and [k] is not inside a [try] of [m]: [m] is [k] itself, or a
    sequence whose first part comes to [k], or a sequence whose first part
    has returned and whose rest comes to [k]. *)
Inductive reaches {C} (k : M C) (w1 : World)
  : forall {A}, M A -> World -> Prop :=
| reaches_here : reaches k w1 k w1
| reaches_first {A B} (m : M A) (f : A -> M B) (w : World) :
    reaches k w1 m w -> reaches k w1 (bind m f) w
| reaches_then {A B} (m : M A) (f : A -> M B) (w : World) (a : A)
    (w0 : World) :
    m w = (Ok a, w0) -> reaches k w1 (f a) w0 -> reaches k w1 (bind m f) w.

(** ** Further notions used to state what the code keeps *)

(** The hours cell of the row is an integer. *)
Definition integer_hours (r : RawRow) : Prop := exists z, raw_hours r = Num z.

(** The hours cell of the row, when an integer, is one [int64] holds. *)
Definition hours_in_range (r : RawRow) : Prop :=
  forall z, raw_hours r = Num z -> in_int64 z = true.

(** The index pair of a row of the indexed frame. *)
Definition index_pair (l : Lease) : nat * nat := (pagenum l, rowidx l).

(** The count of a type in a mapping, an absent type counting as 0. *)
Definition count_of (d : PyMapping) (k : string) : Z :=
  default 0 (items d !! k).

(** The trace grows by events that all satisfy [P], and the site stays. *)
Definition emits_only (P : Event -> bool) (w w' : World) : Prop :=
  site w' = site w /\
  exists evs, trace w' = (trace w ++ evs)%list /\ forallb P evs = true.

Definition is_page_click (e : Event) : bool :=
  match e with Click (PageLink _) => true | _ => false end.

Definition is_new_session (e : Event) : bool :=
  match e with NewSession => true | _ => false end.

Definition is_login_warning (e : Event) : bool :=
  match e with Print WarnLogin => true | _ => false end.

Definition is_dump (e : Event) : bool :=
  match e with Dump _ _ => true | _ => false end.

(** How many events of a stretch of trace satisfy [P]. *)
Definition count_events (P : Event -> bool) (evs : list Event) : nat :=
  length (List.filter P evs).

(** What the store and the files go through in monitor mode: no count
    goes down, and no file but [filename.pickle] changes. *)
Definition store_step (w w' : World) : Prop :=
  (forall k, count_of (airframe_count w) k <= count_of (airframe_count w') k) /\
  (forall f, f <> "filename.pickle" -> fs w' !! f = fs w !! f).

(** Whenever [m] returns, the world it leaves satisfies [Q]. *)
Definition returns_in (Q : World -> Prop) {A} (m : M A) : Prop :=
  forall w a w', m w = (Ok a, w') -> Q w'.

(** The browser as [goto_leases] leaves it. *)
Definition listing_home (s : Site) : Browser :=
  {| selected := None; shown := site_unfiltered s; cur := 0%nat |}.

(** The browser after a click on the pager's link to page [t]. *)
Definition on_page (t : nat) (w : World) : World :=
  set_browser {| selected := selected (browser w); shown := shown (browser w);
                 cur := t |}
    (set_trace (trace w ++ [Click (PageLink t)]) w).

(** What [purchase_aircraft] adds to the trace after the page is reached. *)
Definition purchase_events (rownum : Z) : list Event :=
  [Click (RowLink (rownum - 1)); Print QuoteTable; Click ChkPrepay;
   Click BtnGetQuote; GotoLeases].

(** [purchase_aircraft] from the lookup of the table on: what it does on
    the page it has reached. *)
Definition purchase_on_page (rownum : Z) : M unit :=
  tick ;;
  let* b := get_browser in
  let* link := lift (py_index (table_links b) (rownum - 1)) in
  click_link link ;;
  wait_quote link ;;
  tick ;;
  emit (Print QuoteTable) ;;
  tick ;;
  emit (Click ChkPrepay) ;;
  tick ;;
  emit (Click BtnGetQuote) ;;
  wait_until ;;
  goto_leases.

(** The three pages of [three_page_world] as [get_leases] leaves them:
    filtered, and on the last page. *)
Definition collected_world : World :=
  set_browser {| selected := Some "17";
                 shown := site_listing (site three_page_world) "17";
                 cur := 2%nat |} three_page_world.

(** [m] has no loop that the fuel could cut off. *)
Definition fuel_free {A} (m : M A) : Prop :=
  forall w, (m w).1 <> OutOfFuel.

(** The events that are neither the start of a session nor the warning of
    a failed login. *)
Definition within_session (e : Event) : bool :=
  negb (is_new_session e) && negb (is_login_warning e).

(** Two pages, the only row under 100 hours on the second. *)
Definition last_page_world : World :=
  world_of (site_of [page [500]; page [10]] [rule "A320" 1 100]) [true; true].

(** A run of [m] that returns is also a run without faults: the remote
    calls it made did not raise, and nothing else of it looks at the
    schedule of faults. *)
Definition fault_blind {A} (m : M A) : Prop :=
  forall w a w1,
    m w = (Ok a, w1) -> m (set_faults [] w) = (Ok a, set_faults [] w1).

(** The site offers the airframe of the rule, and the collected table of
    its listing cannot be indexed: [build_table_index] raises on it. *)
Definition untabulated (row : Rule) (s : Site) : Prop :=
  exists v e,
    available_airframes (site_options s) !! aircraft_type row = Some v /\
    site_listing s v <> [] /\
    build_table_index (map get_table (site_listing s v)) = Raise e.

Definition is_purchase_call (e : Event) : bool :=
  match e with CallPurchase _ _ => true | _ => false end.

Definition no_call (e : Event) : bool := negb (is_purchase_call e).

(** [m] only uses up the schedule of faults, and an exception of [m] is
    always a remote call that was scheduled to fail: it leaves the
    schedule strictly shorter. *)
Definition fault_bounded {A} (m : M A) : Prop :=
  forall w r w',
    m w = (r, w') ->
    (length (faults w') <= length (faults w))%nat /\
    (forall e, r = Raise e -> (length (faults w') < length (faults w))%nat).

(** * Reasoning principles *)

(** ** Relations that every step of a computation respects *)

Section Steps.
Context (R : World -> World -> Prop) `{!PreOrder R}.

Lemma steps_ret {A} (a : A) : steps R (ret a).
Proof. intros w r w' [= <- <-]. reflexivity. Qed.

Lemma steps_lift {A} (r : Res A) : steps R (lift r).
Proof. intros w r' w' [= <- <-]. reflexivity. Qed.

Lemma steps_out_of_fuel {A} : steps R (@out_of_fuel A).
Proof. intros w r w' [= <- <-]. reflexivity. Qed.

Lemma steps_raise {A} (e : Exn) : steps R (@raise A e).
Proof. intros w r w' [= <- <-]. reflexivity. Qed.

Lemma steps_bind {A B} (m : M A) (k : A -> M B) :
  steps R m -> (forall a, steps R (k a)) -> steps R (bind m k).
Proof.
  intros Hm Hk w r w' H. unfold bind in H.
  destruct (m w) as [[a|e|] w1] eqn:E.
  - etransitivity; [exact (Hm _ _ _ E) | exact (Hk _ _ _ _ H)].
  - injection H as <- <-. exact (Hm _ _ _ E).
  - injection H as <- <-. exact (Hm _ _ _ E).
Qed.

Lemma steps_try_except {A} (m : M A) (h : Exn -> M A) :
  steps R m -> (forall e, steps R (h e)) -> steps R (try_except m h).
Proof.
  intros Hm Hh w r w' H. unfold try_except in H.
  destruct (m w) as [[a|e|] w1] eqn:E.
  - injection H as <- <-. exact (Hm _ _ _ E).
  - etransitivity; [exact (Hm _ _ _ E) | exact (Hh _ _ _ _ H)].
  - injection H as <- <-. exact (Hm _ _ _ E).
Qed.
End Steps.

Lemma steps_weaken (R1 R2 : World -> World -> Prop) {A} (m : M A) :
  (forall w w', R1 w w' -> R2 w w') -> steps R1 m -> steps R2 m.
Proof. intros HR Hm w r w' H. apply HR, (Hm _ _ _ H). Qed.

Create HintDb steps discriminated.

Ltac steps_tac :=
  repeat first
    [ progress intros
    | progress cbv beta
    | match goal with |- PreOrder _ => exact _ end
    | apply steps_ret
    | apply steps_lift
    | apply steps_out_of_fuel
    | apply steps_raise
    | solve [eauto with steps]
    | apply steps_bind
    | apply steps_try_except
    | match goal with
      | |- steps _ (match ?x with _ => _ end) => destruct x
      end ].

(** ** What the browser's methods may change *)

#[export] Instance driver_step_preorder : PreOrder driver_step.
Proof.
  split.
  - intros w. split; try done. exists []. by rewrite app_nil_r.
  - intros a b c [] [].
    destruct ds_trace0 as (e1 & T1 & U1), ds_trace1 as (e2 & T2 & U2).
    split; try congruence; [tauto|].
    exists (e1 ++ e2)%list. rewrite T2, T1, <- app_assoc.
    split; [done|]. rewrite forallb_app, U1, U2. done.
Qed.

Lemma steps_tick : steps driver_step tick.
Proof.
  intros w r w' H. unfold tick in H.
  destruct (faults w) as [|[] l] eqn:F; injection H as <- <-;
    (split; try done; try (by rewrite F); exists []; by rewrite app_nil_r).
Qed.

Lemma steps_emit_ui e : is_ui_event e = true -> steps driver_step (emit e).
Proof.
  intros He w r w' [= <- <-]. split; try done.
  exists [e]. simpl. by rewrite He.
Qed.

Lemma steps_modify_browser f : steps driver_step (modify_browser f).
Proof.
  intros w r w' [= <- <-]. split; try done. exists []. by rewrite app_nil_r.
Qed.

Lemma steps_get_browser : steps driver_step get_browser.
Proof. intros w r w' [= <- <-]. reflexivity. Qed.

Lemma steps_get_site : steps driver_step get_site.
Proof. intros w r w' [= <- <-]. reflexivity. Qed.

#[export] Hint Resolve steps_tick steps_modify_browser steps_get_browser
  steps_get_site : steps.
#[export] Hint Extern 1 (steps driver_step (emit _)) =>
  (apply steps_emit_ui; reflexivity) : steps.

Lemma steps_wait_until : steps driver_step wait_until.
Proof. apply steps_tick. Qed.

Lemma steps_goto_leases : steps driver_step goto_leases.
Proof. unfold goto_leases. steps_tac. Qed.
#[export] Hint Resolve steps_wait_until steps_goto_leases : steps.

Lemma steps_login_workflow : steps driver_step login_workflow.
Proof. unfold login_workflow. steps_tac. Qed.

Lemma steps_read_options : steps driver_step read_options.
Proof. unfold read_options. steps_tac. Qed.

Lemma steps_select_by_value v : steps driver_step (select_by_value v).
Proof. unfold select_by_value. steps_tac. Qed.

Lemma steps_click_apply_filter : steps driver_step click_apply_filter.
Proof. unfold click_apply_filter. steps_tac. Qed.

Lemma steps_page_source : steps driver_step page_source.
Proof. unfold page_source. steps_tac. Qed.

Lemma steps_navbar_links : steps driver_step navbar_links.
Proof. unfold navbar_links. steps_tac. Qed.

Lemma steps_click_page p : steps driver_step (click_page p).
Proof. unfold click_page. steps_tac. Qed.
#[export] Hint Resolve steps_login_workflow steps_read_options
  steps_select_by_value steps_click_apply_filter steps_page_source
  steps_navbar_links steps_click_page : steps.

Lemma steps_apply_airframe_filter a :
  steps driver_step (apply_airframe_filter a).
Proof. unfold apply_airframe_filter. steps_tac. Qed.
#[export] Hint Resolve steps_apply_airframe_filter : steps.

Lemma steps_get_lease_page a : steps driver_step (get_lease_page a).
Proof. unfold get_lease_page. steps_tac. Qed.

Lemma steps_get_leases_loop idxs tables :
  steps driver_step (get_leases_loop idxs tables).
Proof.
  revert tables. induction idxs as [|i idxs IH]; intros tables; simpl;
    steps_tac.
Qed.
#[export] Hint Resolve steps_get_lease_page steps_get_leases_loop : steps.

Lemma steps_get_leases a : steps driver_step (get_leases a).
Proof. unfold get_leases. steps_tac. Qed.

Lemma steps_goto_page p : steps driver_step (_goto_page p).
Proof. unfold _goto_page. steps_tac. Qed.
#[export] Hint Resolve steps_get_leases steps_goto_page : steps.

Lemma steps_click_link c : steps driver_step (click_link c).
Proof. unfold click_link. steps_tac. Qed.

Lemma steps_wait_quote c : steps driver_step (wait_quote c).
Proof. unfold wait_quote. steps_tac. Qed.
#[export] Hint Resolve steps_click_link steps_wait_quote : steps.

(** [purchase_aircraft] after its entry marker. *)
Lemma purchase_aircraft_steps p r w res w' :
  purchase_aircraft p r w = (res, w') ->
  driver_step (set_trace (trace w ++ [CallPurchase p r]) w) w'.
Proof.
  unfold purchase_aircraft. unfold bind at 1. simpl.
  revert res w'. generalize (set_trace (trace w ++ [CallPurchase p r]) w).
  change (steps driver_step
    ((if 0 <=? p then _goto_page p else ret tt) ;;
     tick ;;
     let* b := get_browser in
     let* link := lift (py_index (table_links b) (r - 1)) in
     click_link link ;; wait_quote link ;; tick ;;
     emit (Print QuoteTable) ;; tick ;; emit (Click ChkPrepay) ;; tick ;;
     emit (Click BtnGetQuote) ;; wait_until ;; goto_leases)).
  steps_tac.
Qed.

(** ** Sorting *)

Section SortBy.
Variable before : Lease -> Lease -> bool.
Hypothesis before_true : forall x y, before x y = true -> by_hours x y.
Hypothesis before_false : forall x y, before x y = false -> by_hours y x.

Lemma insert_by_perm x l : insert_by before x l ≡ₚ x :: l.
Proof.
  induction l as [|y l IH]; simpl; [done|].
  destruct (before x y); [done|]. rewrite IH. apply Permutation_swap.
Qed.

Lemma insert_by_hd a x l :
  by_hours a x -> HdRel by_hours a l -> HdRel by_hours a (insert_by before x l).
Proof.
  intros Hax Hl. destruct l as [|y l]; simpl; [by constructor|].
  destruct (before x y); constructor; [done|]. by inversion Hl.
Qed.

Lemma insert_by_sorted x l :
  Sorted by_hours l -> Sorted by_hours (insert_by before x l).
Proof.
  induction 1 as [|y l Hl IH Hy]; simpl; [by repeat constructor|].
  destruct (before x y) eqn:E.
  - constructor; [by constructor|]. constructor. by apply before_true.
  - constructor; [done|]. apply insert_by_hd; [|done].
    by apply before_false.
Qed.

Lemma sort_by_contract : sort_contract (sort_by before).
Proof.
  intros l. induction l as [|x l [IHp IHs]]; simpl.
  - split; [done | constructor].
  - split; [by rewrite insert_by_perm, IHp | by apply insert_by_sorted].
Qed.
End SortBy.

Lemma stable_sort_contract : sort_contract stable_sort.
Proof. apply sort_by_contract; intros x y; unfold by_hours; lia. Qed.

Lemma tie_reversing_sort_contract : sort_contract tie_reversing_sort.
Proof. apply sort_by_contract; intros x y; unfold by_hours; lia. Qed.

(** Two sorts that meet the contract produce the same sequence of hours:
    only the order among equal hours is left open. *)
Lemma sort_contract_hours sort1 sort2 l :
  sort_contract sort1 -> sort_contract sort2 ->
  map hours (sort1 l) = map hours (sort2 l).
Proof.
  intros H1 H2. destruct (H1 l) as [P1 S1], (H2 l) as [P2 S2].
  apply (Sorted_unique Z.le).
  - eapply (Sorted_fmap _ by_hours); [|exact S1]. done.
  - eapply (Sorted_fmap _ by_hours); [|exact S2]. done.
  - change (hours <$> sort1 l ≡ₚ hours <$> sort2 l). by rewrite P1, P2.
Qed.

(** * The counter store *)

(** [pickle.dump] writes [filename.pickle] and leaves every other file,
    [count.pickle] among them, as it was. *)
Lemma dump_counts_files (w : World) :
  let w1 := (dump_counts w).2 in
  fs w1 !! "filename.pickle" = Some (airframe_count w) /\
  forall f, f <> "filename.pickle" -> fs w1 !! f = fs w !! f.
Proof.
  simpl. split; [apply lookup_insert_eq|].
  intros f Hf. by apply lookup_insert_ne.
Qed.

(** What a restarted process loads does not depend on what the previous
    process dumped. *)
Lemma load_after_dump (w : World) :
  airframe_count (load_counts (restart (dump_counts w).2)).2
  = airframe_count (load_counts (restart w)).2.
Proof. simpl. by rewrite lookup_insert_ne. Qed.

(** C1: counter durability.  One purchase of an A320 in monitor mode,
    starting without files: the dictionary in memory says 1 and is written
    to [filename.pickle], but the restarted process reads [count.pickle],
    finds no file and starts from an empty dictionary, in which the count
    of A320 is 0. *)
Theorem counter_lost_on_restart :
  let w' := (main stable_sort 6 one_row_world).2 in
  purchase_calls (trace w') = [(1, 1)] /\
  items (airframe_count w') !! "A320" = Some 1 /\
  fs w' !! "filename.pickle" = Some (airframe_count w') /\
  fs w' !! "count.pickle" = None /\
  let w'' := (load_counts (restart w')).2 in
  airframe_count w'' = DefaultDict ∅ /\
  (count_getitem "A320" w'').1 = Ok 0.
Proof. vm_compute. repeat split; reflexivity. Qed.

(** C10: absent keys count as zero.  Without [count.pickle] the store
    starts as an empty [defaultdict(int)]; asking it, or any defaultdict,
    for a type it has no entry for gives 0 and no error, and the store is
    still a defaultdict afterwards. *)
Theorem counter_store_absent_key_is_zero (w : World) (k : string) :
  fs w !! "count.pickle" = None ->
  let w1 := (load_counts w).2 in
  airframe_count w1 = DefaultDict ∅ /\
  (count_getitem k w1).1 = Ok 0 /\
  forall m, m !! k = None ->
    getitem (DefaultDict m) k = (Ok 0, DefaultDict (<[k := 0]> m)).
Proof.
  intros H. simpl. rewrite H. repeat split.
  intros m Hm. simpl. by rewrite Hm.
Qed.

Lemma counter_store_absent_key_is_zero_witness :
  fs one_row_world !! "count.pickle" = None /\
  let w1 := (load_counts one_row_world).2 in
  airframe_count w1 = DefaultDict ∅ /\
  (count_getitem "B737" w1).1 = Ok 0 /\
  forall m, m !! "B737" = None ->
    getitem (DefaultDict m) "B737" = (Ok 0, DefaultDict (<["B737" := 0]> m)).
Proof.
  split; [reflexivity|].
  apply (counter_store_absent_key_is_zero one_row_world "B737"). reflexivity.
Defined.

(** * The scheduler's quota *)

(** When the count has reached the quota at the loop's test, the loop
    ends at once: nothing is purchased. *)
Lemma acquire_quota_met sort fuel row df w c mx w1 :
  count_getitem (aircraft_type row) w = (Ok c, w1) ->
  maximum_airframes row = Num mx ->
  mx <= c ->
  acquire sort (S fuel) row df w = (Ok tt, w1).
Proof.
  intros Hc Hmx Hle. simpl. unfold bind at 1. rewrite Hc.
  unfold bind at 1. rewrite Hmx. simpl.
  destruct (c <? mx) eqn:E; [lia | done].
Qed.

(** Below the quota, the loop buys the whole batch of eligible rows, in
    the order [sort_values] gives them, before it tests the quota
    again. *)
Lemma acquire_batch sort fuel row df w c mx mh w1 :
  count_getitem (aircraft_type row) w = (Ok c, w1) ->
  maximum_airframes row = Num mx ->
  maximum_hours row = Num mh ->
  c < mx ->
  filter_hours mh df <> [] ->
  acquire sort (S fuel) row df w
  = (purchase_all (aircraft_type row) (sort (filter_hours mh df)) ;;
     acquire sort fuel row (sort (filter_hours mh df))) w1.
Proof.
  intros Hc Hmx Hmh Hlt Hne. cbn [acquire]. unfold bind at 1. rewrite Hc.
  unfold bind at 1. rewrite Hmx. cbn [py_int lift].
  rewrite (proj2 (Z.ltb_lt c mx) Hlt).
  unfold bind at 1. rewrite Hmh. cbn [py_int lift].
  destruct (filter_hours mh df) as [|l ls]; [done|]. done.
Qed.

(** C2: quota bound.  With a quota of one A320, nothing acquired yet and
    two eligible rows on the page, the pass over the rule calls
    [purchase_aircraft] twice and leaves the count at 2: the quota is
    tested before the batch, not before each purchase. *)
Theorem quota_exceeded_within_batch :
  let row := rule "A320" 1 100 in
  let '(r, w') := rule_pass stable_sort 2 row two_row_world in
  r = Ok tt /\
  purchase_calls (trace w') = [(1, 1); (1, 2)] /\
  items (airframe_count w') !! "A320" = Some 2.
Proof. vm_compute. repeat split; reflexivity. Qed.

(** * Eligibility and order *)

Lemma filter_hours_spec mh df x :
  x ∈ filter_hours mh df <-> x ∈ df /\ hours x < mh.
Proof. unfold filter_hours. rewrite list_elem_of_filter. tauto. Qed.

(** The sort that inserts before ties keeps rows of equal hours in
    order. *)
Lemma insert_before_ties_filter h x l :
  filter (fun y => hours y = h) (insert_by (fun x y => hours x <=? hours y) x l)
  = filter (fun y => hours y = h) (x :: l).
Proof.
  induction l as [|y l IH]; simpl; [done|].
  destruct (hours x <=? hours y) eqn:E; [done|].
  rewrite filter_cons, IH, !filter_cons.
  destruct (decide (hours y = h)), (decide (hours x = h)); try done. lia.
Qed.

Lemma stable_sort_keeps_ties l : keeps_ties stable_sort l.
Proof.
  intros h. induction l as [|x l IH]; [done|].
  unfold stable_sort in *. simpl.
  rewrite insert_before_ties_filter, !filter_cons, IH. done.
Qed.

Lemma example_df_built : build_table_index [example_table] = Ok example_df.
Proof. reflexivity. Qed.

(** A stable sort gives the order of the example: rows 1, 3, 0. *)
Example stable_example_order :
  map rowidx (stable_sort (filter_hours 100 example_df)) = [1; 3; 0]%nat.
Proof. reflexivity. Qed.

(** On the example every sort that returns the same rows in ascending
    order of hours buys the two rows of 10 hours first, in either order,
    and row 0 last. *)
Lemma example_order sort :
  sort_contract sort ->
  map hours (sort (filter_hours 100 example_df)) = [10; 10; 50] /\
  (map rowidx (sort (filter_hours 100 example_df)) = [1; 3; 0]%nat \/
   map rowidx (sort (filter_hours 100 example_df)) = [3; 1; 0]%nat).
Proof.
  intros Hsort.
  destruct (Hsort (filter_hours 100 example_df)) as [Hp _].
  assert (Hin : forall x, x ∈ sort (filter_hours 100 example_df) <->
                          x ∈ example_df /\ hours x < 100)
    by (intros x; rewrite Hp; apply filter_hours_spec).
  pose proof (sort_contract_hours sort stable_sort
                (filter_hours 100 example_df) Hsort stable_sort_contract)
    as Hh.
  change (map hours (stable_sort (filter_hours 100 example_df)))
    with [10; 10; 50] in Hh.
  split; [exact Hh|].
  assert (Hnd : NoDup (sort (filter_hours 100 example_df))).
  { rewrite Hp.
    change (filter_hours 100 example_df) with
      [ {| pagenum := 0; rowidx := 0; hours := 50; rest := "" |};
        {| pagenum := 0; rowidx := 1; hours := 10; rest := "" |};
        {| pagenum := 0; rowidx := 3; hours := 10; rest := "" |} ].
    rewrite !NoDup_cons, !not_elem_of_cons.
    repeat split; try discriminate; try apply not_elem_of_nil.
    apply NoDup_nil_2. }
  destruct (sort (filter_hours 100 example_df)) as [|a [|b [|c [|d r]]]];
    try discriminate Hh.
  injection Hh as Ha Hb Hc.
  assert (Hcase : forall x, x ∈ [a; b; c] ->
            x = {| pagenum := 0; rowidx := 0; hours := 50; rest := "" |} \/
            x = {| pagenum := 0; rowidx := 1; hours := 10; rest := "" |} \/
            x = {| pagenum := 0; rowidx := 3; hours := 10; rest := "" |}).
  { intros x Hx. apply Hin in Hx as [Hx Hlt]. unfold example_df in Hx.
    rewrite !elem_of_cons, elem_of_nil in Hx.
    destruct Hx as [Hx | [Hx | [Hx | [Hx | []]]]]; subst x; auto.
    simpl in Hlt. lia. }
  apply NoDup_cons in Hnd as [Hab Hnd].
  apply NoDup_cons in Hnd as [Hbc _].
  rewrite !not_elem_of_cons in Hab, Hbc.
  assert (Ha' := Hcase a ltac:(rewrite !elem_of_cons; auto)).
  assert (Hb' := Hcase b ltac:(rewrite !elem_of_cons; auto)).
  assert (Hc' := Hcase c ltac:(rewrite !elem_of_cons; auto)).
  destruct Ha' as [-> | [-> | ->]]; try discriminate Ha;
    destruct Hb' as [-> | [-> | ->]]; try discriminate Hb;
    destruct Hc' as [-> | [-> | ->]]; try discriminate Hc;
    try (by left); try (by right); exfalso; tauto.
Qed.

(** * The browser's methods in a world without faults *)

Lemma tick_ok w : faults w = [] -> tick w = (Ok tt, w).
Proof. intros F. unfold tick. by rewrite F. Qed.

Lemma tick_keeps w r w' :
  tick w = (r, w') -> browser w' = browser w /\ site w' = site w.
Proof.
  unfold tick. by destruct (faults w) as [|[] l]; intros [= <- <-].
Qed.

Lemma tick_trace w r w' : tick w = (r, w') -> trace w' = trace w.
Proof.
  unfold tick. by destruct (faults w) as [|[] l]; intros [= <- <-].
Qed.

Lemma filter_ne_seq (i a k : nat) :
  (i < a \/ a + k <= i)%nat ->
  filter (fun p => p <> i) (seq a k) = seq a k.
Proof.
  revert a. induction k as [|k IH]; intros a H; simpl; [done|].
  rewrite filter_cons, decide_True by lia. f_equal. apply IH. lia.
Qed.

(** The targets of the pager's links when page [i] of [n] is shown. *)
Lemma pager_targets_split (n i : nat) :
  (i < n)%nat ->
  filter (fun p => p <> i) (seq 0 n) = (seq 0 i ++ seq (S i) (n - S i))%list.
Proof.
  intros Hi.
  replace n with (i + (1 + (n - S i)))%nat at 1 by lia.
  rewrite !seq_app, !filter_app.
  rewrite (filter_ne_seq i 0 i) by lia.
  rewrite (filter_ne_seq i (0 + i + 1)) by lia.
  simpl. rewrite filter_cons, decide_False by lia. simpl.
  do 2 f_equal. lia.
Qed.

Lemma py_index_nat {A} (l : list A) (i : nat) (x : A) :
  l !! i = Some x -> py_index l (Z.of_nat i) = Ok x.
Proof.
  intros H. pose proof (lookup_lt_Some _ _ _ H) as Hlt.
  unfold py_index. cbv zeta.
  rewrite (proj2 (Z.leb_le 0 (Z.of_nat i))) by lia.
  rewrite (proj2 (Z.ltb_lt (Z.of_nat i) _)) by lia.
  rewrite (proj2 (Z.leb_le 0 (Z.of_nat i))) by lia. cbn [andb].
  by rewrite Nat2Z.id, H.
Qed.

(** On page [i], the [i]-th link of the pager leads to page [i + 1]. *)
Lemma pager_link_next (b : Browser) :
  (S (cur b) < length (shown b))%nat ->
  py_index (pager_targets b) (Z.of_nat (cur b)) = Ok (S (cur b)).
Proof.
  intros H. apply py_index_nat. unfold pager_targets.
  rewrite pager_targets_split by lia.
  rewrite lookup_app_r by (rewrite length_seq; lia).
  rewrite length_seq, Nat.sub_diag.
  destruct (length (shown b) - S (cur b))%nat eqn:E3; [lia|]. done.
Qed.

Lemma bind_eval {A B} (m : M A) (k : A -> M B) w a w1 :
  m w = (Ok a, w1) -> bind m k w = k a w1.
Proof. intros H. unfold bind. by rewrite H. Qed.

Lemma bind_raise {A B} (m : M A) (k : A -> M B) w e w1 :
  m w = (Raise e, w1) -> bind m k w = (Raise e, w1).
Proof. intros H. unfold bind. by rewrite H. Qed.

Lemma navbar_links_ok w :
  faults w = [] -> navbar_links w = (Ok (pager_targets (browser w)), w).
Proof. intros F. unfold navbar_links. by rewrite (bind_eval _ _ _ _ _ (tick_ok w F)). Qed.

Lemma page_source_ok w :
  faults w = [] ->
  page_source w = (Ok (default [] (shown (browser w) !! cur (browser w))), w).
Proof. intros F. unfold page_source. by rewrite (bind_eval _ _ _ _ _ (tick_ok w F)). Qed.

Lemma click_page_ok p w :
  faults w = [] ->
  click_page p w =
    (Ok tt,
     set_browser {| selected := selected (browser w);
                    shown := shown (browser w); cur := p |}
       (set_trace (trace w ++ [Click (PageLink p)]) w)).
Proof. intros F. unfold click_page. by rewrite (bind_eval _ _ _ _ _ (tick_ok w F)). Qed.

Lemma goto_leases_ok w :
  faults w = [] ->
  goto_leases w =
    (Ok tt,
     set_browser {| selected := None; shown := site_unfiltered (site w);
                    cur := 0%nat |}
       (set_trace (trace w ++ [GotoLeases]) w)).
Proof. intros F. unfold goto_leases. by rewrite (bind_eval _ _ _ _ _ (tick_ok w F)). Qed.

(** The loop of [get_leases], started on page [i] with [k] more pages to
    visit: it visits pages [i + 1], ..., [i + k], each once, and appends
    their tables in that order. *)
Lemma get_leases_loop_ok (pages : list Dom) (k : nat) :
  forall (i : nat) (tables : list PageTable) (w : World),
    faults w = [] ->
    shown (browser w) = pages ->
    cur (browser w) = i ->
    (i + k < length pages)%nat ->
    exists w',
      get_leases_loop (seq i k) tables w
        = (Ok (tables ++ map get_table (take k (drop (S i) pages)))%list, w') /\
      faults w' = [] /\
      exists evs,
        trace w' = (trace w ++ evs)%list /\
        page_clicks evs = seq (S i) k /\
        ui_mutations evs = map (fun p => Click (PageLink p)) (seq (S i) k).
Proof.
  induction k as [|k IH]; intros i tables w F Hs Hc Hlt.
  - exists w. cbn [seq get_leases_loop]. rewrite take_0. cbn [map].
    rewrite app_nil_r. split; [done|]. split; [done|].
    exists []. by rewrite app_nil_r.
  - destruct (lookup_lt_is_Some_2 pages (S i)) as [d Hd]; [lia|].
    cbn [seq get_leases_loop].
    set (w1 := set_trace (trace w ++ [Print (DebugIdx i)]) w).
    rewrite (bind_eval _ _ w tt w1) by reflexivity.
    rewrite (bind_eval _ _ w1 _ w1 (navbar_links_ok w1 F)).
    assert (Hnext : py_index (pager_targets (browser w1)) (Z.of_nat i)
                    = Ok (S i)).
    { rewrite <- Hc. apply (pager_link_next (browser w)). rewrite Hs, Hc. lia. }
    rewrite (bind_eval _ _ w1 (S i) w1) by (unfold lift; by rewrite Hnext).
    rewrite (bind_eval _ _ w1 tt _ (click_page_ok (S i) w1 F)).
    match goal with |- context [bind wait_until _ ?w2] => set (w2' := w2) end.
    rewrite (bind_eval _ _ w2' tt w2') by (apply tick_ok; exact F).
    rewrite (bind_eval _ _ w2' _ w2' (page_source_ok w2' F)).
    assert (Hps : default [] (shown (browser w2') !! cur (browser w2')) = d).
    { cbn. by rewrite Hs, Hd. }
    rewrite Hps.
    destruct (IH (S i) (tables ++ [get_table d])%list w2' F Hs eq_refl
                ltac:(lia)) as (w' & Hrun & F' & evs & Ht & Hpc & Hum).
    exists w'. rewrite Hrun. split.
    + do 2 f_equal. rewrite (drop_S _ _ _ Hd). cbn [take map].
      by rewrite <- app_assoc.
    + split; [done|].
      exists ([Print (DebugIdx i); Click (PageLink (S i))] ++ evs)%list.
      split; [|split].
      * rewrite Ht. cbn [w2' trace set_browser set_trace w1].
        by rewrite <- !app_assoc.
      * unfold page_clicks. rewrite omap_app. fold (page_clicks evs).
        by rewrite Hpc.
      * unfold ui_mutations. rewrite List.filter_app.
        fold (ui_mutations evs). by rewrite Hum.
Qed.

Lemma tick_no_fault w :
  hd false (faults w) = false -> tick w = (Ok tt, after_tick w).
Proof.
  unfold tick, after_tick. destruct (faults w) as [|[|] l]; simpl; done.
Qed.

(** * The filter on an airframe that is not offered *)

Lemma apply_airframe_filter_absent a w :
  available_airframes (site_options (site w)) !! a = None ->
  hd false (faults w) = false ->
  apply_airframe_filter a w
  = (Ok false,
     set_trace (trace (after_tick w) ++ [Print (DebugNotFound a)])
       (after_tick w)).
Proof.
  intros Ha Hf. unfold apply_airframe_filter, read_options.
  unfold bind at 1. unfold bind at 1. rewrite (tick_no_fault w Hf).
  cbn [bind get_site ret].
  replace (site (after_tick w)) with (site w)
    by (unfold after_tick; by destruct (faults w)).
  rewrite Ha. reflexivity.
Qed.

Lemma after_tick_fields w :
  site (after_tick w) = site w /\ browser (after_tick w) = browser w /\
  trace (after_tick w) = trace w /\ fs (after_tick w) = fs w /\
  airframe_count (after_tick w) = airframe_count w /\
  purchases (after_tick w) = purchases w.
Proof. unfold after_tick. by destruct (faults w). Qed.

(** C8: unknown resource type.  When the airframe is not among the
    options the filter offers (and reading the options did not itself
    fail), [get_leases] and [get_lease_page] return [None], the browser
    shows what it showed, and the only thing added to the trace is the
    debug line: nothing is selected, nothing clicked.  In a world without
    faults the callers go on without purchase, error or warning. *)
Theorem absent_airframe_is_inert (a : string) (w : World) :
  available_airframes (site_options (site w)) !! a = None ->
  hd false (faults w) = false ->
  (exists w',
     get_leases a w = (Ok None, w') /\
     get_lease_page a w = (Ok None, w') /\
     browser w' = browser w /\
     trace w' = (trace w ++ [Print (DebugNotFound a)])%list) /\
  (faults w = [] ->
   forall sort fuel row, aircraft_type row = a ->
     exists w',
       rule_pass sort fuel row w = (Ok tt, w') /\
       trace w' = (trace w ++ [GotoLeases; Print (DebugNotFound a)])%list /\
       airframe_count w' = airframe_count w) /\
  (faults w = [] ->
   exists w',
     agent_pass a w = (Ok tt, w') /\
     trace w' = (trace w ++ [GotoLeases; Print (DebugNotFound a)])%list /\
     purchases w' = purchases w).
Proof.
  intros Ha Hf. destruct (after_tick_fields w) as (Hs & Hb & Ht & _).
  split; [|split].
  - eexists. unfold get_leases, get_lease_page.
    rewrite !(bind_eval _ _ _ _ _ (apply_airframe_filter_absent a w Ha Hf)).
    split; [reflexivity|]. split; [reflexivity|].
    cbn [browser trace set_trace]. by rewrite Hb, Ht.
  - intros F sort fuel row <-. eexists. unfold rule_pass.
    rewrite (bind_eval _ _ _ _ _ (goto_leases_ok w F)).
    unfold get_leases.
    erewrite (bind_eval (bind (apply_airframe_filter _) _)).
    2: { erewrite bind_eval
           by (apply apply_airframe_filter_absent;
               [exact Ha | cbn; by rewrite F]).
         reflexivity. }
    split; [reflexivity|].
    cbn. unfold after_tick. cbn. rewrite F. cbn.
    by rewrite <- app_assoc.
  - intros F. eexists. unfold agent_pass.
    rewrite (bind_eval _ _ _ _ _ (goto_leases_ok w F)).
    unfold get_lease_page.
    erewrite (bind_eval (bind (apply_airframe_filter _) _)).
    2: { erewrite bind_eval
           by (apply apply_airframe_filter_absent;
               [exact Ha | cbn; by rewrite F]).
         reflexivity. }
    split; [reflexivity|].
    cbn. unfold after_tick. cbn. rewrite F. cbn.
    by rewrite <- app_assoc.
Qed.

Lemma absent_airframe_is_inert_witness :
  available_airframes (site_options (site one_row_world)) !! "B737" = None /\
  hd false (faults one_row_world) = false /\
  exists w',
    get_leases "B737" one_row_world = (Ok None, w') /\
    get_lease_page "B737" one_row_world = (Ok None, w') /\
    browser w' = browser one_row_world /\
    trace w' = (trace one_row_world ++ [Print (DebugNotFound "B737")])%list.
Proof.
  split; [reflexivity|]. split; [reflexivity|].
  apply (absent_airframe_is_inert "B737" one_row_world); reflexivity.
Defined.

(** * Collecting the pages *)

Lemma apply_airframe_filter_present a v w :
  available_airframes (site_options (site w)) !! a = Some v ->
  faults w = [] ->
  apply_airframe_filter a w
  = (Ok true,
     set_browser {| selected := Some v; shown := site_listing (site w) v;
                    cur := 0%nat |}
       (set_trace (trace w ++ [SelectByValue v; Click BtnApplyFilter]) w)).
Proof.
  intros Ha F.
  unfold apply_airframe_filter, read_options, select_by_value,
    click_apply_filter, wait_until, bind, tick, get_site, ret, emit,
    modify_browser.
  cbn. rewrite F. cbn. rewrite Ha. cbn. rewrite F. cbn. rewrite F. cbn.
  rewrite F. cbn. by rewrite <- app_assoc.
Qed.

(** ** The indexed table *)

Lemma zip_newindex (g : nat -> nat) (dfs : list PageTable) :
  zip (concat (imap (fun i x => replicate (length x) (g i)) dfs))
      (pd_concat dfs)
  = concat (imap (fun i t => imap (fun j r => (g i, (j, r))) t) dfs).
Proof.
  revert g. induction dfs as [|x dfs IH]; intros g; [done|].
  unfold pd_concat in *. cbn [imap map concat].
  rewrite zip_with_app by (by rewrite length_replicate, length_imap).
  specialize (IH (g ∘ S)). unfold compose in *. cbv beta in *.
  rewrite IH. f_equal.
  rewrite zip_with_replicate_l by (by rewrite length_imap).
  by rewrite fmap_imap.
Qed.

Lemma astype_int_app a b :
  astype_int (a ++ b) =
    match astype_int a with
    | Ok la => match astype_int b with
               | Ok lb => Ok (la ++ lb)%list
               | Raise e => Raise e
               | OutOfFuel => OutOfFuel
               end
    | Raise e => Raise e
    | OutOfFuel => OutOfFuel
    end.
Proof.
  induction a as [|[p [j r]] a IH]; cbn [astype_int app].
  - by destruct (astype_int b).
  - destruct (to_int64 (raw_hours r)); [|done..]. rewrite IH.
    destruct (astype_int a); [|done..]. by destruct (astype_int b).
Qed.

Lemma to_int64_Ok c z :
  to_int64 c = Ok z <-> c = Num z /\ in_int64 z = true.
Proof.
  unfold to_int64. destruct c as [z'|s]; [|split; [done | by intros [[=] _]]].
  destruct (in_int64 z') eqn:E; split.
  - by intros [= <-].
  - by intros [[= <-] _].
  - done.
  - intros [[= <-] H]. congruence.
Qed.

Lemma astype_int_Ok rows ls :
  astype_int rows = Ok ls ->
  ls = map (fun x => lease_of x.1 x.2.1 x.2.2) rows /\
  Forall (fun x => numeric x.2.2) rows.
Proof.
  revert ls. induction rows as [|[p [j r]] rows IH]; intros ls H;
    cbn [astype_int] in H.
  - by injection H as <-.
  - destruct (to_int64 (raw_hours r)) as [z| |] eqn:E; [|done..].
    apply to_int64_Ok in E as [E Hz].
    destruct (astype_int rows) as [ls'| |]; [|done..].
    injection H as <-. destruct (IH ls' eq_refl) as [-> Hall]. split.
    + simpl. f_equal. unfold lease_of. simpl. by rewrite E.
    + constructor; [by exists z | done].
Qed.

Lemma astype_int_numeric rows :
  Forall (fun x => numeric x.2.2) rows ->
  astype_int rows = Ok (map (fun x => lease_of x.1 x.2.1 x.2.2) rows).
Proof.
  induction 1 as [|[p [j r]] rows [z [Hz Hr]] _ IH]; [done|].
  cbn [astype_int map fst snd] in *.
  rewrite (proj2 (to_int64_Ok _ z) (conj Hz Hr)), IH. do 2 f_equal.
  unfold lease_of. simpl. by rewrite Hz.
Qed.

Lemma map_lease_of_tagged (g : nat -> nat) (dfs : list PageTable) :
  map (fun x => lease_of x.1 x.2.1 x.2.2)
    (concat (imap (fun i t => imap (fun j r => (g i, (j, r))) t) dfs))
  = concat (imap (fun p t => imap (fun j r => lease_of (g p) j r) t) dfs).
Proof.
  revert g. induction dfs as [|x dfs IH]; intros g; [done|].
  cbn [imap concat]. rewrite map_app.
  specialize (IH (g ∘ S)). unfold compose in *. cbv beta in *.
  rewrite IH. f_equal.
  change (map ?f ?l) with (f <$> l). by rewrite fmap_imap.
Qed.

(** When [build_table_index] returns, it returns the rows of the pages in
    order, tagged with page number and position. *)
Lemma build_table_index_Ok dfs ls :
  build_table_index dfs = Ok ls ->
  ls = tagged_concat dfs /\ Forall (Forall numeric) dfs.
Proof.
  unfold build_table_index. destruct dfs as [|x dfs]; [done|].
  intros H. apply astype_int_Ok in H as [-> Hall].
  unfold newindex in *.
  rewrite (zip_newindex id) in *. split.
  - apply (map_lease_of_tagged id).
  - rewrite Forall_concat in Hall. rewrite Forall_forall in Hall.
    rewrite Forall_forall. intros t Ht.
    apply list_elem_of_lookup in Ht as [i Hi].
    specialize (Hall (imap (fun j r => (i, (j, r))) t)).
    rewrite Forall_forall. intros r Hr.
    apply list_elem_of_lookup in Hr as [j Hj].
    assert (Hin : imap (fun j r => (i, (j, r))) t ∈
                  imap (fun i t => imap (fun j r => (id i, (j, r))) t)
                       (x :: dfs)).
    { apply (elem_of_lookup_imap_2
               (fun i t => imap (fun j r => (id i, (j, r))) t) _ t i Hi). }
    specialize (Hall Hin). rewrite Forall_forall in Hall.
    apply (Hall (i, (j, r))).
    apply (elem_of_lookup_imap_2 (fun j r => (i, (j, r))) _ r j Hj).
Qed.

(** It returns whenever there is a page and every hours cell is numeric. *)
Lemma build_table_index_numeric dfs :
  dfs <> [] -> Forall (Forall numeric) dfs ->
  build_table_index dfs = Ok (tagged_concat dfs).
Proof.
  intros Hne Hall. unfold build_table_index.
  destruct dfs as [|x dfs]; [done|].
  unfold newindex. rewrite (zip_newindex id).
  rewrite astype_int_numeric.
  - f_equal. apply (map_lease_of_tagged id).
  - rewrite Forall_concat, Forall_forall. intros l Hl.
    apply elem_of_lookup_imap_1 in Hl as (i & t & -> & Hi).
    rewrite Forall_forall. intros y Hy.
    apply elem_of_lookup_imap_1 in Hy as (j & r & -> & Hj). simpl.
    rewrite Forall_forall in Hall.
    specialize (Hall t ltac:(eapply list_elem_of_lookup_2; exact Hi)).
    rewrite Forall_forall in Hall. apply Hall.
    eapply list_elem_of_lookup_2. exact Hj.
Qed.

Lemma pager_targets_first (b : Browser) :
  cur b = 0%nat -> shown b <> [] ->
  pager_targets b = seq 1 (length (shown b) - 1).
Proof.
  intros Hc Hne. unfold pager_targets. rewrite Hc.
  rewrite pager_targets_split by (destruct (shown b); simpl; [done | lia]).
  done.
Qed.

(** In a world without faults [get_leases] returns the tables of all the
    pages of the filtered listing, in order, having clicked once on the
    link of every page after the first. *)
Lemma get_leases_ok (a v : string) (w : World) :
  faults w = [] ->
  available_airframes (site_options (site w)) !! a = Some v ->
  site_listing (site w) v <> [] ->
  exists w' evs,
    get_leases a w = (Ok (Some (map get_table (site_listing (site w) v))), w') /\
    faults w' = [] /\
    trace w' = (trace w ++ [SelectByValue v; Click BtnApplyFilter] ++ evs)%list /\
    page_clicks evs = seq 1 (length (site_listing (site w) v) - 1).
Proof.
  intros F Ha Hne. unfold get_leases.
  rewrite (bind_eval _ _ _ _ _ (apply_airframe_filter_present a v w Ha F)).
  set (w1 := set_browser _ _).
  assert (F1 : faults w1 = []) by exact F.
  rewrite (bind_eval _ _ w1 _ w1 (page_source_ok w1 F1)).
  rewrite (bind_eval _ _ w1 _ w1 (navbar_links_ok w1 F1)).
  set (pages := site_listing (site w) v) in *.
  assert (Hs : shown (browser w1) = pages) by reflexivity.
  rewrite (pager_targets_first (browser w1)) by (done || by rewrite Hs).
  rewrite length_seq, Hs.
  destruct pages as [|d pages'] eqn:Ep; [done|].
  destruct (get_leases_loop_ok (d :: pages') (length (d :: pages') - 1)
              0 [get_table d] w1 F1 Hs eq_refl)
    as (w' & Hrun & F' & evs & Ht & Hpc & _); [simpl; lia|].
  exists w', evs.
  change (default [] ((d :: pages') !! cur (browser w1))) with d.
  unfold bind at 1. rewrite Hrun. split; [|split; [done|split; [|done]]].
  - cbn [ret]. do 3 f_equal. cbn [length drop].
    replace (S (length pages') - 1)%nat with (length pages') by lia.
    by rewrite firstn_all.
  - rewrite Ht. cbn [w1 trace set_browser set_trace].
    by rewrite <- app_assoc.
Qed.

Lemma tagged_concat_pagenum_gen (g : nat -> nat) (dfs : list PageTable) :
  map pagenum (concat (imap (fun p t => imap (fun j r => lease_of (g p) j r) t) dfs))
  = concat (imap (fun i x => replicate (length x) (g i)) dfs).
Proof.
  revert g. induction dfs as [|x dfs IH]; intros g; [done|].
  cbn [imap concat]. rewrite map_app.
  specialize (IH (g ∘ S)). unfold compose in *. cbv beta in *.
  rewrite IH. f_equal.
  change (map ?f ?l) with (f <$> l). rewrite fmap_imap.
  clear. generalize (g 0%nat). intros c.
  induction x as [|r x IHx] using rev_ind; [done|].
  rewrite imap_app, length_app, replicate_add, IHx. done.
Qed.

Lemma tagged_concat_pagenum dfs :
  map pagenum (tagged_concat dfs) = newindex dfs.
Proof. apply (tagged_concat_pagenum_gen id). Qed.

Lemma tagged_concat_length dfs :
  length (tagged_concat dfs) = sum_list (map length dfs).
Proof.
  rewrite <- (length_map pagenum), tagged_concat_pagenum.
  unfold newindex.
  assert (H : forall g : nat -> nat,
             length (concat (imap (fun i x => replicate (length x) (g i)) dfs))
             = sum_list (map length dfs)); [|apply (H id)].
  induction dfs as [|x dfs IH]; intros g; [done|].
  cbn [imap concat map]. rewrite length_app, length_replicate.
  specialize (IH (g ∘ S)). unfold compose in *. cbv beta in *.
  by rewrite IH.
Qed.

(** C6: multi-page collection.  For an offered airframe whose filtered
    listing has at least one page, in a world without faults:
    [get_leases] returns the table of every page, once each and in page
    order, after one click on the link of each page after the first; and
    [build_table_index], when it returns, gives the rows of those tables
    in order, each tagged with its 0-based page number and its position
    on the page.  It returns when every hours cell is numeric. *)
Theorem collects_every_page_once (a v : string) (w : World) :
  faults w = [] ->
  available_airframes (site_options (site w)) !! a = Some v ->
  site_listing (site w) v <> [] ->
  let pages := site_listing (site w) v in
  let tables := map get_table pages in
  (exists w' evs,
     get_leases a w = (Ok (Some tables), w') /\
     trace w' =
       (trace w ++ [SelectByValue v; Click BtnApplyFilter] ++ evs)%list /\
     page_clicks evs = seq 1 (length pages - 1)) /\
  (forall ls, build_table_index tables = Ok ls ->
     ls = tagged_concat tables /\
     map pagenum ls = concat (imap (fun p t => replicate (length t) p) tables) /\
     length ls = sum_list (map length tables)) /\
  (Forall (Forall numeric) tables ->
   build_table_index tables = Ok (tagged_concat tables)).
Proof.
  intros F Ha Hne pages tables. split; [|split].
  - destruct (get_leases_ok a v w F Ha Hne) as (w' & evs & H1 & _ & H2 & H3).
    by exists w', evs.
  - intros ls H. apply build_table_index_Ok in H as [-> _].
    split; [done|]. split.
    + apply tagged_concat_pagenum.
    + apply tagged_concat_length.
  - apply build_table_index_numeric. subst tables pages.
    by destruct (site_listing (site w) v).
Qed.

(** Pages of sizes 3, 3 and 1 give 7 rows with page numbers
    0, 0, 0, 1, 1, 1, 2, in the order of the pages. *)
Lemma collects_every_page_once_witness :
  faults three_page_world = [] /\
  available_airframes (site_options (site three_page_world)) !! "A320"
    = Some "17" /\
  site_listing (site three_page_world) "17" <> [] /\
  let tables := [map row [11; 12; 13]; map row [21; 22; 23]; map row [31]] in
  (exists w' evs,
     get_leases "A320" three_page_world = (Ok (Some tables), w') /\
     trace w' =
       (trace three_page_world
        ++ [SelectByValue "17"; Click BtnApplyFilter] ++ evs)%list /\
     page_clicks evs = [1; 2]%nat) /\
  (forall ls, build_table_index tables = Ok ls ->
     ls = tagged_concat tables /\
     map pagenum ls = [0; 0; 0; 1; 1; 1; 2]%nat /\
     length ls = 7%nat) /\
  (Forall (Forall numeric) tables ->
   build_table_index tables = Ok (tagged_concat tables)).
Proof.
  split; [reflexivity|]. split; [reflexivity|]. split; [discriminate|].
  apply (collects_every_page_once "A320" "17" three_page_world);
    [reflexivity | reflexivity | discriminate].
Defined.

Example three_pages_collected :
  exists w',
    (let* ts := get_leases "A320" in
     match ts with
     | Some ts => lift (build_table_index ts)
     | None => ret []
     end) three_page_world
    = (Ok [ {| pagenum := 0; rowidx := 0; hours := 11; rest := "" |};
            {| pagenum := 0; rowidx := 1; hours := 12; rest := "" |};
            {| pagenum := 0; rowidx := 2; hours := 13; rest := "" |};
            {| pagenum := 1; rowidx := 0; hours := 21; rest := "" |};
            {| pagenum := 1; rowidx := 1; hours := 22; rest := "" |};
            {| pagenum := 1; rowidx := 2; hours := 23; rest := "" |};
            {| pagenum := 2; rowidx := 0; hours := 31; rest := "" |} ], w').
Proof. eexists. vm_compute. reflexivity. Qed.

(** * The calls to [purchase_aircraft] *)

Lemma purchase_calls_app a b :
  purchase_calls (a ++ b) = (purchase_calls a ++ purchase_calls b)%list.
Proof. apply omap_app. Qed.

Lemma ui_events_no_calls evs :
  forallb is_ui_event evs = true -> purchase_calls evs = [].
Proof.
  induction evs as [|e evs IH]; [done|]. simpl.
  intros [He Hevs]%andb_prop. unfold purchase_calls in *. cbn [omap].
  destruct e; try discriminate He; cbn; auto.
Qed.

(** One call of [purchase_aircraft] leaves one entry marker, with the
    arguments it was given, and does not touch the counters or the
    files. *)
Lemma purchase_aircraft_calls p r w res w' :
  purchase_aircraft p r w = (res, w') ->
  airframe_count w' = airframe_count w /\ fs w' = fs w /\
  purchases w' = purchases w /\
  exists evs,
    trace w' = (trace w ++ CallPurchase p r :: evs)%list /\
    forallb is_ui_event evs = true.
Proof.
  intros H. apply purchase_aircraft_steps in H as [].
  destruct ds_trace0 as (evs & Ht & Hui). cbn in *.
  repeat split; try done. exists evs. by rewrite Ht, <- app_assoc.
Qed.

Lemma count_incr_trace k w res w' :
  count_incr k w = (res, w') -> trace w' = trace w /\ fs w' = fs w.
Proof.
  unfold count_incr, bind, count_getitem.
  destruct (getitem (airframe_count w) k) as [[v|e|] d];
    intros [= <- <-]; done.
Qed.




(** * Saturation mode *)

Lemma info_count_app a b :
  info_count (a ++ b) = (info_count a + info_count b)%nat.
Proof. unfold info_count. by rewrite List.filter_app, length_app. Qed.

Lemma ui_events_no_info evs :
  forallb is_ui_event evs = true -> info_count evs = 0%nat.
Proof.
  induction evs as [|e evs IH]; [done|]. simpl.
  intros [He Hevs]%andb_prop. unfold info_count in *. cbn [List.filter].
  destruct e as [| | | | | | |m|]; try discriminate He; cbn; auto.
  destruct m; try discriminate He; cbn; auto.
Qed.

#[export] Instance sat_step_preorder : PreOrder sat_step.
Proof.
  split.
  - intros w. split; try done. exists []. rewrite app_nil_r. cbn.
    split; [done|]. split; [lia|]. split; [constructor | lia].
  - intros a b c [S1 F1 (e1 & T1 & P1 & C1 & L1)] [S2 F2 (e2 & T2 & P2 & C2 & L2)].
    split; [congruence | tauto |].
    exists (e1 ++ e2)%list. rewrite T2, T1, <- app_assoc.
    rewrite info_count_app, purchase_calls_app, length_app.
    split; [done|]. split; [lia|]. split; [by apply Forall_app | lia].
Qed.

Lemma driver_step_sat w w' : driver_step w w' -> sat_step w w'.
Proof.
  intros [S _ _ P _ F (evs & T & U)]. split; [done..|].
  exists evs. rewrite (ui_events_no_info _ U), (ui_events_no_calls _ U).
  split; [done|]. split; [lia|]. split; [constructor | done].
Qed.

Lemma steps_driver_sat {A} (m : M A) : steps driver_step m -> steps sat_step m.
Proof. apply steps_weaken, driver_step_sat. Qed.

Lemma purchase_and_count_cases w r w' :
  purchase_and_count w = (r, w') ->
  site w' = site w /\ (faults w = [] -> faults w' = []) /\
  exists evs,
    trace w' = (trace w ++ evs)%list /\
    purchase_calls evs = [(-1, 1)] /\
    ((r = Ok tt /\ info_count evs = 1%nat /\ purchases w' = purchases w + 1) \/
     (r <> Ok tt /\ info_count evs = 0%nat /\ purchases w' = purchases w)).
Proof.
  unfold purchase_and_count. unfold bind at 1.
  destruct (purchase_aircraft (-1) 1 w) as [[[]|e|] w1] eqn:E; intros H;
    pose proof (purchase_aircraft_steps _ _ _ _ _ E) as [S _ _ P _ F _];
    apply purchase_aircraft_calls in E as (_ & _ & _ & evs & T & U);
    cbn in S, P, F.
  - injection H as <- <-. cbn. split; [done|]. split; [done|].
    exists (CallPurchase (-1) 1 :: evs ++ [Print InfoTimeToPurchase])%list.
    rewrite T, <- app_assoc. split; [done|].
    change (?e :: ?l ++ ?r)%list with ([e] ++ l ++ r)%list.
    rewrite !purchase_calls_app, !info_count_app.
    rewrite (ui_events_no_calls _ U), (ui_events_no_info _ U).
    split; [done|]. left. cbn. split; [done|]. split; [done|]. lia.
  - injection H as <- <-. split; [done|]. split; [done|].
    exists (CallPurchase (-1) 1 :: evs). split; [done|].
    change (?e :: ?l)%list with ([e] ++ l)%list.
    rewrite !purchase_calls_app, !info_count_app.
    rewrite (ui_events_no_calls _ U), (ui_events_no_info _ U).
    split; [done|]. right. by cbn.
  - injection H as <- <-. split; [done|]. split; [done|].
    exists (CallPurchase (-1) 1 :: evs). split; [done|].
    change (?e :: ?l)%list with ([e] ++ l)%list.
    rewrite !purchase_calls_app, !info_count_app.
    rewrite (ui_events_no_calls _ U), (ui_events_no_info _ U).
    split; [done|]. right. by cbn.
Qed.

Lemma steps_purchase_and_count : steps sat_step purchase_and_count.
Proof.
  intros w r w' H.
  apply purchase_and_count_cases in H as (S & F & evs & T & C & H).
  split; [done..|]. exists evs. rewrite C.
  split; [done|].
  destruct H as [(_ & -> & ->) | (_ & -> & ->)];
    (split; [lia|]); (split; [by repeat constructor | cbn; lia]).
Qed.

Lemma steps_sat_emit_warn m :
  m <> InfoTimeToPurchase -> steps sat_step (emit (Print m)).
Proof.
  intros Hm w r w' [= <- <-]. split; [done..|].
  exists [Print m]. cbn. split; [done|].
  destruct m; try (by destruct Hm); cbn;
    (split; [lia|]); (split; [constructor | lia]).
Qed.

Lemma steps_sat_new_session : steps sat_step (emit NewSession).
Proof.
  intros w r w' [= <- <-]. split; [done..|].
  exists [NewSession]. cbn. split; [done|]. split; [lia|].
  split; [constructor | lia].
Qed.

Lemma steps_sat_get_purchases : steps sat_step get_purchases.
Proof. intros w r w' [= <- <-]. reflexivity. Qed.

#[export] Hint Resolve steps_driver_sat | 5 : steps.
#[export] Hint Resolve steps_purchase_and_count steps_sat_new_session
  steps_sat_get_purchases : steps.
#[export] Hint Extern 1 (steps sat_step (emit (Print _))) =>
  (apply steps_sat_emit_warn; discriminate) : steps.

Lemma steps_sat_new_agent : steps sat_step BrowserAgent.
Proof. unfold BrowserAgent. steps_tac. Qed.

Lemma steps_agent_pass a : steps sat_step (agent_pass a).
Proof. unfold agent_pass. steps_tac. Qed.
#[export] Hint Resolve steps_sat_new_agent steps_agent_pass : steps.

Lemma steps_agent_loop fuel a mx : steps sat_step (agent_loop fuel a mx).
Proof. induction fuel as [|fuel IH]; simpl; steps_tac. Qed.
#[export] Hint Resolve steps_agent_loop : steps.

Lemma steps_launch_loop fuel a mx : steps sat_step (launch_loop fuel a mx).
Proof. induction fuel as [|fuel IH]; simpl; steps_tac. Qed.

(** [BrowserAgent()] either raises and leaves no mark, or records the new
    session; it never touches the counters. *)
Lemma new_agent_cases w r w' :
  BrowserAgent w = (r, w') ->
  purchases w' = purchases w /\ airframe_count w' = airframe_count w /\
  fs w' = fs w /\ site w' = site w /\ clock w' = clock w /\
  (faults w = [] -> faults w' = []) /\
  ((r = Ok tt /\ trace w' = (trace w ++ [NewSession])%list) \/
   (r = Raise WebDriverException /\ trace w' = trace w)).
Proof.
  unfold BrowserAgent, bind, tick, emit, modify_browser.
  destruct (faults w) as [|[|] l] eqn:F; intros [= <- <-]; cbn;
    rewrite ?F; repeat split; auto; try discriminate.
Qed.

(** A failed start of a session leaves the worker's count as it was. *)
Lemma failed_start_keeps_purchases w e w1 :
  (BrowserAgent ;; login_workflow) w = (Raise e, w1) ->
  purchases w1 = purchases w.
Proof.
  unfold bind at 1. destruct (BrowserAgent w) as [[[]|e'|] w0] eqn:E;
    apply new_agent_cases in E as (P & _).
  - intros H. apply steps_login_workflow in H as []. congruence.
  - by intros [= <- <-].
  - discriminate.
Qed.

Lemma launch_loop_restart fuel a mx w e w1 :
  purchases w < mx ->
  (BrowserAgent ;; login_workflow) w = (Raise e, w1) ->
  launch_loop (S fuel) a mx w
  = launch_loop fuel a mx (set_trace (trace w1 ++ [Print WarnLogin]) w1).
Proof.
  intros Hlt H. cbn [launch_loop]. unfold bind at 1. cbn [get_purchases].
  rewrite (proj2 (Z.ltb_lt _ _) Hlt). unfold bind at 1, try_except.
  assert (H' : (BrowserAgent ;; login_workflow ;; agent_loop fuel a mx) w
               = (Raise e, w1)).
  { unfold bind at 1. unfold bind at 1 in H.
    destruct (BrowserAgent w) as [[[]|e'|] w0]; [|done..].
    unfold bind at 1. by rewrite H. }
  rewrite H'. reflexivity.
Qed.

(** C9: the worker's count across session restarts.  In any run of
    [launch_agent], whatever the faults and however many sessions are
    constructed, the count at the end is the number of purchases reported
    in the run: it is set to zero once, at the start, and only ever
    incremented.  In particular a failed construction or login, after
    which the worker builds a new session, resumes the loop with the count
    it had. *)
Theorem purchases_survive_session_restarts (fuel : nat) (a : string)
  (mx : Z) (w : World) (r : Res unit) (w' : World) :
  launch_agent fuel a mx w = (r, w') ->
  (exists evs,
     trace w' = (trace w ++ evs)%list /\
     purchases w' = Z.of_nat (info_count evs)) /\
  (forall f w0 e w1,
     purchases w0 < mx ->
     (BrowserAgent ;; login_workflow) w0 = (Raise e, w1) ->
     let w2 := set_trace (trace w1 ++ [Print WarnLogin]) w1 in
     launch_loop (S f) a mx w0 = launch_loop f a mx w2 /\
     purchases w2 = purchases w0).
Proof.
  intros H. split.
  - unfold launch_agent in H. unfold bind at 1 in H.
    apply steps_launch_loop in H as [_ _ (evs & T & P & _)].
    exists evs. split; [exact T|]. rewrite P. cbn. lia.
  - intros f w0 e w1 Hlt Hs. split.
    + by apply (launch_loop_restart f a mx w0 e w1).
    + cbn. by apply (failed_start_keeps_purchases w0 e).
Qed.

Lemma purchases_survive_session_restarts_witness :
  let rw := launch_agent 6 "A320" 2 flaky_login_world in
  launch_agent 6 "A320" 2 flaky_login_world = (rw.1, rw.2) /\
  rw.1 = Ok tt /\
  session_events (trace rw.2) = [NewSession; NewSession] /\
  purchases rw.2 = 2 /\
  exists evs,
    trace rw.2 = (trace flaky_login_world ++ evs)%list /\
    purchases rw.2 = Z.of_nat (info_count evs).
Proof.
  intros rw. split; [apply surjective_pairing|].
  split; [reflexivity|]. split; [reflexivity|]. split; [reflexivity|].
  apply (purchases_survive_session_restarts 6 "A320" 2 flaky_login_world
           rw.1 rw.2).
  apply surjective_pairing.
Defined.

(** ** One pass of a worker *)

Lemma get_lease_page_absent a w r w' :
  available_airframes (site_options (site w)) !! a = None ->
  get_lease_page a w = (r, w') ->
  forall t, r <> Ok (Some t).
Proof.
  intros Ha H t ->. unfold get_lease_page, apply_airframe_filter in H.
  unfold read_options in H. unfold bind at 1 2 3 in H.
  destruct (tick w) as [[[]|e|] w0] eqn:E; [|done..].
  assert (Hs : site w0 = site w) by (by destruct (steps_tick _ _ _ E)).
  cbn [get_site bind ret] in H. rewrite Hs, Ha in H.
  discriminate H.
Qed.

(** The link of the [r]-th data row of the page shown is the link at
    [r - 1] among the links of the table. *)
Lemma table_links_row (b : Browser) (r : Z) :
  0 < r <= Z.of_nat (length (table_rows b)) ->
  py_index (table_links b) (r - 1) = Ok (RowLink (r - 1)).
Proof.
  intros Hr. replace (r - 1) with (Z.of_nat (Z.to_nat (r - 1))) at 1 by lia.
  apply py_index_nat. unfold table_links.
  rewrite lookup_app_l by (rewrite length_map, length_seq; lia).
  rewrite list_lookup_fmap.
  rewrite (proj2 (lookup_seq 0 (length (table_rows b)) (Z.to_nat (r - 1))
                    (Z.to_nat (r - 1))) ltac:(lia)).
  cbn. do 2 f_equal. lia.
Qed.

Lemma purchase_current_ok r w :
  faults w = [] ->
  0 < r <= Z.of_nat (length (table_rows (browser w))) ->
  purchase_aircraft (-1) r w =
    (Ok tt,
     set_browser {| selected := None; shown := site_unfiltered (site w);
                    cur := 0%nat |}
       (set_trace
          (trace w ++ [CallPurchase (-1) r; Click (RowLink (r - 1));
                       Print QuoteTable; Click ChkPrepay; Click BtnGetQuote;
                       GotoLeases]) w)).
Proof.
  intros F Hr.
  unfold purchase_aircraft, goto_leases, wait_until, bind, tick, get_site,
    get_browser, lift, ret, emit, modify_browser.
  cbn. rewrite F. cbn. rewrite (table_links_row _ r Hr). cbn.
  unfold wait_until, tick. cbn.
  repeat (rewrite F; cbn). by rewrite <- !app_assoc.
Qed.

Lemma get_lease_page_ok a v w :
  faults w = [] ->
  available_airframes (site_options (site w)) !! a = Some v ->
  get_lease_page a w =
    (Ok (Some (get_table (default [] (site_listing (site w) v !! 0%nat)))),
     set_browser {| selected := Some v; shown := site_listing (site w) v;
                    cur := 0%nat |}
       (set_trace (trace w ++ [SelectByValue v; Click BtnApplyFilter]) w)).
Proof.
  intros F Ha. unfold get_lease_page.
  rewrite (bind_eval _ _ _ _ _ (apply_airframe_filter_present a v w Ha F)).
  set (w2 := set_browser _ _).
  by rewrite (bind_eval _ _ w2 _ w2 (page_source_ok w2 F)).
Qed.

(** With the airframe offered, a row on the first page of its listing and
    no faults, the pass purchases the first row. *)
Lemma agent_pass_ok a v w :
  faults w = [] ->
  available_airframes (site_options (site w)) !! a = Some v ->
  first_page_table (site w) v <> [] ->
  exists w' evs,
    agent_pass a w = (Ok tt, w') /\
    faults w' = [] /\ site w' = site w /\
    trace w' = (trace w ++ evs)%list /\
    purchase_calls evs = [(-1, 1)] /\
    row_clicks evs = [0] /\
    purchases w' = purchases w + 1.
Proof.
  intros F Ha Hne. unfold agent_pass.
  rewrite (bind_eval _ _ _ _ _ (goto_leases_ok w F)).
  set (w1 := set_browser _ _).
  rewrite (bind_eval _ _ _ _ _ (get_lease_page_ok a v w1 F Ha)).
  set (w2 := set_browser _ _).
  assert (Hr : 0 < 1 <= Z.of_nat (length (table_rows (browser w2)))).
  { change (table_rows (browser w2)) with (first_page_table (site w) v).
    destruct (first_page_table (site w) v); [done | simpl; lia]. }
  rewrite (bind_eval _ _ w2 tt _ (purchase_current_ok 1 w2 F Hr)).
  eexists _, _. split; [reflexivity|]. cbn.
  split; [exact F|]. split; [done|]. split.
  - rewrite <- !app_assoc. reflexivity.
  - done.
Qed.

(** The three ways a pass can go. *)
Lemma agent_pass_cases a w r w' :
  agent_pass a w = (r, w') ->
  exists evs,
    trace w' = (trace w ++ evs)%list /\
    ((purchase_calls evs = [] /\ purchases w' = purchases w) \/
     (purchase_calls evs = [(-1, 1)] /\ r = Ok tt /\
      purchases w' = purchases w + 1) \/
     (purchase_calls evs = [(-1, 1)] /\ r <> Ok tt /\
      purchases w' = purchases w)) /\
    (available_airframes (site_options (site w)) !! a = None ->
     purchase_calls evs = [] /\ purchases w' = purchases w).
Proof.
  unfold agent_pass. unfold bind at 1.
  destruct (goto_leases w) as [r1 w1] eqn:E1.
  destruct (steps_goto_leases _ _ _ E1) as [S1 _ _ P1 _ _ (evs1 & T1 & U1)].
  pose proof (ui_events_no_calls _ U1) as C1.
  destruct r1 as [[]|e|].
  2,3: intros [= <- <-]; exists evs1; split; [done|]; split; auto.
  unfold bind at 1.
  destruct (get_lease_page a w1) as [r2 w2] eqn:E2.
  destruct (steps_get_lease_page a _ _ _ E2)
    as [S2 _ _ P2 _ _ (evs2 & T2 & U2)].
  pose proof (ui_events_no_calls _ U2) as C2.
  assert (C12 : purchase_calls (evs1 ++ evs2) = [])
    by (by rewrite purchase_calls_app, C1, C2).
  destruct r2 as [[t|]|e|].
  2,3,4: intros [= <- <-]; exists (evs1 ++ evs2)%list;
         (split; [by rewrite T2, T1, <- app_assoc|]);
         split; [left|]; (split; [done | congruence]).
  change (purchase_and_count w2 = (r, w') -> ?G) with
    (purchase_and_count w2 = (r, w') -> G).
  intros H.
  change (purchase_and_count w2 = (r, w')) in H.
  apply purchase_and_count_cases in H as (_ & _ & evs3 & T3 & C3 & H).
  exists (evs1 ++ evs2 ++ evs3)%list.
  split; [by rewrite T3, T2, T1, <- !app_assoc|].
  rewrite !purchase_calls_app, C1, C2, C3. cbn [app]. split.
  - destruct H as [(-> & _ & P3) | (Hr & _ & P3)].
    + right. left. split; [done|]. split; [done|]. congruence.
    + right. right. split; [done|]. split; [done|]. congruence.
  - intros Ha. exfalso.
    eapply (get_lease_page_absent a w1); [by rewrite S1 | exact E2 | done].
Qed.

Lemma loops_stop_at_quota a mx fuel w :
  mx <= purchases w ->
  agent_loop (S fuel) a mx w = (Ok tt, w) /\
  launch_loop (S fuel) a mx w = (Ok tt, w).
Proof.
  intros H. cbn [agent_loop launch_loop]. unfold bind, get_purchases.
  rewrite (proj2 (Z.ltb_ge _ _) H). done.
Qed.

(** With the airframe offered, a row on the first page of its listing and
    no faults, the inner loop buys what is missing and returns, given fuel
    for the passes and the last test. *)
Lemma agent_loop_completes a v mx (k : nat) :
  forall w fuel,
    faults w = [] ->
    available_airframes (site_options (site w)) !! a = Some v ->
    first_page_table (site w) v <> [] ->
    purchases w = mx - Z.of_nat k ->
    (k < fuel)%nat ->
    exists w',
      agent_loop fuel a mx w = (Ok tt, w') /\
      purchases w' = mx /\ faults w' = [] /\ site w' = site w.
Proof.
  induction k as [|k IH]; intros w fuel F Ha Hne Hp Hf;
    (destruct fuel as [|fuel]; [lia|]).
  - exists w. split; [|split; [lia | done]].
    apply loops_stop_at_quota. lia.
  - destruct (agent_pass_ok a v w F Ha Hne)
      as (w1 & evs & H1 & F1 & S1 & _ & _ & _ & P1).
    destruct (IH w1 fuel F1) as (w' & H' & P' & F' & S');
      [by rewrite S1 | by rewrite S1 | lia | lia |].
    exists w'. split; [|split; [done | split; [done | congruence]]].
    cbn [agent_loop]. unfold bind at 1, get_purchases.
    rewrite (proj2 (Z.ltb_lt (purchases w) mx)) by lia.
    unfold bind at 1, try_except. by rewrite H1.
Qed.

Lemma launch_agent_completes a v (n : nat) w :
  faults w = [] ->
  available_airframes (site_options (site w)) !! a = Some v ->
  first_page_table (site w) v <> [] ->
  exists w',
    launch_agent (S (S n)) a (Z.of_nat n) w = (Ok tt, w') /\
    purchases w' = Z.of_nat n.
Proof.
  intros F Ha Hne. unfold launch_agent. unfold bind at 1.
  set (w0 := set_purchases 0 w).
  destruct n as [|n].
  { exists w0. split; [|done]. apply loops_stop_at_quota. cbn. lia. }
  cbn [launch_loop]. unfold bind at 1, get_purchases.
  change (purchases w0) with 0.
  rewrite (proj2 (Z.ltb_lt 0 (Z.of_nat (S n)))) by lia.
  assert (Hs : exists w1,
             (BrowserAgent ;; login_workflow) w0 = (Ok tt, w1) /\
             faults w1 = [] /\ site w1 = site w /\ purchases w1 = 0).
  { eexists. split.
    - unfold BrowserAgent, login_workflow, goto_leases, bind, tick,
        emit, modify_browser, get_site, ret. unfold w0.
      cbn. repeat (rewrite F; cbn). reflexivity.
    - cbn. by rewrite F. }
  destruct Hs as (w1 & H1 & F1 & S1 & P1).
  destruct (agent_loop_completes a v (Z.of_nat (S n)) (S n) w1 (S (S n)) F1)
    as (w' & H' & P' & F' & S'); [by rewrite S1 | by rewrite S1 | lia | lia |].
  exists w'. split; [|done].
  unfold bind at 1, try_except.
  assert (H2 : (BrowserAgent ;; login_workflow ;;
                agent_loop (S (S n)) a (Z.of_nat (S n))) w0 = (Ok tt, w')).
  { unfold bind at 1. unfold bind at 1 in H1.
    destruct (BrowserAgent w0) as [[[]|e|] wa]; [|done..].
    unfold bind at 1. by rewrite H1. }
  rewrite H2. apply loops_stop_at_quota. lia.
Qed.

(** * Monitor mode: errors reach the supervisor *)

#[export] Instance trace_ext_preorder : PreOrder trace_ext.
Proof.
  split.
  - intros w. exists []. by rewrite app_nil_r.
  - intros a b c [e1 T1] [e2 T2]. exists (e1 ++ e2)%list.
    by rewrite T2, T1, <- app_assoc.
Qed.

Lemma driver_step_trace_ext w w' : driver_step w w' -> trace_ext w w'.
Proof. intros [_ _ _ _ _ _ (evs & T & _)]. by exists evs. Qed.

Lemma steps_driver_trace_ext {A} (m : M A) :
  steps driver_step m -> steps trace_ext m.
Proof. apply steps_weaken, driver_step_trace_ext. Qed.

Lemma steps_ext_emit e : steps trace_ext (emit e).
Proof. intros w r w' [= <- <-]. by exists [e]. Qed.

Lemma steps_ext_before_deadline : steps trace_ext before_deadline.
Proof.
  intros w r w' H. unfold before_deadline in H.
  destruct (clock w); injection H as <- <-; exists [];
    by rewrite app_nil_r.
Qed.

Lemma steps_ext_count_getitem k : steps trace_ext (count_getitem k).
Proof.
  intros w r w' H. unfold count_getitem in H.
  destruct (getitem (airframe_count w) k). injection H as <- <-.
  exists []. by rewrite app_nil_r.
Qed.

Lemma steps_ext_count_incr k : steps trace_ext (count_incr k).
Proof.
  intros w r w' H. apply count_incr_trace in H as [T _].
  exists []. by rewrite app_nil_r.
Qed.

Lemma steps_ext_dump_counts : steps trace_ext dump_counts.
Proof. intros w r w' [= <- <-]. by eexists. Qed.

Lemma steps_ext_load_counts : steps trace_ext load_counts.
Proof. intros w r w' [= <- <-]. exists []. by rewrite app_nil_r. Qed.

Lemma steps_ext_purchase_aircraft p r : steps trace_ext (purchase_aircraft p r).
Proof.
  intros w res w' H.
  apply purchase_aircraft_calls in H as (_ & _ & _ & evs & T & _).
  by eexists.
Qed.

#[export] Hint Resolve steps_driver_trace_ext | 5 : steps.
#[export] Hint Resolve steps_ext_emit steps_ext_before_deadline
  steps_ext_count_getitem steps_ext_count_incr steps_ext_dump_counts
  steps_ext_load_counts steps_ext_purchase_aircraft : steps.

Lemma steps_ext_new_agent : steps trace_ext BrowserAgent.
Proof. unfold BrowserAgent. steps_tac. Qed.

Lemma steps_ext_get_spreadsheet : steps trace_ext get_spreadsheet.
Proof. unfold get_spreadsheet. steps_tac. Qed.
#[export] Hint Resolve steps_ext_new_agent steps_ext_get_spreadsheet : steps.

Lemma steps_ext_purchase_all a df : steps trace_ext (purchase_all a df).
Proof. induction df as [|l df IH]; simpl; steps_tac. Qed.
#[export] Hint Resolve steps_ext_purchase_all : steps.

Lemma steps_ext_acquire sort fuel row df :
  steps trace_ext (acquire sort fuel row df).
Proof.
  revert df. induction fuel as [|fuel IH]; intros df; simpl; steps_tac.
Qed.
#[export] Hint Resolve steps_ext_acquire : steps.

Lemma steps_ext_rule_pass sort fuel row :
  steps trace_ext (rule_pass sort fuel row).
Proof. unfold rule_pass. steps_tac. Qed.
#[export] Hint Resolve steps_ext_rule_pass : steps.

Lemma steps_ext_for_rules sort fuel rows :
  steps trace_ext (for_rules sort fuel rows).
Proof. induction rows as [|row rows IH]; simpl; steps_tac. Qed.
#[export] Hint Resolve steps_ext_for_rules : steps.

Lemma steps_ext_sheets_loop sort fuel rows :
  steps trace_ext (sheets_loop sort fuel rows).
Proof. induction fuel as [|fuel IH]; simpl; steps_tac. Qed.
#[export] Hint Resolve steps_ext_sheets_loop : steps.

Lemma steps_ext_refresh_loop sort fuel :
  steps trace_ext (refresh_loop sort fuel).
Proof.
  induction fuel as [|fuel IH]; simpl; unfold SheetsHandler; steps_tac.
Qed.
#[export] Hint Resolve steps_ext_refresh_loop : steps.

Lemma steps_ext_session sort fuel : steps trace_ext (session sort fuel).
Proof. unfold session. steps_tac. Qed.
#[export] Hint Resolve steps_ext_session : steps.

Lemma steps_ext_main_loop sort fuel : steps trace_ext (main_loop sort fuel).
Proof. induction fuel as [|fuel IH]; simpl; steps_tac. Qed.

Lemma ui_events_no_session evs :
  forallb is_ui_event evs = true -> session_events evs = [].
Proof.
  induction evs as [|e evs IH]; [done|]. simpl.
  intros [He Hevs]%andb_prop. unfold session_events in *. cbn [List.filter].
  destruct e as [| | | | | | |m|]; try discriminate He; cbn; auto.
  destruct m; try discriminate He; cbn; auto.
Qed.

(** A pass over a rule whose collected table fails the integer coercion
    raises before anything is purchased or counted. *)
Lemma rule_pass_malformed sort fuel row v e w :
  faults w = [] ->
  available_airframes (site_options (site w)) !! aircraft_type row = Some v ->
  site_listing (site w) v <> [] ->
  build_table_index (map get_table (site_listing (site w) v)) = Raise e ->
  exists w',
    rule_pass sort fuel row w = (Raise e, w') /\ driver_step w w'.
Proof.
  intros F Ha Hne Hb.
  assert (Hst : steps driver_step
                  (goto_leases ;; get_leases (aircraft_type row)))
    by steps_tac.
  unfold rule_pass.
  rewrite (bind_eval _ _ _ _ _ (goto_leases_ok w F)).
  set (w1 := set_browser _ _).
  destruct (get_leases_ok (aircraft_type row) v w1 F Ha Hne)
    as (w2 & evs & Hg & _).
  exists w2. split.
  - rewrite (bind_eval _ _ _ _ _ Hg).
    change (site w1) with (site w).
    destruct (site_listing (site w) v) as [|d ds]; [done|].
    cbn [map] in *. unfold lift. by rewrite Hb.
  - apply (Hst w (Ok (Some (map get_table (site_listing (site w1) v))))).
    by rewrite (bind_eval _ _ _ _ _ (goto_leases_ok w F)).
Qed.

Lemma for_rules_raise sort fuel row rows e w w' :
  rule_pass sort fuel row w = (Raise e, w') ->
  for_rules sort fuel (row :: rows) w = (Raise e, w').
Proof. intros H. cbn [for_rules]. by apply bind_raise. Qed.

Lemma sheets_loop_raise sort fuel rows clk e w w' :
  clock w = true :: clk ->
  for_rules sort fuel rows (set_clock clk w) = (Raise e, w') ->
  sheets_loop sort (S fuel) rows w = (Raise e, w').
Proof.
  intros Hc H. cbn [sheets_loop]. unfold bind at 1, before_deadline.
  rewrite Hc. by apply bind_raise.
Qed.

Lemma refresh_loop_raise sort fuel clk e w w' :
  clock w = true :: clk ->
  faults w = [] ->
  sheets_loop sort fuel (site_sheet (site w)) (set_clock clk w)
    = (Raise e, w') ->
  refresh_loop sort (S fuel) w = (Raise e, w').
Proof.
  intros Hc F H. cbn [refresh_loop]. unfold bind at 1, before_deadline.
  rewrite Hc.
  unfold SheetsHandler.
  rewrite (bind_eval _ _ _ _ _ (tick_ok (set_clock clk w) F)).
  unfold get_spreadsheet.
  rewrite (bind_eval (tick ;; _) _ (set_clock clk w)
             (site_sheet (site w)) (set_clock clk w))
    by (by rewrite (bind_eval _ _ _ _ _ (tick_ok (set_clock clk w) F))).
  by apply bind_raise.
Qed.

Lemma start_ok w :
  faults w = [] ->
  (BrowserAgent ;; login_workflow) w = (Ok tt, after_start w).
Proof.
  intros F.
  unfold BrowserAgent, login_workflow, goto_leases, bind, tick, emit,
    modify_browser, get_site, ret, after_start.
  cbn. repeat (rewrite F; cbn). by rewrite <- !app_assoc.
Qed.

Lemma session_after_start sort fuel w :
  faults w = [] ->
  session sort fuel w = refresh_loop sort fuel (after_start w).
Proof.
  intros F. unfold session. pose proof (start_ok w F) as H.
  unfold bind at 1. unfold bind at 1 in H.
  destruct (BrowserAgent w) as [[[]|e|] w0]; [|done..].
  unfold bind at 1. by rewrite H.
Qed.

Lemma main_loop_catch sort fuel e w w' :
  session sort fuel w = (Raise e, w') ->
  main_loop sort (S fuel) w
  = main_loop sort fuel (set_trace (trace w' ++ [Print (ErrorMsg e)]) w').
Proof.
  intros H. cbn [main_loop]. unfold bind at 1, try_except. by rewrite H.
Qed.

(** An iteration of the supervisor starts by constructing a session. *)
Lemma main_loop_starts_session sort fuel w r w' :
  faults w = [] ->
  main_loop sort (S fuel) w = (r, w') ->
  exists evs, trace w' = (trace w ++ NewSession :: evs)%list.
Proof.
  intros F H. cbn [main_loop] in H.
  assert (Hst : steps trace_ext
            (try_except (refresh_loop sort fuel)
               (fun e => emit (Print (ErrorMsg e))) ;;
             main_loop sort fuel)).
  { steps_tac. apply steps_ext_main_loop. }
  assert (Heq : (try_except (session sort fuel)
                   (fun e => emit (Print (ErrorMsg e))) ;;
                 main_loop sort fuel) w
              = (try_except (refresh_loop sort fuel)
                   (fun e => emit (Print (ErrorMsg e))) ;;
                 main_loop sort fuel) (after_start w)).
  { unfold bind, try_except. by rewrite (session_after_start _ _ _ F). }
  rewrite Heq in H. apply Hst in H as [evs T].
  exists ([Login; GotoLeases] ++ evs)%list. rewrite T. cbn.
  by rewrite <- !app_assoc.
Qed.


(** * Further properties of the code *)

(** ** build_table_index *)

Lemma astype_int_raises rows e :
  Forall (fun x => hours_in_range x.2.2) rows ->
  astype_int rows = Raise e -> e = ValueError.
Proof.
  induction 1 as [|[p [j r]] rows Hr _ IH]; cbn [astype_int]; [done|].
  unfold to_int64. destruct (raw_hours r) as [z|s0] eqn:E;
    [|by intros [= <-]].
  rewrite (Hr z E).
  destruct (astype_int rows); [done | | done].
  intros [= <-]. by apply IH.
Qed.

Lemma astype_int_fuel rows : astype_int rows <> OutOfFuel.
Proof.
  induction rows as [|[p [j r]] rows IH]; cbn [astype_int]; [done|].
  destruct (to_int64 (raw_hours r)) eqn:E; [| done |].
  - by destruct (astype_int rows).
  - unfold to_int64 in E. destruct (raw_hours r); [|done].
    by destruct (in_int64 z).
Qed.

Lemma Forall_tagged (P : RawRow -> Prop) (g : nat -> nat)
  (dfs : list PageTable) :
  Forall (Forall P) dfs ->
  Forall (fun x => P x.2.2)
    (concat (imap (fun i t => imap (fun j r => (g i, (j, r))) t) dfs)).
Proof.
  revert g. induction dfs as [|t dfs IH]; intros g H; [constructor|].
  apply Forall_cons in H as [Ht H]. cbn [imap concat]. apply Forall_app.
  split.
  - apply Forall_forall. intros x Hx.
    apply elem_of_lookup_imap in Hx as (j & r & -> & Hj). cbn.
    rewrite Forall_forall in Ht. apply Ht.
    eapply list_elem_of_lookup_2. exact Hj.
  - apply (IH (g ∘ S)). exact H.
Qed.

(** X1: [build_table_index] on frames whose integer cells are in the
    range of [int64].  It returns exactly when it is given at least one
    frame and every hours cell of every frame is an integer, and then it
    returns the tagged rows of all frames; in every other case (no frame,
    or one cell that is no integer) it raises [ValueError]: there is no
    partial table. *)
Theorem build_table_index_all_or_nothing (dfs : list PageTable) :
  Forall (Forall hours_in_range) dfs ->
  (build_table_index dfs = Ok (tagged_concat dfs) <->
   dfs <> [] /\ Forall (Forall integer_hours) dfs) /\
  (build_table_index dfs = Ok (tagged_concat dfs) \/
   build_table_index dfs = Raise ValueError).
Proof.
  intros Hrange. split.
  - split.
    + intros H. split.
      * intros ->. discriminate H.
      * apply build_table_index_Ok in H as [_ H].
        eapply Forall_impl; [exact H|]. intros t Ht.
        eapply Forall_impl; [exact Ht|]. intros r (z & Hz & _). by exists z.
    + intros [Hne Hall]. apply build_table_index_numeric; [done|].
      rewrite Forall_forall in Hall, Hrange. apply Forall_forall.
      intros t Ht. specialize (Hall t Ht). specialize (Hrange t Ht).
      rewrite Forall_forall in Hall, Hrange. apply Forall_forall.
      intros r Hr. destruct (Hall r Hr) as [z Hz]. exists z.
      split; [exact Hz | exact (Hrange r Hr z Hz)].
  - destruct (build_table_index dfs) as [ls|e|] eqn:E.
    + left. by apply build_table_index_Ok in E as [-> _].
    + right. unfold build_table_index in E. destruct dfs as [|t dfs];
        [congruence|].
      unfold newindex in E. rewrite (zip_newindex id) in E.
      apply astype_int_raises in E as ->; [done|].
      by apply (Forall_tagged hours_in_range id).
    + unfold build_table_index in E. destruct dfs; [done|].
      by apply astype_int_fuel in E.
Qed.

Lemma build_table_index_all_or_nothing_witness :
  Forall (Forall hours_in_range) [example_table] /\
  build_table_index [example_table] = Ok (tagged_concat [example_table]).
Proof.
  assert (H : Forall (Forall hours_in_range) [example_table]).
  { repeat constructor; intros z [= <-]; reflexivity. }
  split; [exact H|].
  apply (build_table_index_all_or_nothing [example_table] H).
  split; [discriminate|]. repeat constructor; by eexists.
Defined.

Lemma tagged_elem_of_gen (g : nat -> nat) (dfs : list PageTable) (x : Lease) :
  x ∈ concat (imap (fun p t => imap (fun j r => lease_of (g p) j r) t) dfs) <->
  exists p t j r,
    dfs !! p = Some t /\ t !! j = Some r /\ x = lease_of (g p) j r.
Proof.
  revert g. induction dfs as [|t0 dfs IH]; intros g.
  - cbn. split; [by intros ?%elem_of_nil | by intros (p & t & j & r & ? & _)].
  - cbn [imap concat]. rewrite elem_of_app.
    specialize (IH (g ∘ S)). unfold compose in IH. cbv beta in IH.
    rewrite IH, elem_of_lookup_imap. split.
    + intros [(j & r & -> & Hj) | (p & t & j & r & Hp & Hj & ->)].
      * by exists 0%nat, t0, j, r.
      * by exists (S p), t, j, r.
    + intros ([|p] & t & j & r & Hp & Hj & ->).
      * left. injection Hp as <-. by exists j, r.
      * right. by exists p, t, j, r.
Qed.

Lemma tagged_index_pairs_gen (g : nat -> nat) (dfs : list PageTable) :
  (forall a b, g a = g b -> a = b) ->
  NoDup (map index_pair
    (concat (imap (fun p t => imap (fun j r => lease_of (g p) j r) t) dfs))).
Proof.
  revert g. induction dfs as [|t0 dfs IH]; intros g Hg; [constructor|].
  cbn [imap concat]. rewrite map_app. apply NoDup_app.
  specialize (IH (g ∘ S)). unfold compose in IH. cbv beta in IH.
  split; [|split].
  - change (map ?f ?l) with (f <$> l). rewrite fmap_imap.
    apply NoDup_alt. intros i j x Hi Hj.
    rewrite list_lookup_imap in Hi, Hj.
    destruct (t0 !! i); [|done]. destruct (t0 !! j); [|done].
    unfold compose, index_pair, lease_of in Hi, Hj. cbn in Hi, Hj.
    congruence.
  - intros x Hx Hx'.
    change (map ?f ?l) with (f <$> l) in Hx, Hx'.
    apply list_elem_of_fmap in Hx as (l & -> & Hl).
    apply list_elem_of_fmap in Hx' as (l' & Heq & Hl').
    apply elem_of_lookup_imap in Hl as (j & r & -> & _).
    apply (tagged_elem_of_gen (fun p => g (S p))) in Hl'
      as (p & t & j' & r' & _ & _ & ->).
    cbn in Heq. injection Heq as Heq _. by apply Hg in Heq.
  - apply IH. intros a b H. apply Hg in H. congruence.
Qed.

(** X2: the frame [build_table_index] returns holds each row of each
    input frame, with the number of its frame and its position in it, and
    nothing else; no two of its rows have the same (pagenum, row) index
    pair. *)
Theorem build_table_index_rows_and_index (dfs : list PageTable)
  (ls : list Lease) :
  build_table_index dfs = Ok ls ->
  (forall x, x ∈ ls <->
     exists p t j r,
       dfs !! p = Some t /\ t !! j = Some r /\
       py_int (raw_hours r) = Ok (hours x) /\
       x = {| pagenum := p; rowidx := j; hours := hours x;
              rest := raw_rest r |}) /\
  NoDup (map index_pair ls).
Proof.
  intros H. apply build_table_index_Ok in H as [-> Hnum]. split.
  - intros x. unfold tagged_concat.
    rewrite (tagged_elem_of_gen id). split.
    + intros (p & t & j & r & Hp & Hj & ->). exists p, t, j, r.
      split; [done|]. split; [done|].
      rewrite Forall_forall in Hnum.
      specialize (Hnum t ltac:(eapply list_elem_of_lookup_2; exact Hp)).
      rewrite Forall_forall in Hnum.
      destruct (Hnum r ltac:(eapply list_elem_of_lookup_2; exact Hj))
        as [z [Hz _]].
      unfold lease_of. cbn. rewrite Hz. done.
    + intros (p & t & j & r & Hp & Hj & Hh & Hx). exists p, t, j, r.
      split; [done|]. split; [done|]. rewrite Hx. unfold lease_of.
      f_equal. destruct (raw_hours r); cbn in *; congruence.
  - apply (tagged_index_pairs_gen id). auto.
Qed.

Lemma build_table_index_rows_and_index_witness :
  build_table_index [example_table] = Ok example_df /\
  (forall x, x ∈ example_df <->
     exists p t j r,
       [example_table] !! p = Some t /\ t !! j = Some r /\
       py_int (raw_hours r) = Ok (hours x) /\
       x = {| pagenum := p; rowidx := j; hours := hours x;
              rest := raw_rest r |}) /\
  NoDup (map index_pair example_df).
Proof.
  split; [reflexivity|].
  apply (build_table_index_rows_and_index [example_table] example_df).
  reflexivity.
Defined.

(** ** BrowserAgent._goto_page and purchase_aircraft *)

Lemma bind_Ok_inv {A B} (m : M A) (k : A -> M B) w b w' :
  bind m k w = (Ok b, w') ->
  exists a w1, m w = (Ok a, w1) /\ k a w1 = (Ok b, w').
Proof.
  unfold bind. destruct (m w) as [[a|e|] w1]; [|done..].
  intros H. by exists a, w1.
Qed.

Lemma py_index_beyond {A} (l : list A) (i : nat) :
  (length l <= i)%nat -> py_index l (Z.of_nat i) = Raise IndexError.
Proof.
  intros H. unfold py_index. cbv zeta.
  rewrite (proj2 (Z.leb_le 0 (Z.of_nat i))) by lia.
  rewrite (proj2 (Z.ltb_ge (Z.of_nat i) _)) by lia.
  by rewrite andb_false_r.
Qed.

Lemma py_index_last {A} (l : list A) (x : A) :
  py_index (l ++ [x]) (-1) = Ok x.
Proof.
  unfold py_index. cbv zeta. rewrite length_app. cbn [length].
  change (0 <=? -1) with false. cbv iota.
  rewrite (proj2 (Z.leb_le 0 _)) by lia.
  rewrite (proj2 (Z.ltb_lt _ _)) by lia. cbn [andb].
  replace (Z.to_nat (Z.of_nat (length l + 1) + -1)) with (length l) by lia.
  by rewrite list_lookup_middle.
Qed.

(** [_goto_page] in a world without faults. *)
Lemma goto_page_eval (z : Z) (w : World) :
  faults w = [] ->
  _goto_page z w =
    match pager_targets (browser w) with
    | [] => (Ok tt, w)
    | _ :: _ =>
        match py_index (pager_targets (browser w)) (z - 1) with
        | Ok t => (Ok tt, on_page t w)
        | Raise e => (Raise e, w)
        | OutOfFuel => (OutOfFuel, w)
        end
    end.
Proof.
  intros F. unfold _goto_page.
  rewrite (bind_eval _ _ _ _ _ (navbar_links_ok w F)).
  destruct (pager_targets (browser w)) as [|t0 links]; [done|].
  unfold bind at 1, lift.
  destruct (py_index (t0 :: links) (z - 1)) as [t|e|]; [|done..].
  rewrite (bind_eval _ _ _ _ _ (click_page_ok t w F)).
  apply tick_ok. exact F.
Qed.

(** The links of the pager when page [cur b] of several is shown: one
    link less than there are pages; the links before the position of the
    current page lead to the page of their position, the later ones to
    the page after. *)
Lemma pager_links (b : Browser) (p : nat) :
  (cur b < length (shown b))%nat ->
  length (pager_targets b) = (length (shown b) - 1)%nat /\
  ((p < cur b)%nat -> pager_targets b !! p = Some p) /\
  ((cur b <= p)%nat -> (S p < length (shown b))%nat ->
   pager_targets b !! p = Some (S p)).
Proof.
  intros Hc. unfold pager_targets.
  rewrite (pager_targets_split _ _ Hc). split; [|split].
  - rewrite length_app, !length_seq. lia.
  - intros Hp. rewrite lookup_app_l by (rewrite length_seq; lia).
    by apply lookup_seq.
  - intros Hp Hn. rewrite lookup_app_r by (rewrite length_seq; lia).
    rewrite length_seq. apply lookup_seq. lia.
Qed.

(** [_goto_page] with an argument that meets a link, and with one past
    the links. *)
Lemma goto_page_link (w : World) (p t : nat) :
  faults w = [] ->
  pager_targets (browser w) !! p = Some t ->
  _goto_page (Z.of_nat p + 1) w = (Ok tt, on_page t w).
Proof.
  intros F Hp. rewrite (goto_page_eval _ w F), Z.add_simpl_r.
  rewrite (py_index_nat _ p t Hp).
  by destruct (pager_targets (browser w)).
Qed.

Lemma goto_page_beyond (w : World) (p : nat) :
  faults w = [] ->
  (0 < length (pager_targets (browser w)) <= p)%nat ->
  _goto_page (Z.of_nat p + 1) w = (Raise IndexError, w).
Proof.
  intros F Hp. rewrite (goto_page_eval _ w F), Z.add_simpl_r.
  rewrite py_index_beyond by lia.
  destruct (pager_targets (browser w)); [simpl in Hp; lia | done].
Qed.

(** X3: where [_goto_page] lands, by the position of the page shown, in
    a world without faults with the pager showing the current page as
    text and every other page as a link.  With one page there is no link
    and the call returns without a click whatever its argument.  With
    more pages, and page [c] shown, the argument [p + 1] reaches page [p]
    only when [p] is before [c]; for [p] at or after [c] it reaches page
    [p + 1]; and for the last page it raises [IndexError] and clicks
    nothing. *)
Theorem goto_page_by_position (w : World) (p : nat) :
  faults w = [] ->
  (cur (browser w) < length (shown (browser w)))%nat ->
  let n := length (shown (browser w)) in
  let c := cur (browser w) in
  (n = 1%nat -> forall z, _goto_page z w = (Ok tt, w)) /\
  ((p < c)%nat -> _goto_page (Z.of_nat p + 1) w = (Ok tt, on_page p w)) /\
  ((c <= p)%nat -> (S p < n)%nat ->
   _goto_page (Z.of_nat p + 1) w = (Ok tt, on_page (S p) w)) /\
  ((2 <= n)%nat -> (n <= S p)%nat ->
   _goto_page (Z.of_nat p + 1) w = (Raise IndexError, w)).
Proof.
  intros F Hc n c.
  destruct (pager_links (browser w) p Hc) as (Hlen & Hbefore & Hafter).
  split; [|split; [|split]].
  - intros Hn z. rewrite (goto_page_eval z w F).
    destruct (pager_targets (browser w)); [done|].
    fold n in Hlen. simpl in Hlen. lia.
  - intros Hp. apply goto_page_link; [exact F | by apply Hbefore].
  - intros Hp Hn. apply goto_page_link; [exact F | by apply Hafter].
  - intros Hn Hp. apply goto_page_beyond; [exact F|].
    rewrite Hlen. fold n. lia.
Qed.

Lemma goto_page_by_position_witness :
  faults collected_world = [] /\
  (cur (browser collected_world)
   < length (shown (browser collected_world)))%nat /\
  _goto_page 2 collected_world = (Ok tt, on_page 1 collected_world) /\
  _goto_page 3 collected_world = (Raise IndexError, collected_world).
Proof.
  split; [reflexivity|]. split; [simpl; lia|].
  destruct (goto_page_by_position collected_world 1)
    as (_ & H1 & _); [reflexivity | simpl; lia |].
  destruct (goto_page_by_position collected_world 2)
    as (_ & _ & _ & H2); [reflexivity | simpl; lia |].
  split; [apply H1; simpl; lia | apply H2; simpl; lia].
Defined.

(** [purchase_aircraft]: the entry marker, the way to the page, and then
    the purchase on the page reached. *)
Lemma purchase_aircraft_eval (z r : Z) (w : World) :
  purchase_aircraft z r w =
    match (if 0 <=? z then _goto_page z else ret tt)
            (set_trace (trace w ++ [CallPurchase z r]) w) with
    | (Ok _, w1) => purchase_on_page r w1
    | (Raise e, w1) => (Raise e, w1)
    | (OutOfFuel, w1) => (OutOfFuel, w1)
    end.
Proof.
  unfold purchase_aircraft. unfold bind at 1. cbn [emit].
  set (w0 := set_trace _ w). unfold bind at 1.
  by destruct ((if 0 <=? z then _goto_page z else ret tt) w0)
    as [[[]|e|] w1].
Qed.

(** On a page whose table has a row [r], in a world without faults: the
    link of the row is clicked, the quote is asked for, and the browser
    is back on the listing. *)
Lemma purchase_on_page_row (r : Z) (w : World) :
  faults w = [] ->
  0 < r <= Z.of_nat (length (table_rows (browser w))) ->
  purchase_on_page r w =
    (Ok tt,
     set_browser (listing_home (site w))
       (set_trace (trace w ++ purchase_events r) w)).
Proof.
  intros F Hr.
  unfold purchase_on_page, bind, tick, get_browser, lift.
  rewrite F. rewrite (table_links_row _ r Hr).
  unfold click_link, wait_quote, goto_leases, wait_until, bind, tick,
    get_site, ret, emit, modify_browser, purchase_events, listing_home.
  cbn. repeat (rewrite F; cbn). by rewrite <- !app_assoc.
Qed.

(** Without a row [r] on the page, in a world without faults, the lookup
    finds a link of the pager or none at all: no link of a row is
    clicked and the call raises. *)
Lemma purchase_on_page_no_row (r : Z) (w : World) :
  faults w = [] ->
  Z.of_nat (length (table_rows (browser w))) < r ->
  exists e evs,
    (purchase_on_page r w).1 = Raise e /\
    trace (purchase_on_page r w).2 = (trace w ++ evs)%list /\
    row_clicks evs = [].
Proof.
  intros F Hr.
  unfold purchase_on_page, bind, tick, get_browser, lift.
  rewrite F.
  destruct (py_index (table_links (browser w)) (r - 1)) as [c|e|] eqn:E.
  - assert (Hc : exists t, c = PageLink t).
    { unfold py_index in E.
      rewrite (proj2 (Z.leb_le 0 (r - 1))) in E by lia.
      destruct (_ && _); [|done].
      destruct (table_links (browser w) !! Z.to_nat (r - 1)) as [c'|] eqn:L;
        [|done].
      injection E as ->. unfold table_links in L.
      rewrite lookup_app_r in L by (rewrite length_map, length_seq; lia).
      rewrite list_lookup_fmap in L.
      destruct (pager_targets (browser w) !! _) as [t|]; [|done].
      injection L as <-. by exists t. }
    destruct Hc as [t ->].
    exists WebDriverException, [Click (PageLink t)].
    by cbn.
  - exists e, []. cbn. by rewrite app_nil_r.
  - exfalso. unfold py_index in E.
    destruct (_ && _); [|done]. by destruct (_ !! _).
Qed.

Lemma steps_purchase_on_page r : steps driver_step (purchase_on_page r).
Proof. unfold purchase_on_page. steps_tac. Qed.

Lemma page_clicks_app a b :
  page_clicks (a ++ b) = (page_clicks a ++ page_clicks b)%list.
Proof. apply omap_app. Qed.

(** A stretch of trace without clicks on the pager. *)
Lemma no_page_clicks evs :
  forallb (fun e => negb (is_page_click e)) evs = true -> page_clicks evs = [].
Proof.
  induction evs as [|e evs IH]; [done|]. cbn [forallb].
  intros [He H]%andb_prop. specialize (IH H). unfold page_clicks in *.
  destruct e as [| | | |[]| | | |]; cbn in He |- *; (done || exact IH).
Qed.

#[export] Instance emits_only_preorder P : PreOrder (emits_only P).
Proof.
  split.
  - intros w. split; [done|]. exists []. by rewrite app_nil_r.
  - intros a b c [S1 (e1 & T1 & U1)] [S2 (e2 & T2 & U2)].
    split; [congruence|].
    exists (e1 ++ e2)%list. rewrite T2, T1, <- app_assoc.
    split; [done|]. by rewrite forallb_app, U1, U2.
Qed.

Lemma steps_only_emit P e : P e = true -> steps (emits_only P) (emit e).
Proof.
  intros He w r w' [= <- <-]. split; [done|]. exists [e]. cbn.
  by rewrite He.
Qed.

Lemma steps_only_silent P {A} (m : M A) :
  (forall w r w', m w = (r, w') -> site w' = site w /\ trace w' = trace w) ->
  steps (emits_only P) m.
Proof.
  intros H w r w' E. destruct (H _ _ _ E) as [Hs Ht].
  split; [done|]. exists []. by rewrite app_nil_r.
Qed.

Lemma steps_only_tick P : steps (emits_only P) tick.
Proof.
  apply steps_only_silent. intros w r w'. unfold tick.
  by destruct (faults w) as [|[] l]; intros [= <- <-].
Qed.

Lemma steps_only_get_site P : steps (emits_only P) get_site.
Proof. apply steps_only_silent. by intros w r w' [= <- <-]. Qed.

Lemma steps_only_get_browser P : steps (emits_only P) get_browser.
Proof. apply steps_only_silent. by intros w r w' [= <- <-]. Qed.

Lemma steps_only_modify_browser P f : steps (emits_only P) (modify_browser f).
Proof. apply steps_only_silent. by intros w r w' [= <- <-]. Qed.

Ltac only_tac :=
  repeat first
    [ progress intros
    | progress cbv beta
    | match goal with |- PreOrder _ => exact _ end
    | apply steps_ret
    | apply steps_lift
    | apply steps_out_of_fuel
    | apply steps_raise
    | apply steps_only_tick
    | apply steps_only_get_site
    | apply steps_only_get_browser
    | apply steps_only_modify_browser
    | (apply steps_only_emit; reflexivity)
    | solve [eauto with steps]
    | apply steps_bind
    | apply steps_try_except
    | match goal with
      | |- steps _ (match ?x with _ => _ end) => destruct x
      end ].

Lemma steps_only_driver P {A} (m : M A) :
  (forall e, is_ui_event e = true -> P e = true) ->
  steps driver_step m -> steps (emits_only P) m.
Proof.
  intros HP. apply steps_weaken.
  intros w w' [Hs _ _ _ _ _ (evs & T & U)]. split; [done|].
  exists evs. split; [done|].
  rewrite forallb_forall in U. apply forallb_forall.
  intros e He. apply HP, U, He.
Qed.

(** What the lookup [links[rownum - 1]] can find: the link of a row of
    the table shown, at its own position when the index is not negative,
    or a link of the pager, which a non-negative index reaches only
    beyond the rows. *)
Lemma table_links_found (b : Browser) (i : Z) (c : Control) :
  py_index (table_links b) i = Ok c ->
  (exists j, c = RowLink j /\ 0 <= j < Z.of_nat (length (table_rows b)) /\
             (0 <= i -> j = i)) \/
  (exists t, c = PageLink t /\
             (0 <= i -> Z.of_nat (length (table_rows b)) <= i)).
Proof.
  unfold py_index. cbv zeta.
  set (n := Z.of_nat (length (table_links b))).
  set (k := if 0 <=? i then i else n + i).
  destruct (_ && _) eqn:Hk; [|done].
  apply andb_prop in Hk as [Hk1%Z.leb_le Hk2%Z.ltb_lt].
  destruct (table_links b !! Z.to_nat k) as [c'|] eqn:L; [|done].
  intros [= ->]. unfold table_links in L.
  assert (Hki : 0 <= i -> k = i).
  { intros Hi. subst k. by rewrite (proj2 (Z.leb_le 0 i)). }
  destruct (decide (Z.to_nat k < length (table_rows b))%nat) as [Hlt|Hge].
  - rewrite lookup_app_l in L by (rewrite length_map, length_seq; lia).
    rewrite list_lookup_fmap in L.
    rewrite (proj2 (lookup_seq 0 (length (table_rows b)) (Z.to_nat k)
                      (Z.to_nat k)) ltac:(lia)) in L.
    injection L as <-. left. exists (Z.of_nat (Z.to_nat k)).
    split; [done|]. split; [lia|]. intros Hi. rewrite (Hki Hi) in *. lia.
  - rewrite lookup_app_r in L by (rewrite length_map, length_seq; lia).
    rewrite list_lookup_fmap in L.
    destruct (pager_targets b !! _) as [t|]; [|done].
    injection L as <-. right. exists t. split; [done|].
    intros Hi. rewrite (Hki Hi) in *. lia.
Qed.

(** The events that are not a click on a link of the table. *)
Lemma steps_after_link (c : Control) :
  steps (emits_only (fun e => negb (is_page_click e) && negb (is_row_click e)))
    (wait_quote c ;; tick ;; emit (Print QuoteTable) ;; tick ;;
     emit (Click ChkPrepay) ;; tick ;; emit (Click BtnGetQuote) ;;
     wait_until ;; goto_leases).
Proof. unfold wait_quote, wait_until, goto_leases. only_tac. Qed.

(** A run of [purchase_aircraft] on the page it has reached, whatever the
    faults: nothing is clicked when the lookup of the table or of the
    link raises; otherwise the link found is clicked, and no other link
    of the table after it; the call returns only after the link of a
    row, with the rest of the purchase in the trace. *)
Lemma purchase_on_page_inv (r : Z) (w : World) (res : Res unit) (w' : World) :
  purchase_on_page r w = (res, w') ->
  site w' = site w /\
  ((exists e, res = Raise e /\ trace w' = trace w) \/
   (exists c evs,
      py_index (table_links (browser w)) (r - 1) = Ok c /\
      trace w' = (trace w ++ Click c :: evs)%list /\
      forallb (fun e => negb (is_page_click e) && negb (is_row_click e)) evs
        = true /\
      (res = Ok tt -> exists j, c = RowLink j))).
Proof.
  unfold purchase_on_page. unfold bind at 1.
  destruct (tick w) as [[[]|e|] w1] eqn:Et.
  - destruct (tick_keeps _ _ _ Et) as [Hb Hs].
    pose proof (tick_trace _ _ _ Et) as Ht.
    unfold bind at 1, get_browser. unfold bind at 1, lift. rewrite Hb.
    destruct (py_index (table_links (browser w)) (r - 1)) as [c|e|] eqn:E.
    + assert (Ec : click_link c w1 = (Ok tt, (click_link c w1).2))
        by reflexivity.
      assert (Hs2 : site (click_link c w1).2 = site w1) by reflexivity.
      assert (Ht2 : trace (click_link c w1).2 = (trace w1 ++ [Click c])%list)
        by reflexivity.
      rewrite (bind_eval _ _ _ _ _ Ec).
      revert Hs2 Ht2. generalize (click_link c w1).2. intros w2 Hs2 Ht2 H.
      destruct (steps_after_link c _ _ _ H) as [Hs3 (evs & T & U)].
      split; [by rewrite Hs3, Hs2|]. right. exists c, evs.
      split; [done|]. split; [|split; [done|]].
      * by rewrite T, Ht2, Ht, <- app_assoc.
      * intros ->. destruct c as [|t|j| |]; try by (cbn in H).
        all: try by eexists.
    + intros [= <- <-]. split; [done|]. left. by exists e.
    + exfalso. unfold py_index in E.
      destruct (_ && _); [|done]. by destruct (_ !! _).
  - intros [= <- <-]. destruct (tick_keeps _ _ _ Et) as [_ Hs].
    split; [done|]. left. exists e. split; [done|].
    exact (tick_trace _ _ _ Et).
  - exfalso. unfold tick in Et. by destruct (faults w) as [|[] l].
Qed.

(** The clicks on rows in a stretch of trace without clicks on links of
    the table. *)
Lemma no_table_clicks evs :
  forallb (fun e => negb (is_page_click e) && negb (is_row_click e)) evs
    = true ->
  page_clicks evs = [] /\ row_clicks evs = [].
Proof.
  induction evs as [|e evs IH]; [done|]. cbn [forallb].
  intros [He H]%andb_prop. destruct (IH H) as [IH1 IH2].
  unfold page_clicks, row_clicks in *.
  destruct e as [| | | |[]| | | |]; cbn in He |- *; done.
Qed.

(** X4: the guard [if pagenum >= 0] of [purchase_aircraft].  With a
    negative page argument and a row [r] in the table shown, no link of
    the pager is clicked, whatever happens in the run (without such a row
    the lookup [links[r - 1]] can itself fall on a link of the pager);
    the argument 0 passes the guard and, in a world
    without faults with more than one page, selects the last link of the
    pager: the last page, or the one before it when the last page is the
    one shown.  What follows the click depends on the table of that
    page: when it has a row [r], the row is bought and the call returns;
    when it has fewer rows, no link of a row is clicked and the call
    raises. *)
Theorem purchase_page_guard (z r : Z) (w : World) (res : Res unit)
  (w' : World) :
  purchase_aircraft z r w = (res, w') ->
  (z < 0 -> 0 < r <= Z.of_nat (length (table_rows (browser w))) ->
   exists evs, trace w' = (trace w ++ evs)%list /\ page_clicks evs = []) /\
  (z = 0 -> faults w = [] ->
   (cur (browser w) < length (shown (browser w)))%nat ->
   (2 <= length (shown (browser w)))%nat ->
   let n := length (shown (browser w)) in
   let t := if decide (cur (browser w) = n - 1)%nat
            then (n - 2)%nat else (n - 1)%nat in
   let rows := get_table (default [] (shown (browser w) !! t)) in
   exists evs,
     trace w' = (trace w ++ CallPurchase 0 r :: Click (PageLink t)
                   :: evs)%list /\
     (0 < r <= Z.of_nat (length rows) ->
      res = Ok tt /\ evs = purchase_events r) /\
     (Z.of_nat (length rows) < r ->
      (exists e, res = Raise e) /\ row_clicks evs = [])).
Proof.
  intros H. split.
  - intros Hz Hr.
    rewrite (purchase_aircraft_eval z r w) in H.
    rewrite (proj2 (Z.leb_gt 0 z)) in H by lia. cbn [ret] in H.
    destruct (purchase_on_page_inv _ _ _ _ H)
      as [_ [(e & _ & T)|(c & evs & L & T & U & _)]].
    + exists [CallPurchase z r]. by rewrite T.
    + cbn [browser set_trace] in L.
      rewrite (table_links_row _ r Hr) in L. injection L as <-.
      exists (CallPurchase z r :: Click (RowLink (r - 1)) :: evs).
      split; [rewrite T; cbn; by rewrite <- app_assoc|].
      cbn. by apply no_table_clicks.
  - intros -> F Hc Hn n t rows.
    rewrite (purchase_aircraft_eval 0 r w) in H. cbn [Z.leb Z.compare] in H.
    set (w0 := set_trace (trace w ++ [CallPurchase 0 r]) w) in H.
    assert (Hlinks : pager_targets (browser w0)
              = (seq 0 (cur (browser w))
                 ++ seq (S (cur (browser w))) (n - S (cur (browser w))))%list)
      by (apply pager_targets_split; exact Hc).
    assert (Hlast : exists l, pager_targets (browser w0) = (l ++ [t])%list).
    { rewrite Hlinks. subst t. destruct (decide _) as [E|E].
      - exists (seq 0 (n - 2)).
        replace (n - S (cur (browser w)))%nat with 0%nat by lia.
        rewrite E. cbn [seq]. rewrite app_nil_r.
        replace (n - 1)%nat with (n - 2 + 1)%nat at 1 by lia.
        by rewrite seq_app.
      - exists (seq 0 (cur (browser w))
                ++ seq (S (cur (browser w))) (n - 2 - cur (browser w)))%list.
        rewrite <- app_assoc. f_equal.
        replace (n - S (cur (browser w)))%nat
          with (n - 2 - cur (browser w) + 1)%nat by lia.
        rewrite seq_app. cbn [seq]. do 2 f_equal. lia. }
    destruct Hlast as [l Hl].
    rewrite (goto_page_eval 0 w0 F) in H. rewrite Hl in H.
    change (0 - 1) with (-1) in H. rewrite py_index_last in H.
    destruct (l ++ [t])%list eqn:El; [by destruct l|].
    assert (F1 : faults (on_page t w0) = []) by exact F.
    assert (T1 : trace (on_page t w0)
                 = (trace w ++ [CallPurchase 0 r; Click (PageLink t)])%list)
      by (cbn; by rewrite <- app_assoc).
    assert (R1 : table_rows (browser (on_page t w0)) = rows) by reflexivity.
    destruct (ds_trace _ _ (steps_purchase_on_page r _ _ _ H))
      as (evs & T & _).
    exists evs. split; [|split].
    + rewrite T, T1, <- app_assoc. reflexivity.
    + intros Hr. rewrite <- R1 in Hr.
      rewrite (purchase_on_page_row r _ F1 Hr) in H.
      injection H as <- <-. split; [done|].
      cbn [trace set_browser set_trace] in T.
      by apply app_inv_head in T.
    + intros Hr. rewrite <- R1 in Hr.
      destruct (purchase_on_page_no_row r _ F1 Hr) as (e & evs' & E1 & E2 & E3).
      rewrite H in E1, E2. cbn [fst snd] in E1, E2.
      split; [by exists e|].
      rewrite T in E2. apply app_inv_head in E2. by subst evs'.
Qed.

Lemma purchase_page_guard_witness :
  let rw := purchase_aircraft 0 1 collected_world in
  exists evs,
    trace rw.2 = (trace collected_world ++ CallPurchase 0 1
                    :: Click (PageLink 1) :: evs)%list /\
    (0 < 1 <= 3 -> rw.1 = Ok tt /\ evs = purchase_events 1) /\
    (3 < 1 -> (exists e, rw.1 = Raise e) /\ row_clicks evs = []).
Proof.
  intros rw.
  refine (proj2 (purchase_page_guard 0 1 collected_world rw.1 rw.2 _)
            eq_refl eq_refl _ _).
  - apply surjective_pairing.
  - simpl. lia.
  - simpl. lia.
Defined.

(** Where the loop of [get_leases] leaves the browser: on the last page
    it visited, with the same listing. *)
Lemma get_leases_loop_lands (pages : list Dom) (k : nat) :
  forall (i : nat) (tables : list PageTable) (w : World),
    faults w = [] ->
    shown (browser w) = pages ->
    cur (browser w) = i ->
    (i + k < length pages)%nat ->
    let w' := (get_leases_loop (seq i k) tables w).2 in
    browser w' = {| selected := selected (browser w); shown := pages;
                    cur := (i + k)%nat |} /\
    site w' = site w.
Proof.
  induction k as [|k IH]; intros i tables w F Hs Hc Hlt.
  - cbn. split; [|done]. rewrite Nat.add_0_r, <- Hs, <- Hc.
    by destruct (browser w).
  - destruct (lookup_lt_is_Some_2 pages (S i)) as [d Hd]; [lia|].
    cbn [seq get_leases_loop].
    set (w1 := set_trace (trace w ++ [Print (DebugIdx i)]) w).
    rewrite (bind_eval _ _ w tt w1) by reflexivity.
    rewrite (bind_eval _ _ w1 _ w1 (navbar_links_ok w1 F)).
    assert (Hnext : py_index (pager_targets (browser w1)) (Z.of_nat i)
                    = Ok (S i)).
    { rewrite <- Hc. apply (pager_link_next (browser w)). rewrite Hs, Hc. lia. }
    rewrite (bind_eval _ _ w1 (S i) w1) by (unfold lift; by rewrite Hnext).
    rewrite (bind_eval _ _ w1 tt _ (click_page_ok (S i) w1 F)).
    match goal with |- context [bind wait_until _ ?w2] => set (w2' := w2) end.
    rewrite (bind_eval _ _ w2' tt w2') by (apply tick_ok; exact F).
    rewrite (bind_eval _ _ w2' _ w2' (page_source_ok w2' F)).
    destruct (IH (S i)
                (tables ++ [get_table (default [] (shown (browser w2')
                                                   !! cur (browser w2')))])%list
                w2' F Hs eq_refl ltac:(lia)) as [Hb Hsite].
    split; [|exact Hsite]. rewrite Hb. cbn. f_equal. lia.
Qed.

(** In a world without faults [get_leases] leaves the browser on the last
    page of the filtered listing. *)
Lemma get_leases_lands (a v : string) (w : World) :
  faults w = [] ->
  available_airframes (site_options (site w)) !! a = Some v ->
  site_listing (site w) v <> [] ->
  let w' := (get_leases a w).2 in
  browser w' = {| selected := Some v; shown := site_listing (site w) v;
                  cur := (length (site_listing (site w) v) - 1)%nat |} /\
  site w' = site w.
Proof.
  intros F Ha Hne. unfold get_leases.
  rewrite (bind_eval _ _ _ _ _ (apply_airframe_filter_present a v w Ha F)).
  set (w1 := set_browser _ _).
  assert (F1 : faults w1 = []) by exact F.
  rewrite (bind_eval _ _ w1 _ w1 (page_source_ok w1 F1)).
  rewrite (bind_eval _ _ w1 _ w1 (navbar_links_ok w1 F1)).
  set (pages := site_listing (site w) v) in *.
  assert (Hs : shown (browser w1) = pages) by reflexivity.
  rewrite (pager_targets_first (browser w1)) by (done || by rewrite Hs).
  rewrite length_seq, Hs.
  assert (Hlen : (0 + (length pages - 1) < length pages)%nat)
    by (destruct pages; [done | simpl; lia]).
  match goal with
  | |- context [get_leases_loop ?idx ?tb] =>
      destruct (get_leases_loop_lands pages (length pages - 1) 0 tb w1
                  F1 Hs eq_refl Hlen) as [Hb Hsite];
      unfold bind;
      destruct (get_leases_loop idx tb w1) as [[ts|e|] w2]
  end; cbn in Hb, Hsite |- *; by rewrite Hb.
Qed.

(** X5: the first purchase after the collection, in a world without
    faults with the pager showing the current page as text.  [get_leases]
    leaves the browser on the last of the [n >= 2] pages it collected.
    For a row [r] that page [p] before the last has,
    [purchase_aircraft (p + 1) r] clicks the link to page [p] and then
    the link of the row; for a row of the last page the look-up
    [links[pagenum - 1]] is out of range: the call raises [IndexError]
    having clicked nothing. *)
Theorem first_purchase_after_collection (a v : string) (w : World)
  (p : nat) (r : Z) :
  faults w = [] ->
  available_airframes (site_options (site w)) !! a = Some v ->
  let pages := site_listing (site w) v in
  (2 <= length pages)%nat ->
  exists w1,
    get_leases a w = (Ok (Some (map get_table pages)), w1) /\
    ((S p < length pages)%nat ->
     0 < r <= Z.of_nat (length (get_table (default [] (pages !! p)))) ->
     exists w2,
       purchase_aircraft (Z.of_nat p + 1) r w1 = (Ok tt, w2) /\
       trace w2 = (trace w1 ++ CallPurchase (Z.of_nat p + 1) r
                     :: Click (PageLink p) :: purchase_events r)%list) /\
    (S p = length pages ->
     purchase_aircraft (Z.of_nat p + 1) r w1
     = (Raise IndexError,
        set_trace (trace w1 ++ [CallPurchase (Z.of_nat p + 1) r]) w1)).
Proof.
  intros F Ha pages Hn.
  assert (Hne : pages <> []) by (intros E; rewrite E in Hn; simpl in Hn; lia).
  destruct (get_leases_ok a v w F Ha Hne) as (w1 & evs & Hrun & F1 & _ & _).
  destruct (get_leases_lands a v w F Ha Hne) as [Hb _].
  rewrite Hrun in Hb. cbn [snd] in Hb. fold pages in Hb.
  exists w1. split; [exact Hrun|].
  set (w0 := set_trace (trace w1 ++ [CallPurchase (Z.of_nat p + 1) r]) w1).
  assert (F0 : faults w0 = []) by exact F1.
  assert (Hc0 : (cur (browser w0) < length (shown (browser w0)))%nat).
  { cbn. rewrite Hb. cbn. lia. }
  destruct (pager_links (browser w0) p Hc0) as (Hlen & Hbefore & _).
  split.
  - intros Hp Hr. rewrite (purchase_aircraft_eval _ r w1).
    rewrite (proj2 (Z.leb_le 0 (Z.of_nat p + 1))) by lia. fold w0.
    rewrite (goto_page_link w0 p p F0)
      by (apply Hbefore; cbn; rewrite Hb; cbn; lia).
    assert (Hr' : 0 < r
                  <= Z.of_nat (length (table_rows (browser (on_page p w0))))).
    { unfold table_rows, on_page, w0.
      cbn [browser set_browser set_trace shown cur]. by rewrite Hb. }
    rewrite (purchase_on_page_row r (on_page p w0) F0 Hr').
    eexists. split; [reflexivity|]. cbn. by rewrite <- !app_assoc.
  - intros Hp. rewrite (purchase_aircraft_eval _ r w1).
    rewrite (proj2 (Z.leb_le 0 (Z.of_nat p + 1))) by lia. fold w0.
    rewrite (goto_page_beyond w0 p F0); [done|].
    rewrite Hlen. cbn. rewrite Hb. cbn. lia.
Qed.

Lemma first_purchase_after_collection_witness :
  exists w1,
    get_leases "A320" three_page_world
    = (Ok (Some (map get_table (site_listing (site three_page_world) "17"))),
       w1) /\
    (exists w2,
       purchase_aircraft 1 3 w1 = (Ok tt, w2) /\
       trace w2 = (trace w1 ++ CallPurchase 1 3 :: Click (PageLink 0)
                     :: purchase_events 3)%list) /\
    purchase_aircraft 3 1 w1
    = (Raise IndexError, set_trace (trace w1 ++ [CallPurchase 3 1]) w1).
Proof.
  destruct (first_purchase_after_collection "A320" "17" three_page_world
              2 1 eq_refl eq_refl) as (w1 & Hrun & _ & Hlast);
    [simpl; lia|].
  destruct (first_purchase_after_collection "A320" "17" three_page_world
              0 3 eq_refl eq_refl) as (w1' & Hrun' & Hfirst & _);
    [simpl; lia|].
  assert (w1' = w1) by congruence. subst w1'.
  exists w1. split; [exact Hrun|]. split.
  - apply Hfirst; simpl; lia.
  - exact (Hlast eq_refl).
Defined.

(** ** Where a purchase leaves the browser *)

Lemma returns_in_bind (Q : World -> Prop) {A B} (m : M A) (k : A -> M B) :
  (forall a, returns_in Q (k a)) -> returns_in Q (bind m k).
Proof.
  intros Hk w b w' H. apply bind_Ok_inv in H as (a & w1 & _ & H).
  exact (Hk a _ _ _ H).
Qed.

Lemma goto_leases_returns :
  returns_in (fun w => browser w = listing_home (site w)) goto_leases.
Proof.
  intros w [] w' H. unfold goto_leases in H.
  apply bind_Ok_inv in H as ([] & w1 & _ & H).
  by injection H as <-.
Qed.

Lemma purchase_aircraft_lands (z r : Z) (w w' : World) :
  purchase_aircraft z r w = (Ok tt, w') ->
  browser w' = listing_home (site w).
Proof.
  intros H.
  assert (Hs : site w' = site w).
  { by destruct (purchase_aircraft_steps _ _ _ _ _ H). }
  assert (Hr : returns_in (fun w => browser w = listing_home (site w))
                 (purchase_aircraft z r)).
  { unfold purchase_aircraft.
    repeat match goal with
           | |- returns_in _ (bind _ _) => apply returns_in_bind; intros ?
           end.
    apply goto_leases_returns. }
  rewrite <- Hs. exact (Hr _ _ _ H).
Qed.

(** X6: whenever [purchase_aircraft] returns, with whatever arguments
    and faults, it leaves the browser as [goto_leases] leaves it: on the
    first page of the unfiltered listing with no airframe selected, not on
    the page of the filtered listing where the purchase was made. *)
Theorem purchase_returns_to_listing (z r : Z) (w w' : World) :
  purchase_aircraft z r w = (Ok tt, w') ->
  browser w' = listing_home (site w) /\
  selected (browser w') = None /\ cur (browser w') = 0%nat /\
  forall w0 w0', site w0 = site w -> goto_leases w0 = (Ok tt, w0') ->
    browser w' = browser w0'.
Proof.
  intros H. pose proof (purchase_aircraft_lands _ _ _ _ H) as Hb.
  split; [exact Hb|]. rewrite Hb.
  split; [done|]. split; [done|].
  intros w0 w0' Hs0 H0.
  assert (Hs1 : site w0' = site w0).
  { by destruct (steps_goto_leases _ _ _ H0). }
  apply goto_leases_returns in H0 as ->.
  by rewrite Hs1, Hs0.
Qed.

Lemma purchase_returns_to_listing_witness :
  let w' := (purchase_aircraft (-1) 1 collected_world).2 in
  purchase_aircraft (-1) 1 collected_world = (Ok tt, w') /\
  browser w' = listing_home (site collected_world) /\
  selected (browser w') = None /\ cur (browser w') = 0%nat.
Proof.
  intros w'.
  assert (H : purchase_aircraft (-1) 1 collected_world = (Ok tt, w'))
    by reflexivity.
  split; [exact H|].
  destruct (purchase_returns_to_listing _ _ _ _ H) as (H1 & H2 & H3 & _).
  split; [exact H1|]. split; [exact H2 | exact H3].
Defined.

(** X7: a purchase that follows a purchase, in a world without faults
    with the pager showing the current page as text.  The first purchase
    has left the browser on the first page of the unfiltered listing, of
    [n] pages.  With one page no link of the pager is clicked, and the
    row bought is row [r] of that page, when it has one; with more, the
    page argument [p + 1] of a row tagged with page [p] clicks the link
    to page [p + 1], the page after the one the row was collected from,
    and buys row [r] of that page of the unfiltered listing, when it has
    one; for [p + 1 >= n] the call raises [IndexError]. *)
Theorem purchase_after_purchase (z1 r1 : Z) (w w1 : World) (p : nat)
  (r : Z) :
  faults w = [] ->
  purchase_aircraft z1 r1 w = (Ok tt, w1) ->
  let n := length (site_unfiltered (site w)) in
  let call := CallPurchase (Z.of_nat p + 1) r in
  let rows q := get_table (default [] (site_unfiltered (site w) !! q)) in
  ((n <= 1)%nat -> 0 < r <= Z.of_nat (length (rows 0%nat)) ->
   exists w2,
     purchase_aircraft (Z.of_nat p + 1) r w1 = (Ok tt, w2) /\
     trace w2 = (trace w1 ++ call :: purchase_events r)%list) /\
  ((S p < n)%nat -> 0 < r <= Z.of_nat (length (rows (S p))) ->
   exists w2,
     purchase_aircraft (Z.of_nat p + 1) r w1 = (Ok tt, w2) /\
     trace w2 = (trace w1 ++ call :: Click (PageLink (S p))
                   :: purchase_events r)%list) /\
  ((2 <= n)%nat -> (n <= S p)%nat ->
   purchase_aircraft (Z.of_nat p + 1) r w1
   = (Raise IndexError, set_trace (trace w1 ++ [call]) w1)).
Proof.
  intros F H n call rows.
  pose proof (purchase_aircraft_lands _ _ _ _ H) as Hb.
  assert (F1 : faults w1 = []).
  { apply (ds_faults _ _ (purchase_aircraft_steps _ _ _ _ _ H)). exact F. }
  rewrite (purchase_aircraft_eval _ r w1).
  rewrite (proj2 (Z.leb_le 0 (Z.of_nat p + 1))) by lia.
  fold call. set (w0 := set_trace (trace w1 ++ [call]) w1).
  assert (F0 : faults w0 = []) by exact F1.
  assert (Hb0 : browser w0 = listing_home (site w)) by exact Hb.
  split; [|split].
  - intros Hn Hr. rewrite (goto_page_eval _ w0 F0).
    unfold pager_targets. rewrite Hb0. cbn [listing_home shown cur].
    fold n. replace (filter _ (seq 0 n)) with (@nil nat).
    + assert (Hr' : 0 < r <= Z.of_nat (length (table_rows (browser w0))))
        by (unfold table_rows; by rewrite Hb0).
      rewrite (purchase_on_page_row r w0 F0 Hr').
      eexists. split; [reflexivity|]. cbn. by rewrite <- !app_assoc.
    + destruct n as [|[|n']]; [done | done | lia].
  - intros Hp Hr.
    destruct (pager_links (browser w0) p) as (_ & _ & Hafter).
    { rewrite Hb0. cbn. fold n. lia. }
    rewrite (goto_page_link w0 p (S p) F0)
      by (apply Hafter; rewrite Hb0; cbn; fold n; lia).
    assert (Hr' : 0 < r <= Z.of_nat
                    (length (table_rows (browser (on_page (S p) w0))))).
    { unfold table_rows, on_page.
      cbn [browser set_browser set_trace shown cur]. by rewrite Hb0. }
    rewrite (purchase_on_page_row r (on_page (S p) w0) F0 Hr').
    eexists. split; [reflexivity|]. cbn. by rewrite <- !app_assoc.
  - intros Hn Hp.
    destruct (pager_links (browser w0) p) as (Hlen & _ & _).
    { rewrite Hb0. cbn. fold n. lia. }
    rewrite (goto_page_beyond w0 p F0); [done|].
    rewrite Hlen, Hb0. cbn. fold n. lia.
Qed.

Lemma purchase_after_purchase_witness :
  let w1 := (purchase_aircraft (-1) 1 collected_world).2 in
  purchase_aircraft (-1) 1 collected_world = (Ok tt, w1) /\
  exists w2,
    purchase_aircraft 1 1 w1 = (Ok tt, w2) /\
    trace w2 = (trace w1 ++ CallPurchase 1 1 :: Click (PageLink 1)
                  :: purchase_events 1)%list.
Proof.
  intros w1.
  assert (H : purchase_aircraft (-1) 1 collected_world = (Ok tt, w1))
    by reflexivity.
  split; [exact H|].
  destruct (purchase_after_purchase (-1) 1 collected_world w1 0 1
              eq_refl H) as (_ & Hafter & _).
  apply Hafter; simpl; lia.
Defined.

(** ** What get_leases and get_lease_page return *)

Lemma apply_airframe_filter_result a w present w1 :
  apply_airframe_filter a w = (Ok present, w1) ->
  (present = true <->
   is_Some (available_airframes (site_options (site w)) !! a)) /\
  (present = false -> browser w1 = browser w).
Proof.
  unfold apply_airframe_filter, read_options. intros E.
  apply bind_Ok_inv in E as (opts & w0 & E1 & E2).
  apply bind_Ok_inv in E1 as ([] & w00 & Et & E1).
  apply tick_keeps in Et as [Hb Hs].
  cbn in E1. injection E1 as <- <-. rewrite Hs in E2.
  destruct (available_airframes (site_options (site w)) !! a) as [v|] eqn:Ea.
  - apply bind_Ok_inv in E2 as ([] & w2 & _ & E2).
    apply bind_Ok_inv in E2 as ([] & w3 & _ & E2).
    apply bind_Ok_inv in E2 as ([] & w4 & _ & E2).
    injection E2 as <- <-. split; [|done]. split; [by eexists | done].
  - cbn in E2. injection E2 as <- <-. split; [|done].
    split; [done | by intros [? [=]]].
Qed.

(** What a run of the filter that found the airframe shows, whatever the
    faults it met: the first page of the listing of its option. *)
Lemma apply_airframe_filter_shows a w w1 :
  apply_airframe_filter a w = (Ok true, w1) ->
  exists v,
    available_airframes (site_options (site w)) !! a = Some v /\
    browser w1 = {| selected := Some v; shown := site_listing (site w) v;
                    cur := 0%nat |} /\
    site w1 = site w.
Proof.
  unfold apply_airframe_filter, read_options. intros E.
  apply bind_Ok_inv in E as (opts & w0 & E1 & E2).
  apply bind_Ok_inv in E1 as ([] & w00 & Et & E1).
  apply tick_keeps in Et as [Hb0 Hs0].
  cbn in E1. injection E1 as <- <-. rewrite Hs0 in E2.
  destruct (available_airframes (site_options (site w)) !! a) as [v|] eqn:Ea.
  2:{ cbn in E2. discriminate E2. }
  exists v. split; [done|].
  unfold select_by_value, click_apply_filter, wait_until in E2.
  apply bind_Ok_inv in E2 as ([] & w2 & E2a & E2).
  apply bind_Ok_inv in E2a as ([] & w2a & Et & E2a).
  apply tick_keeps in Et as [Hb2a Hs2a].
  cbn in E2a. injection E2a as <-.
  apply bind_Ok_inv in E2 as ([] & w3 & E2b & E2).
  apply bind_Ok_inv in E2b as ([] & w3a & Et & E2b).
  apply tick_keeps in Et as [Hb3a Hs3a].
  cbn in E2b. injection E2b as <-.
  apply bind_Ok_inv in E2 as ([] & w4 & Et & E2).
  apply tick_keeps in Et as [Hb4 Hs4].
  injection E2 as <-. rewrite Hb4, Hs4. cbn.
  rewrite Hb3a, Hs3a. cbn. by rewrite Hs2a, Hs0.
Qed.

(** What [get_lease_page] returns and where it leaves the browser,
    whatever the faults of the run: nothing when the airframe is not
    offered; otherwise the data rows of the first page of its listing,
    with that page shown. *)
Lemma get_lease_page_result a w ot w2 :
  get_lease_page a w = (Ok ot, w2) ->
  site w2 = site w /\
  match ot with
  | None => available_airframes (site_options (site w)) !! a = None
  | Some t =>
      exists v,
        available_airframes (site_options (site w)) !! a = Some v /\
        t = first_page_table (site w) v /\
        table_rows (browser w2) = first_page_table (site w) v
  end.
Proof.
  intros E.
  assert (Hs : site w2 = site w)
    by (by destruct (steps_get_lease_page a _ _ _ E)).
  split; [exact Hs|].
  unfold get_lease_page in E.
  apply bind_Ok_inv in E as (present & w1 & E1 & E2).
  destruct present.
  - apply apply_airframe_filter_shows in E1 as (v & Ha & Hb & Hs1).
    unfold page_source in E2.
    apply bind_Ok_inv in E2 as (dom & w3 & E2 & E3).
    apply bind_Ok_inv in E2 as ([] & w4 & Et & E2).
    apply tick_keeps in Et as [Hb4 Hs4].
    cbn in E2. injection E2 as <- <-. cbn in E3. injection E3 as <- <-.
    exists v. split; [done|].
    unfold table_rows, first_page_table. by rewrite Hb4, Hb.
  - injection E2 as <- <-.
    apply apply_airframe_filter_result in E1 as [Hp _].
    destruct (available_airframes (site_options (site w)) !! a) eqn:Ea;
      [|done].
    assert (Hf : false = true) by (apply Hp; by eexists). discriminate Hf.
Qed.

Lemma get_leases_loop_length idxs :
  forall tables w ts w',
    get_leases_loop idxs tables w = (Ok ts, w') ->
    length ts = (length tables + length idxs)%nat.
Proof.
  induction idxs as [|i idxs IH]; intros tables w ts w' H.
  - injection H as <- <-. simpl. lia.
  - cbn [get_leases_loop] in H.
    apply bind_Ok_inv in H as ([] & w1 & _ & H).
    apply bind_Ok_inv in H as (links & w2 & _ & H).
    apply bind_Ok_inv in H as (pg & w3 & _ & H).
    apply bind_Ok_inv in H as ([] & w4 & _ & H).
    apply bind_Ok_inv in H as ([] & w5 & _ & H).
    apply bind_Ok_inv in H as (dom & w6 & _ & H).
    apply IH in H. rewrite H, length_app. simpl. lia.
Qed.

(** X8: what [get_leases] and [get_lease_page] return, in every world
    and with any faults.  [None] is returned only when the airframe is
    not among the options, and then the browser is left as it was; a list
    is returned only when the airframe is offered, and the list is never
    empty: it holds the table of the first page at least. *)
Theorem get_leases_none_or_nonempty (a : string) (w : World) :
  (forall w', get_leases a w = (Ok None, w') ->
     available_airframes (site_options (site w)) !! a = None /\
     browser w' = browser w) /\
  (forall ts w', get_leases a w = (Ok (Some ts), w') ->
     is_Some (available_airframes (site_options (site w)) !! a) /\
     ts <> []) /\
  (forall w', get_lease_page a w = (Ok None, w') ->
     available_airframes (site_options (site w)) !! a = None /\
     browser w' = browser w) /\
  (forall t w', get_lease_page a w = (Ok (Some t), w') ->
     is_Some (available_airframes (site_options (site w)) !! a)).
Proof.
  split; [|split; [|split]].
  - intros w' H. unfold get_leases in H.
    apply bind_Ok_inv in H as (present & w1 & E & H).
    apply apply_airframe_filter_result in E as [Hp Hb].
    destruct present.
    + apply bind_Ok_inv in H as (dom & w2 & _ & H).
      apply bind_Ok_inv in H as (pages & w3 & _ & H).
      apply bind_Ok_inv in H as (ts & w4 & _ & H). discriminate H.
    + injection H as <-. split; [|by apply Hb].
      destruct (available_airframes _ !! a) eqn:Ea; [|done].
      assert (Hf : false = true) by (apply Hp; by eexists).
      discriminate Hf.
  - intros ts w' H. unfold get_leases in H.
    apply bind_Ok_inv in H as (present & w1 & E & H).
    apply apply_airframe_filter_result in E as [Hp _].
    destruct present; [|discriminate H]. split; [by apply Hp|].
    apply bind_Ok_inv in H as (dom & w2 & _ & H).
    apply bind_Ok_inv in H as (pages & w3 & _ & H).
    apply bind_Ok_inv in H as (ts' & w4 & Hl & H).
    injection H as <- <-. apply get_leases_loop_length in Hl.
    intros ->. simpl in Hl. lia.
  - intros w' H. unfold get_lease_page in H.
    apply bind_Ok_inv in H as (present & w1 & E & H).
    apply apply_airframe_filter_result in E as [Hp Hb].
    destruct present.
    + apply bind_Ok_inv in H as (dom & w2 & _ & H). discriminate H.
    + injection H as <-. split; [|by apply Hb].
      destruct (available_airframes _ !! a) eqn:Ea; [|done].
      assert (Hf : false = true) by (apply Hp; by eexists).
      discriminate Hf.
  - intros t w' H. unfold get_lease_page in H.
    apply bind_Ok_inv in H as (present & w1 & E & H).
    apply apply_airframe_filter_result in E as [Hp _].
    destruct present; [|discriminate H]. by apply Hp.
Qed.

(** ** The supervisors: what ends them and what they keep *)

(** X9: once the counts are loaded, [main] neither returns nor lets an
    exception out: whatever the site, the faults, the clock and the sort,
    and however long it is run, the run is still inside [while True] when
    it is cut off.  Every exception of a session ends in the handler of
    [main], which goes on with the loop. *)
Theorem main_never_returns sort (fuel : nat) (w : World) :
  (main sort fuel w).1 = OutOfFuel /\
  (main_loop sort fuel w).1 = OutOfFuel.
Proof.
  assert (Hloop : forall w0, (main_loop sort fuel w0).1 = OutOfFuel).
  { induction fuel as [|fuel IH]; intros w0; [done|].
    cbn [main_loop]. unfold bind, try_except.
    destruct (session sort fuel w0) as [[[]|e|] w1]; [apply IH | | done].
    cbn [emit]. apply IH. }
  split; [|apply Hloop].
  unfold main, bind. cbn [load_counts]. apply Hloop.
Qed.

(** A pass of a worker with its handler: it never raises, and the count
    goes up by one at most. *)
Lemma agent_try_cases a w r w1 :
  try_except (agent_pass a)
    (fun e => emit (Print (WarnPurchasing a e))) w = (r, w1) ->
  (r = Ok tt \/ r = OutOfFuel) /\
  purchases w <= purchases w1 <= purchases w + 1.
Proof.
  unfold try_except. destruct (agent_pass a w) as [r0 w0] eqn:E.
  apply agent_pass_cases in E as (evs & _ & Hc & _).
  assert (Hp : purchases w <= purchases w0 <= purchases w + 1)
    by (destruct Hc as [[_ ->] | [(_ & _ & ->) | (_ & _ & ->)]]; lia).
  destruct r0 as [[]|e|]; intros [= <- <-]; auto.
Qed.

Lemma agent_loop_bound fuel a mx :
  forall w r w',
    agent_loop fuel a mx w = (r, w') ->
    purchases w <= purchases w' /\
    purchases w' <= Z.max (purchases w) mx /\
    ((r = Ok tt /\ mx <= purchases w') \/ r = OutOfFuel).
Proof.
  induction fuel as [|fuel IH]; intros w r w' H.
  - injection H as <- <-. split; [lia|]. split; [lia | by right].
  - cbn [agent_loop] in H. unfold bind at 1 in H. cbn [get_purchases] in H.
    destruct (purchases w <? mx) eqn:Hlt.
    + apply Z.ltb_lt in Hlt. unfold bind at 1 in H.
      destruct (try_except _ _ w) as [r1 w1] eqn:E.
      apply agent_try_cases in E as [Hr Hp].
      destruct Hr as [-> | ->].
      * apply IH in H as (H1 & H2 & H3). split; [lia|]. split; [lia | done].
      * injection H as <- <-. split; [lia|]. split; [lia | by right].
    + apply Z.ltb_ge in Hlt. injection H as <- <-.
      split; [lia|]. split; [lia | by left].
Qed.

(** The [try] block of the outer loop of [launch_agent]. *)
Lemma worker_session_bound fuel a mx w r w' :
  (BrowserAgent ;; login_workflow ;; agent_loop fuel a mx) w = (r, w') ->
  purchases w <= purchases w' /\
  purchases w' <= Z.max (purchases w) mx /\
  (r = Ok tt -> mx <= purchases w').
Proof.
  unfold bind at 1. destruct (BrowserAgent w) as [r0 w0] eqn:E0.
  apply new_agent_cases in E0 as (P0 & _).
  destruct r0 as [[]|e|]; [|intros [= <- <-]; split; [lia|split; [lia|done]]..].
  unfold bind at 1. destruct (login_workflow w0) as [r1 w1] eqn:E1.
  apply steps_login_workflow in E1 as [_ _ _ P1 _ _ _].
  destruct r1 as [[]|e|]; [|intros [= <- <-]; split; [lia|split; [lia|done]]..].
  intros H. apply agent_loop_bound in H as (H1 & H2 & H3).
  split; [lia|]. split; [lia|]. intros ->. by destruct H3 as [[_ ?]|?].
Qed.

Lemma launch_loop_bound fuel a mx :
  forall w r w',
    launch_loop fuel a mx w = (r, w') ->
    purchases w <= purchases w' /\
    purchases w' <= Z.max (purchases w) mx /\
    ((r = Ok tt /\ mx <= purchases w') \/ r = OutOfFuel).
Proof.
  induction fuel as [|fuel IH]; intros w r w' H.
  - injection H as <- <-. split; [lia|]. split; [lia | by right].
  - cbn [launch_loop] in H. unfold bind at 1 in H. cbn [get_purchases] in H.
    destruct (purchases w <? mx) eqn:Hlt.
    + apply Z.ltb_lt in Hlt. unfold bind at 1, try_except in H.
      destruct ((BrowserAgent ;; login_workflow ;; agent_loop fuel a mx) w)
        as [r1 w1] eqn:E.
      apply worker_session_bound in E as (E1 & E2 & _).
      destruct r1 as [[]|e|].
      * apply IH in H as (H1 & H2 & H3). split; [lia|]. split; [lia | done].
      * cbn [emit] in H. apply IH in H as (H1 & H2 & H3). cbn in H1, H2.
        split; [lia|]. split; [lia | done].
      * injection H as <- <-. split; [lia|]. split; [lia | by right].
    + apply Z.ltb_ge in Hlt. injection H as <- <-.
      split; [lia|]. split; [lia | by left].
Qed.



(** ** The counters and the files in monitor mode *)

#[export] Instance store_step_preorder : PreOrder store_step.
Proof.
  split.
  - intros w. split; [intros k; lia | done].
  - intros a b c [C1 F1] [C2 F2]. split.
    + intros k. specialize (C1 k). specialize (C2 k). lia.
    + intros f Hf. by rewrite F2, F1.
Qed.

Lemma store_step_same w w' :
  airframe_count w' = airframe_count w -> fs w' = fs w -> store_step w w'.
Proof. intros Hc Hf. split; [intros k; rewrite Hc; lia | by rewrite Hf]. Qed.

Lemma steps_store_driver {A} (m : M A) :
  steps driver_step m -> steps store_step m.
Proof.
  apply steps_weaken. intros w w' [_ Hf Hc _ _ _ _]. by apply store_step_same.
Qed.

Lemma steps_store_emit e : steps store_step (emit e).
Proof. intros w r w' [= <- <-]. by apply store_step_same. Qed.

Lemma steps_store_before_deadline : steps store_step before_deadline.
Proof.
  intros w r w'. unfold before_deadline.
  destruct (clock w); intros [= <- <-]; by apply store_step_same.
Qed.

(** [d[k]] returns the count of [k], and leaves every count as it was. *)
Lemma getitem_count d k r d' :
  getitem d k = (r, d') ->
  (forall v, r = Ok v -> v = count_of d k) /\
  (forall k', count_of d' k' = count_of d k') /\
  (r <> OutOfFuel) /\
  (forall e, r = Raise e -> d' = d).
Proof.
  unfold getitem, count_of.
  destruct d as [m|m]; cbn [items]; destruct (m !! k) as [v|] eqn:E;
    intros [= <- <-]; repeat split; try done;
    try (intros ? [= <-]; by rewrite ?E).
  intros k'. cbn [items]. destruct (decide (k' = k)) as [->|Hne].
  - by rewrite lookup_insert_eq, E.
  - by rewrite lookup_insert_ne.
Qed.

Lemma steps_store_count_getitem k : steps store_step (count_getitem k).
Proof.
  intros w r w'. unfold count_getitem.
  destruct (getitem (airframe_count w) k) as [r0 d] eqn:E.
  intros [= <- <-]. apply getitem_count in E as (_ & Hc & _).
  split; [|done]. intros k'. cbn. rewrite Hc. lia.
Qed.

(** [airframe_count[k] += 1] on the counts: [k] goes up by one when the
    statement returns, and nothing changes when it raises. *)
Lemma count_incr_count k w r w' :
  count_incr k w = (r, w') ->
  fs w' = fs w /\ trace w' = trace w /\ r <> OutOfFuel /\
  ((r = Ok tt /\
    count_of (airframe_count w') k = count_of (airframe_count w) k + 1 /\
    forall k', k' <> k ->
      count_of (airframe_count w') k' = count_of (airframe_count w) k') \/
   ((exists e, r = Raise e) /\ airframe_count w' = airframe_count w)).
Proof.
  unfold count_incr, bind, count_getitem.
  destruct (getitem (airframe_count w) k) as [r0 d] eqn:E.
  apply getitem_count in E as (Hv & Hc & Hf & He).
  destruct r0 as [v|e|]; intros [= <- <-]; cbn; [|by eauto 10|done].
  split; [done|]. split; [done|]. split; [done|]. left. split; [done|].
  split.
  - rewrite (Hv v eq_refl), <- (Hc k). unfold count_of.
    destruct d; cbn; by rewrite lookup_insert_eq.
  - intros k' Hne. rewrite <- (Hc k'). unfold count_of.
    destruct d; cbn; by rewrite lookup_insert_ne.
Qed.

Lemma steps_store_count_incr k : steps store_step (count_incr k).
Proof.
  intros w r w' H. apply count_incr_count in H as (Hf & _ & _ & H).
  destruct H as [(_ & Hk & Ho) | (_ & Hc)]; [|by apply store_step_same].
  split; [|by rewrite Hf]. intros k'.
  destruct (decide (k' = k)) as [->|Hne]; [lia | rewrite Ho by done; lia].
Qed.

Lemma steps_store_dump_counts : steps store_step dump_counts.
Proof.
  intros w r w' [= <- <-]. split; [intros k; cbn; lia|].
  intros f Hf. cbn. by rewrite lookup_insert_ne.
Qed.

Lemma steps_store_purchase_aircraft p r :
  steps store_step (purchase_aircraft p r).
Proof.
  intros w res w' H. apply purchase_aircraft_calls in H as (Hc & Hf & _).
  by apply store_step_same.
Qed.

Lemma steps_store_new_agent : steps store_step BrowserAgent.
Proof.
  intros w r w' H. apply new_agent_cases in H as (_ & Hc & Hf & _).
  by apply store_step_same.
Qed.

#[export] Hint Resolve steps_store_driver | 5 : steps.
#[export] Hint Resolve steps_store_emit steps_store_before_deadline
  steps_store_count_getitem steps_store_count_incr steps_store_dump_counts
  steps_store_purchase_aircraft steps_store_new_agent : steps.

Lemma steps_store_purchase_all a df : steps store_step (purchase_all a df).
Proof. induction df as [|l df IH]; simpl; steps_tac. Qed.
#[export] Hint Resolve steps_store_purchase_all : steps.

Lemma steps_store_acquire sort fuel row df :
  steps store_step (acquire sort fuel row df).
Proof.
  revert df. induction fuel as [|fuel IH]; intros df; simpl; steps_tac.
Qed.
#[export] Hint Resolve steps_store_acquire : steps.

Lemma steps_store_rule_pass sort fuel row :
  steps store_step (rule_pass sort fuel row).
Proof. unfold rule_pass. steps_tac. Qed.
#[export] Hint Resolve steps_store_rule_pass : steps.

Lemma steps_store_for_rules sort fuel rows :
  steps store_step (for_rules sort fuel rows).
Proof. induction rows as [|row rows IH]; simpl; steps_tac. Qed.
#[export] Hint Resolve steps_store_for_rules : steps.

Lemma steps_store_sheets_loop sort fuel rows :
  steps store_step (sheets_loop sort fuel rows).
Proof. induction fuel as [|fuel IH]; simpl; steps_tac. Qed.
#[export] Hint Resolve steps_store_sheets_loop : steps.

Lemma steps_store_refresh_loop sort fuel :
  steps store_step (refresh_loop sort fuel).
Proof.
  induction fuel as [|fuel IH]; simpl; [steps_tac|].
  unfold SheetsHandler, get_spreadsheet. steps_tac.
Qed.
#[export] Hint Resolve steps_store_refresh_loop : steps.

Lemma steps_store_session sort fuel : steps store_step (session sort fuel).
Proof. unfold session. steps_tac. Qed.
#[export] Hint Resolve steps_store_session : steps.

Lemma steps_store_main_loop sort fuel :
  steps store_step (main_loop sort fuel).
Proof. induction fuel as [|fuel IH]; simpl; steps_tac. Qed.

(** X11: in monitor mode no count ever goes down.  Over any stretch of
    a run of the loop of [main], through errors and new sessions, the
    count of every airframe type, an absent type counting as 0, is at
    least what it was. *)
Theorem counts_never_decrease sort (fuel : nat) (w : World) (r : Res unit)
  (w' : World) (k : string) :
  main_loop sort fuel w = (r, w') ->
  count_of (airframe_count w) k <= count_of (airframe_count w') k.
Proof. intros H. apply (steps_store_main_loop sort fuel _ _ _ H). Qed.

Lemma counts_never_decrease_witness :
  let rw := main_loop stable_sort 6 one_row_world in
  main_loop stable_sort 6 one_row_world = (rw.1, rw.2) /\
  count_of (airframe_count one_row_world) "A320"
  <= count_of (airframe_count rw.2) "A320".
Proof.
  intros rw.
  assert (H : main_loop stable_sort 6 one_row_world = (rw.1, rw.2))
    by apply surjective_pairing.
  split; [exact H|].
  exact (counts_never_decrease stable_sort 6 one_row_world _ _ "A320" H).
Defined.

(** X12: the only file [main] ever writes is [filename.pickle].  After
    any run, every other file, [count.pickle] among them, holds what it
    held at the start: the file [main] reads its counts from is never
    written by it. *)
Theorem only_filename_pickle_written sort (fuel : nat) (w : World)
  (r : Res unit) (w' : World) :
  main sort fuel w = (r, w') ->
  (forall f, f <> "filename.pickle" -> fs w' !! f = fs w !! f) /\
  fs w' !! "count.pickle" = fs w !! "count.pickle".
Proof.
  unfold main, bind. cbn [load_counts]. intros H.
  apply steps_store_main_loop in H as [_ H]. cbn in H.
  split; [exact H | by apply H].
Qed.

Lemma only_filename_pickle_written_witness :
  let rw := main stable_sort 6 one_row_world in
  main stable_sort 6 one_row_world = (rw.1, rw.2) /\
  fs rw.2 !! "count.pickle" = fs one_row_world !! "count.pickle".
Proof.
  intros rw.
  assert (H : main stable_sort 6 one_row_world = (rw.1, rw.2))
    by apply surjective_pairing.
  split; [exact H|].
  exact (proj2 (only_filename_pickle_written stable_sort 6 one_row_world
                  _ _ H)).
Defined.

(** ** Purchases of a batch: counted and stored one by one *)

Lemma fuel_free_ret {A} (a : A) : fuel_free (ret a).
Proof. by intros w. Qed.

Lemma fuel_free_bind {A B} (m : M A) (k : A -> M B) :
  fuel_free m -> (forall a, fuel_free (k a)) -> fuel_free (bind m k).
Proof.
  intros Hm Hk w. unfold bind. specialize (Hm w).
  destruct (m w) as [[a|e|] w1]; [apply Hk | done | done].
Qed.

Lemma fuel_free_lift {A} (r : Res A) : r <> OutOfFuel -> fuel_free (lift r).
Proof. by intros H w. Qed.

Lemma fuel_free_tick : fuel_free tick.
Proof. intros w. unfold tick. by destruct (faults w) as [|[] l]. Qed.

Lemma py_index_fuel {A} (l : list A) (i : Z) : py_index l i <> OutOfFuel.
Proof.
  unfold py_index. cbv zeta. destruct (_ && _); [|done].
  by destruct (l !! _).
Qed.

Lemma fuel_free_purchase_aircraft p r : fuel_free (purchase_aircraft p r).
Proof.
  unfold purchase_aircraft, _goto_page, goto_leases, navbar_links,
    click_page, click_link, wait_quote, wait_until.
  repeat first
    [ progress intros
    | apply fuel_free_ret
    | apply fuel_free_tick
    | (apply fuel_free_lift; apply py_index_fuel)
    | apply fuel_free_bind
    | match goal with
      | |- fuel_free (match ?x with _ => _ end) => destruct x
      | |- fuel_free (emit _) => by intros ?
      | |- fuel_free (raise _) => by intros ?
      | |- fuel_free get_site => by intros ?
      | |- fuel_free get_browser => by intros ?
      | |- fuel_free (modify_browser _) => by intros ?
      end ].
Qed.

Lemma count_events_app P a b :
  count_events P (a ++ b) = (count_events P a + count_events P b)%nat.
Proof. unfold count_events. by rewrite List.filter_app, length_app. Qed.

Lemma count_events_none P Q evs :
  (forall e, Q e = true -> P e = false) ->
  forallb Q evs = true -> count_events P evs = 0%nat.
Proof.
  intros HPQ. induction evs as [|e evs IH]; [done|]. cbn [forallb].
  intros [He H]%andb_prop. unfold count_events in *. cbn [List.filter].
  rewrite (HPQ e He). by apply IH.
Qed.

Lemma ui_event_not_dump e : is_ui_event e = true -> is_dump e = false.
Proof. by destruct e. Qed.

(** A run of the loop over the rows of a batch, by the number [k] of
    purchases that were completed. *)
Lemma purchase_all_account a df :
  forall w r w',
    purchase_all a df w = (r, w') ->
    exists k : nat,
      (k <= length df)%nat /\
      count_of (airframe_count w') a
        = count_of (airframe_count w) a + Z.of_nat k /\
      (forall k', k' <> a ->
         count_of (airframe_count w') k' = count_of (airframe_count w) k') /\
      (r = Ok tt -> k = length df) /\
      r <> OutOfFuel /\
      (exists evs,
         trace w' = (trace w ++ evs)%list /\ count_events is_dump evs = k) /\
      (k = 0%nat -> airframe_count w' = airframe_count w /\ fs w' = fs w) /\
      ((0 < k)%nat ->
       fs w' !! "filename.pickle" = Some (airframe_count w')).
Proof.
  induction df as [|l df IH]; intros w r w' H.
  - injection H as <- <-. exists 0%nat. cbn.
    repeat split; try done; try lia.
    exists []. by rewrite app_nil_r.
  - cbn [purchase_all] in H. unfold bind at 1 in H.
    pose proof (fuel_free_purchase_aircraft
                  (Z.of_nat (pagenum l) + 1) (Z.of_nat (rowidx l) + 1) w)
      as Hfuel.
    destruct (purchase_aircraft _ _ w) as [r1 w1] eqn:E1.
    apply purchase_aircraft_calls in E1 as (C1 & F1 & _ & evs1 & T1 & U1).
    assert (D1 : count_events is_dump
                   (CallPurchase (Z.of_nat (pagenum l) + 1)
                      (Z.of_nat (rowidx l) + 1) :: evs1) = 0%nat).
    { change (?e :: ?t)%list with ([e] ++ t)%list.
      rewrite count_events_app.
      by rewrite (count_events_none is_dump is_ui_event evs1
                    ui_event_not_dump U1). }
    cbn [fst] in Hfuel.
    assert (Hstop : forall r0, r0 <> Ok tt -> r0 <> OutOfFuel ->
              (r, w') = (r0, w1) ->
              exists k : nat,
                (k <= length (l :: df))%nat /\
                count_of (airframe_count w') a
                  = count_of (airframe_count w) a + Z.of_nat k /\
                (forall k', k' <> a ->
                   count_of (airframe_count w') k'
                   = count_of (airframe_count w) k') /\
                (r = Ok tt -> k = length (l :: df)) /\
                r <> OutOfFuel /\
                (exists evs,
                   trace w' = (trace w ++ evs)%list /\
                   count_events is_dump evs = k) /\
                (k = 0%nat ->
                 airframe_count w' = airframe_count w /\ fs w' = fs w) /\
                ((0 < k)%nat ->
                 fs w' !! "filename.pickle" = Some (airframe_count w'))).
    { intros r0 Hr0 Hr0' [= -> ->]. exists 0%nat. rewrite C1, F1.
      split; [cbn; lia|]. split; [lia|]. split; [done|]. split; [done|].
      split; [done|]. split; [by eexists|]. split; [done | lia]. }
    destruct r1 as [[]|e|]; [|by apply (Hstop (Raise e)) | done].
    clear Hstop. unfold bind at 1 in H.
    destruct (count_incr a w1) as [r2 w2] eqn:E2.
    apply count_incr_count in E2 as (F2 & T2 & Hf2 & E2).
    destruct E2 as [(-> & K2 & O2) | ((e & ->) & C2)].
    + unfold bind at 1 in H. cbn [dump_counts] in H.
      apply IH in H as (k & Hk & Hc & Ho & Hr & Hf & (evs & T & D) & H0 & Hp).
      cbn in Hc, Ho, T, H0, Hp.
      exists (S k). split; [cbn; lia|]. split; [rewrite Hc, K2, C1; lia|].
      split; [intros k' Hne; by rewrite Ho, O2, C1|].
      split; [intros Hok; cbn; by rewrite (Hr Hok)|]. split; [done|].
      split.
      * exists ((CallPurchase (Z.of_nat (pagenum l) + 1)
                   (Z.of_nat (rowidx l) + 1) :: evs1)
                ++ [Dump "filename.pickle" (airframe_count w2)] ++ evs)%list.
        rewrite T, T2, T1, <- !app_assoc. split; [done|].
        rewrite !count_events_app, D1, D. done.
      * split; [lia|]. intros _. destruct k as [|k].
        -- destruct (H0 eq_refl) as [-> ->]. by rewrite lookup_insert_eq.
        -- apply Hp. lia.
    + injection H as <- <-. exists 0%nat. rewrite C2, C1, F2, F1, T2.
      split; [cbn; lia|]. split; [lia|]. split; [done|]. split; [done|].
      split; [done|]. split; [by eexists|]. split; [done | lia].
Qed.



(** ** The loop on the quota *)

Lemma filter_hours_idem mh df :
  filter_hours mh (filter_hours mh df) = filter_hours mh df.
Proof.
  unfold filter_hours. induction df as [|x df IH]; [done|].
  rewrite filter_cons. destruct (decide (hours x < mh)) as [Hx|Hx]; [|done].
  by rewrite filter_cons, decide_True, IH.
Qed.

(** Filtering again what was filtered and sorted leaves as many rows. *)
Lemma filter_hours_sorted_length sort mh df :
  sort_contract sort ->
  length (filter_hours mh (sort (filter_hours mh df)))
  = length (filter_hours mh df).
Proof.
  intros Hs. destruct (Hs (filter_hours mh df)) as [Hp _].
  unfold filter_hours at 1. rewrite Hp. fold (filter_hours mh (filter_hours mh df)).
  by rewrite filter_hours_idem.
Qed.

Lemma count_getitem_count k w r w1 :
  count_getitem k w = (r, w1) ->
  (forall v, r = Ok v -> v = count_of (airframe_count w) k) /\
  (forall k', count_of (airframe_count w1) k' = count_of (airframe_count w) k') /\
  r <> OutOfFuel.
Proof.
  unfold count_getitem.
  destruct (getitem (airframe_count w) k) as [r0 d] eqn:E.
  intros [= <- <-]. apply getitem_count in E as (Hv & Hc & Hf & _).
  by repeat split.
Qed.





(** ** The options of the filter *)

(** X16: the dictionary of the options of the filter.  A text is a key
    exactly when some option has it, and when several options have the
    same text the value of the last of them is the one looked up, the one
    [select_by_value] is then given. *)
Theorem available_airframes_last_wins (opts : list (string * string))
  (t : string) :
  (available_airframes opts !! t = None <-> t ∉ opts.*1) /\
  (forall l1 l2 v,
     opts = (l1 ++ (t, v) :: l2)%list -> t ∉ l2.*1 ->
     available_airframes opts !! t = Some v).
Proof.
  unfold available_airframes. split.
  - rewrite <- not_elem_of_list_to_map, fmap_reverse, elem_of_reverse. done.
  - intros l1 l2 v -> Hl2.
    rewrite reverse_app, reverse_cons, <- app_assoc. cbn [app].
    rewrite list_to_map_app, lookup_union_r.
    + cbn [list_to_map foldr]. apply lookup_insert_eq.
    + apply not_elem_of_list_to_map. by rewrite fmap_reverse, elem_of_reverse.
Qed.

(** ** Sessions of a worker *)

Lemma within_session_counts evs :
  forallb within_session evs = true ->
  count_events is_new_session evs = 0%nat /\
  count_events is_login_warning evs = 0%nat.
Proof.
  intros H. split.
  - apply (count_events_none _ within_session); [|done].
    intros e. unfold within_session. by destruct (is_new_session e).
  - apply (count_events_none _ within_session); [|done].
    intros e. unfold within_session.
    destruct (is_login_warning e); [|done]. by rewrite andb_false_r.
Qed.

Lemma ui_event_within_session e :
  is_ui_event e = true -> within_session e = true.
Proof. destruct e as [| | | | | | |[]|]; done. Qed.

Lemma steps_session_driver {A} (m : M A) :
  steps driver_step m -> steps (emits_only within_session) m.
Proof. apply steps_only_driver, ui_event_within_session. Qed.

Lemma steps_session_purchase_aircraft p r :
  steps (emits_only within_session) (purchase_aircraft p r).
Proof.
  intros w res w' H.
  pose proof (purchase_aircraft_steps _ _ _ _ _ H) as [Hs _ _ _ _ _ _].
  apply purchase_aircraft_calls in H as (_ & _ & _ & evs & T & U).
  split; [exact Hs|]. exists (CallPurchase p r :: evs). split; [done|].
  cbn [forallb]. apply andb_true_intro. split; [done|].
  rewrite forallb_forall in U. apply forallb_forall.
  intros e He. apply ui_event_within_session, U, He.
Qed.

Lemma steps_session_agent_pass a :
  steps (emits_only within_session) (agent_pass a).
Proof.
  unfold agent_pass.
  apply steps_bind; [exact _ | apply steps_session_driver, steps_goto_leases|].
  intros _.
  apply steps_bind; [exact _ | apply steps_session_driver, steps_get_lease_page|].
  intros [t|]; [|apply steps_ret; exact _].
  apply steps_bind; [exact _ | apply steps_session_purchase_aircraft|].
  intros _. apply steps_bind; [exact _ | |].
  - apply steps_only_silent. by intros w r w' [= <- <-].
  - intros _. by apply steps_only_emit.
Qed.

Lemma steps_session_agent_loop fuel a mx :
  steps (emits_only within_session) (agent_loop fuel a mx).
Proof.
  induction fuel as [|fuel IH]; cbn [agent_loop];
    [apply steps_out_of_fuel; exact _|].
  apply steps_bind; [exact _ | |].
  - apply steps_only_silent. by intros w r w' [= <- <-].
  - intros p. destruct (p <? mx); [|apply steps_ret; exact _].
    apply steps_bind; [exact _ | | intros _; exact IH].
    apply steps_try_except; [exact _ | apply steps_session_agent_pass|].
    intros e. by apply steps_only_emit.
Qed.

(** The [try] block of the outer loop of a worker starts one session at
    most and gives no warning of a failed login; when it returns, the
    quota is met. *)
Lemma worker_session_events fuel a mx w r w' :
  (BrowserAgent ;; login_workflow ;; agent_loop fuel a mx) w = (r, w') ->
  (r = Ok tt -> mx <= purchases w') /\
  exists evs,
    trace w' = (trace w ++ evs)%list /\
    (count_events is_new_session evs <= 1)%nat /\
    count_events is_login_warning evs = 0%nat.
Proof.
  intros H. split; [by apply worker_session_bound in H as (_ & _ & ?)|].
  revert H. unfold bind at 1.
  destruct (BrowserAgent w) as [r0 w0] eqn:E0.
  apply new_agent_cases in E0 as (_ & _ & _ & _ & _ & _ & E0).
  assert (H0 : exists evs0,
             trace w0 = (trace w ++ evs0)%list /\
             (count_events is_new_session evs0 <= 1)%nat /\
             count_events is_login_warning evs0 = 0%nat).
  { destruct E0 as [[_ T] | [_ T]].
    - exists [NewSession]. split; [done|]. cbn. split; [lia | done].
    - exists []. rewrite app_nil_r. split; [done|]. cbn. split; [lia | done]. }
  destruct H0 as (evs0 & T0 & N0 & W0).
  destruct r0 as [[]|e|]; [|intros [= <- <-]; by exists evs0..].
  intros H.
  assert (Hst : steps (emits_only within_session)
                  (login_workflow ;; agent_loop fuel a mx)).
  { apply steps_bind; [exact _ | |intros _; apply steps_session_agent_loop].
    apply steps_session_driver, steps_login_workflow. }
  destruct (Hst _ _ _ H) as [_ (evs & T & U)].
  apply within_session_counts in U as [N W].
  exists (evs0 ++ evs)%list. rewrite T, T0, <- app_assoc. split; [done|].
  rewrite !count_events_app, N, W. lia.
Qed.

Lemma launch_loop_sessions fuel a mx :
  forall w r w',
    launch_loop fuel a mx w = (r, w') ->
    exists evs,
      trace w' = (trace w ++ evs)%list /\
      (count_events is_new_session evs
       <= count_events is_login_warning evs + 1)%nat.
Proof.
  induction fuel as [|fuel IH]; intros w r w' H.
  - injection H as <- <-. exists []. rewrite app_nil_r. split; [done|].
    cbn. lia.
  - cbn [launch_loop] in H. unfold bind at 1 in H. cbn [get_purchases] in H.
    destruct (purchases w <? mx) eqn:Hlt.
    2:{ injection H as <- <-. exists []. rewrite app_nil_r. split; [done|].
        cbn. lia. }
    unfold bind at 1, try_except in H.
    destruct ((BrowserAgent ;; login_workflow ;; agent_loop fuel a mx) w)
      as [r1 w1] eqn:E.
    apply worker_session_events in E as (Hq & evs1 & T1 & N1 & W1).
    destruct r1 as [[]|e|].
    + specialize (Hq eq_refl).
      assert (Hend : trace w' = trace w1).
      { destruct fuel as [|fuel']; [by injection H as <- <-|].
        cbn [launch_loop] in H. unfold bind at 1 in H.
        cbn [get_purchases] in H.
        rewrite (proj2 (Z.ltb_ge (purchases w1) mx)) in H by lia.
        by injection H as <- <-. }
      exists evs1. rewrite Hend. split; [done | lia].
    + cbn [emit] in H. apply IH in H as (evs & T & N). cbn in T.
      exists (evs1 ++ [Print WarnLogin] ++ evs)%list.
      rewrite T, T1, <- !app_assoc. split; [done|].
      rewrite !count_events_app. cbn [count_events List.filter
        is_new_session is_login_warning length] in *. lia.
    + injection H as <- <-. exists evs1. split; [done | lia].
Qed.



(** ** A rule served from the last page *)

Lemma count_getitem_default k m w :
  airframe_count w = DefaultDict m ->
  exists d,
    count_getitem k w
    = (Ok (count_of (airframe_count w) k), set_airframe_count d w).
Proof.
  intros Hd. unfold count_getitem, count_of. rewrite Hd. cbn.
  destruct (m !! k); by eexists.
Qed.

Lemma rule_pass_after_collection sort fuel row w w1 w2 tables :
  goto_leases w = (Ok tt, w1) ->
  get_leases (aircraft_type row) w1 = (Ok (Some tables), w2) ->
  tables <> [] ->
  rule_pass sort fuel row w
  = (let* df := lift (build_table_index tables) in
     acquire sort fuel row df) w2.
Proof.
  intros H1 H2 Hne. unfold rule_pass.
  rewrite (bind_eval _ _ _ _ _ H1), (bind_eval _ _ _ _ _ H2).
  by destruct tables.
Qed.

(** X18: what a pass of [main] over a rule does when every eligible row
    of a listing of several pages is on its last page, in a world without
    faults with the pager showing the current page as text.  The
    collection has left the browser on the last page, where the pager has
    no link to it: the first call of [purchase_aircraft], with the number
    of pages as its page argument, raises [IndexError], and the pass ends
    with that exception, nothing purchased, the counts and the files as
    they were. *)
Theorem rule_on_last_page_raises sort (fuel : nat) (row : Rule)
  (v : string) (mx mh : Z) (m : gmap string Z) (w : World) :
  sort_contract sort ->
  faults w = [] ->
  airframe_count w = DefaultDict m ->
  available_airframes (site_options (site w)) !! aircraft_type row = Some v ->
  maximum_airframes row = Num mx ->
  maximum_hours row = Num mh ->
  count_of (airframe_count w) (aircraft_type row) < mx ->
  let pages := site_listing (site w) v in
  let df := tagged_concat (map get_table pages) in
  (2 <= length pages)%nat ->
  Forall (Forall numeric) (map get_table pages) ->
  filter_hours mh df <> [] ->
  (forall l, l ∈ df -> hours l < mh -> S (pagenum l) = length pages) ->
  exists w' evs rownum,
    rule_pass sort (S fuel) row w = (Raise IndexError, w') /\
    trace w' = (trace w ++ evs)%list /\
    purchase_calls evs = [(Z.of_nat (length pages), rownum)] /\
    page_clicks evs = seq 1 (length pages - 1) /\
    (forall k, count_of (airframe_count w') k = count_of (airframe_count w) k) /\
    fs w' = fs w.
Proof.
  intros Hsort F Hd Ha Hmx Hmh Hlt pages df Hn Hnum Hne Hlast.
  assert (Hpne : pages <> [])
    by (intros E; rewrite E in Hn; simpl in Hn; lia).
  pose proof (goto_leases_ok w F) as Hgo.
  set (w1 := set_browser _ _) in Hgo.
  assert (F1 : faults w1 = []) by exact F.
  destruct (get_leases_ok (aircraft_type row) v w1 F1 Ha Hpne)
    as (w2 & evs2 & Hg & F2 & T2 & P2).
  destruct (get_leases_lands (aircraft_type row) v w1 F1 Ha Hpne) as [Hb _].
  rewrite Hg in Hb. cbn [snd] in Hb.
  change (site_listing (site w1) v) with pages in Hg, Hb, T2, P2.
  pose proof (steps_get_leases _ _ _ _ Hg) as [_ Hfs2 Hc2 _ _ _ (ev2 & T2' & U2)].
  assert (Htne : map get_table pages <> [])
    by (intros E; apply Hpne; by destruct pages).
  rewrite (rule_pass_after_collection _ _ _ _ _ _ _ Hgo Hg Htne).
  rewrite (bind_eval _ _ w2 df w2)
    by (unfold lift; by rewrite build_table_index_numeric).
  destruct (count_getitem_default (aircraft_type row) m w2) as [d Hget];
    [by rewrite Hc2|].
  pose proof Hget as Hcount. apply count_getitem_count in Hcount as (_ & Hc3 & _).
  assert (Hlt2 : count_of (airframe_count w2) (aircraft_type row) < mx)
    by (by rewrite Hc2).
  rewrite (acquire_batch sort fuel row df w2 _ mx mh _ Hget Hmx Hmh Hlt2 Hne).
  set (w3 := set_airframe_count d w2) in *.
  destruct (Hsort (filter_hours mh df)) as [Hperm _].
  destruct (sort (filter_hours mh df)) as [|l rest] eqn:Es.
  { apply Permutation_nil in Hperm. done. }
  assert (Hl : l ∈ filter_hours mh df)
    by (rewrite <- Hperm; apply list_elem_of_here).
  apply filter_hours_spec in Hl as [Hl Hh].
  specialize (Hlast l Hl Hh).
  set (rownum := Z.of_nat (rowidx l) + 1).
  set (w0 := set_trace (trace w3 ++ [CallPurchase (Z.of_nat (pagenum l) + 1)
                                       rownum]) w3).
  assert (Hp : purchase_aircraft (Z.of_nat (pagenum l) + 1) rownum w3
               = (Raise IndexError, w0)).
  { rewrite (purchase_aircraft_eval _ _ w3).
    rewrite (proj2 (Z.leb_le 0 (Z.of_nat (pagenum l) + 1))) by lia.
    fold w0.
    destruct (pager_links (browser w0) (pagenum l)) as (Hlen & _ & _).
    { cbn. rewrite Hb. cbn. lia. }
    rewrite (goto_page_beyond w0 (pagenum l) F2); [done|].
    rewrite Hlen. cbn. rewrite Hb. cbn. lia. }
  exists w0, (GotoLeases :: ev2
              ++ [CallPurchase (Z.of_nat (pagenum l) + 1) rownum])%list, rownum.
  split.
  - apply bind_raise. cbn [purchase_all]. by apply bind_raise.
  - split; [cbn; rewrite T2'; cbn; by rewrite <- !app_assoc|].
    assert (Hev : ev2 = ([SelectByValue v; Click BtnApplyFilter] ++ evs2)%list).
    { rewrite T2' in T2. by apply app_inv_head in T2. }
    split; [|split; [|split]].
    + change (?e :: ?t ++ ?u)%list with ([e] ++ t ++ u)%list.
      rewrite !purchase_calls_app, (ui_events_no_calls _ U2). cbn.
      do 2 f_equal. lia.
    + change (?e :: ?t ++ ?u)%list with ([e] ++ t ++ u)%list.
      rewrite !page_clicks_app, Hev, page_clicks_app, P2. cbn.
      by rewrite app_nil_r.
    + intros k. cbn. rewrite Hc3. by rewrite Hc2.
    + cbn. by rewrite Hfs2.
Qed.

Lemma rule_on_last_page_raises_witness :
  exists w' evs rownum,
    rule_pass stable_sort 2 (rule "A320" 1 100) last_page_world
    = (Raise IndexError, w') /\
    trace w' = (trace last_page_world ++ evs)%list /\
    purchase_calls evs = [(2, rownum)] /\
    page_clicks evs = [1%nat] /\
    (forall k, count_of (airframe_count w') k
               = count_of (airframe_count last_page_world) k) /\
    fs w' = fs last_page_world.
Proof.
  assert (Hlt : count_of (airframe_count last_page_world) "A320" < 1)
    by (vm_compute; reflexivity).
  assert (Hn : (2 <= length (site_listing (site last_page_world) "17"))%nat)
    by (simpl; lia).
  assert (Hnum : Forall (Forall numeric)
                   (map get_table (site_listing (site last_page_world) "17")))
    by (repeat constructor; by eexists).
  assert (Hne : filter_hours 100
                  (tagged_concat
                     (map get_table (site_listing (site last_page_world) "17")))
                <> []) by (vm_compute; discriminate).
  assert (Hlast : forall l,
             l ∈ tagged_concat
                   (map get_table (site_listing (site last_page_world) "17")) ->
             hours l < 100 ->
             S (pagenum l) = length (site_listing (site last_page_world) "17")).
  { intros l Hl Hh. vm_compute in Hl.
    apply elem_of_cons in Hl as [-> | Hl].
    - vm_compute in Hh. discriminate Hh.
    - apply elem_of_cons in Hl as [-> | Hl]; [reflexivity|].
      by apply elem_of_nil in Hl. }
  exact (rule_on_last_page_raises stable_sort 1 (rule "A320" 1 100) "17"
           1 100 ∅ last_page_world stable_sort_contract eq_refl eq_refl
           eq_refl eq_refl eq_refl Hlt Hn Hnum Hne Hlast).
Defined.

(** ** Faults and the collection *)

Lemma fault_blind_ret {A} (a : A) : fault_blind (ret a).
Proof. by intros w a' w1 [= <- <-]. Qed.

Lemma fault_blind_lift {A} (r : Res A) : fault_blind (lift r).
Proof. by intros w a' w1 [= -> <-]. Qed.

Lemma fault_blind_bind {A B} (m : M A) (k : A -> M B) :
  fault_blind m -> (forall a, fault_blind (k a)) -> fault_blind (bind m k).
Proof.
  intros Hm Hk w b w' H. apply bind_Ok_inv in H as (a & w1 & H1 & H2).
  by rewrite (bind_eval _ _ _ _ _ (Hm _ _ _ H1)), (Hk _ _ _ _ H2).
Qed.

Lemma fault_blind_tick : fault_blind tick.
Proof.
  intros w [] w1. unfold tick.
  destruct (faults w) as [|[] l] eqn:F; intros [= <-]; cbn; [|done].
  by rewrite <- F.
Qed.

Ltac blind_tac :=
  repeat first
    [ progress intros
    | apply fault_blind_ret
    | apply fault_blind_lift
    | apply fault_blind_tick
    | apply fault_blind_bind
    | match goal with
      | |- fault_blind (match ?x with _ => _ end) => destruct x
      | |- fault_blind (emit _) => by intros ? ? ? [= <- <-]
      | |- fault_blind get_site => by intros ? ? ? [= <- <-]
      | |- fault_blind get_browser => by intros ? ? ? [= <- <-]
      | |- fault_blind (modify_browser _) => by intros ? ? ? [= <- <-]
      end ].

Lemma fault_blind_apply_airframe_filter a :
  fault_blind (apply_airframe_filter a).
Proof.
  unfold apply_airframe_filter, read_options, select_by_value,
    click_apply_filter, wait_until. blind_tac.
Qed.

Lemma fault_blind_get_leases_loop idxs :
  forall tables, fault_blind (get_leases_loop idxs tables).
Proof.
  induction idxs as [|i idxs IH]; intros tables; cbn [get_leases_loop];
    [apply fault_blind_ret|].
  unfold navbar_links, click_page, wait_until, page_source.
  repeat first
    [ apply IH
    | progress intros
    | apply fault_blind_ret
    | apply fault_blind_lift
    | apply fault_blind_tick
    | apply fault_blind_bind
    | match goal with
      | |- fault_blind (emit _) => by intros ? ? ? [= <- <-]
      | |- fault_blind get_browser => by intros ? ? ? [= <- <-]
      | |- fault_blind (modify_browser _) => by intros ? ? ? [= <- <-]
      end ].
Qed.

Lemma fault_blind_get_leases a : fault_blind (get_leases a).
Proof.
  unfold get_leases.
  apply fault_blind_bind; [apply fault_blind_apply_airframe_filter|].
  intros [|]; [|apply fault_blind_ret].
  unfold page_source, navbar_links.
  repeat first
    [ apply fault_blind_get_leases_loop
    | progress intros
    | apply fault_blind_ret
    | apply fault_blind_tick
    | apply fault_blind_bind
    | match goal with
      | |- fault_blind get_browser => by intros ? ? ? [= <- <-]
      end ].
Qed.

(** Whatever the faults, when [get_leases] returns for an airframe that
    is offered it returns the tables of all the pages. *)
Lemma get_leases_returns_listing a v w r w' :
  available_airframes (site_options (site w)) !! a = Some v ->
  site_listing (site w) v <> [] ->
  get_leases a w = (Ok r, w') ->
  r = Some (map get_table (site_listing (site w) v)).
Proof.
  intros Ha Hne H. apply fault_blind_get_leases in H.
  destruct (get_leases_ok a v (set_faults [] w) eq_refl Ha Hne)
    as (w2 & evs & Hg & _).
  rewrite Hg in H. by injection H as <- _.
Qed.

Lemma fuel_free_get_leases_loop idxs :
  forall tables, fuel_free (get_leases_loop idxs tables).
Proof.
  induction idxs as [|i idxs IH]; intros tables; cbn [get_leases_loop];
    [apply fuel_free_ret|].
  unfold navbar_links, click_page, wait_until, page_source.
  repeat first
    [ apply IH
    | progress intros
    | apply fuel_free_ret
    | apply fuel_free_tick
    | (apply fuel_free_lift; apply py_index_fuel)
    | apply fuel_free_bind
    | match goal with
      | |- fuel_free (emit _) => by intros ?
      | |- fuel_free get_browser => by intros ?
      | |- fuel_free (modify_browser _) => by intros ?
      end ].
Qed.

Lemma fuel_free_get_leases a : fuel_free (get_leases a).
Proof.
  unfold get_leases, apply_airframe_filter, read_options,
    select_by_value, click_apply_filter, wait_until, page_source,
    navbar_links.
  repeat first
    [ apply fuel_free_get_leases_loop
    | progress intros
    | apply fuel_free_ret
    | apply fuel_free_tick
    | apply fuel_free_bind
    | match goal with
      | |- fuel_free (match ?x with _ => _ end) => destruct x
      | |- fuel_free (if ?x then _ else _) => destruct x
      | |- fuel_free (emit _) => by intros ?
      | |- fuel_free get_site => by intros ?
      | |- fuel_free get_browser => by intros ?
      | |- fuel_free (modify_browser _) => by intros ?
      end ].
Qed.

(** X19: [get_leases] returns all the pages or it does not return.
    With any faults among its remote calls, with the pager showing the
    current page as text, a call for an airframe that is offered either
    ends with an exception or returns the tables of every page of the
    listing, in page order: there is no run that returns some of the
    pages only. *)
Theorem get_leases_all_pages_or_raises (a v : string) (w : World)
  (r : Res (option (list PageTable))) (w' : World) :
  available_airframes (site_options (site w)) !! a = Some v ->
  site_listing (site w) v <> [] ->
  get_leases a w = (r, w') ->
  r = Ok (Some (map get_table (site_listing (site w) v))) \/
  exists e, r = Raise e.
Proof.
  intros Ha Hne H. destruct r as [x|e|].
  - left. f_equal. by apply (get_leases_returns_listing a v w x w').
  - right. by exists e.
  - exfalso. apply (fuel_free_get_leases a w). by rewrite H.
Qed.

Lemma get_leases_all_pages_or_raises_witness :
  let rw := get_leases "A320"
              (set_faults [false; false; false; true] three_page_world) in
  rw.1 = Ok (Some (map get_table
                     (site_listing (site three_page_world) "17"))) \/
  exists e, rw.1 = Raise e.
Proof.
  intros rw.
  apply (get_leases_all_pages_or_raises "A320" "17"
           (set_faults [false; false; false; true] three_page_world)
           rw.1 rw.2).
  - reflexivity.
  - discriminate.
  - apply surjective_pairing.
Defined.

(** ** A rule that cannot be tabulated *)

Lemma no_call_events evs :
  forallb no_call evs = true -> purchase_calls evs = [].
Proof.
  induction evs as [|e evs IH]; [done|]. cbn [forallb].
  intros [He H]%andb_prop. specialize (IH H). unfold purchase_calls in *.
  destruct e; cbn in He |- *; (done || exact IH).
Qed.

Lemma ui_event_no_call e : is_ui_event e = true -> no_call e = true.
Proof. by destruct e. Qed.

Lemma steps_quiet_driver {A} (m : M A) :
  steps driver_step m -> steps (emits_only no_call) m.
Proof. apply steps_only_driver, ui_event_no_call. Qed.

Lemma steps_quiet_before_deadline : steps (emits_only no_call) before_deadline.
Proof.
  apply steps_only_silent. intros w r w'. unfold before_deadline.
  by destruct (clock w); intros [= <- <-].
Qed.

Lemma steps_quiet_new_agent : steps (emits_only no_call) BrowserAgent.
Proof. unfold BrowserAgent. only_tac. Qed.

(** The pass over a rule that cannot be tabulated never returns, and
    never reaches a purchase, whatever the faults. *)
Lemma untabulated_rule_pass sort fuel row w r w' :
  untabulated row (site w) ->
  rule_pass sort fuel row w = (r, w') ->
  r <> Ok tt /\ emits_only no_call w w'.
Proof.
  intros (v & e & Ha & Hne & Hb). unfold rule_pass. unfold bind at 1.
  destruct (goto_leases w) as [r1 w1] eqn:E1.
  pose proof (steps_quiet_driver _ steps_goto_leases _ _ _ E1) as Q1.
  destruct r1 as [[]|e1|]; [|by intros [= <- <-]..].
  unfold bind at 1.
  destruct (get_leases (aircraft_type row) w1) as [r2 w2] eqn:E2.
  pose proof (steps_quiet_driver _ (steps_get_leases _) _ _ _ E2) as Q2.
  assert (Q : emits_only no_call w w2) by (by etransitivity).
  destruct r2 as [tables|e2|]; [|by intros [= <- <-]..].
  destruct Q1 as [S1 _]. rewrite <- S1 in Ha, Hne, Hb.
  apply (get_leases_returns_listing _ v) in E2 as ->; [|done..].
  destruct (map get_table (site_listing (site w1) v)) eqn:Et;
    [by destruct (site_listing (site w1) v)|].
  unfold bind, lift. rewrite Hb. by intros [= <- <-].
Qed.

Lemma untabulated_for_rules sort fuel row rows w r w' :
  untabulated row (site w) ->
  for_rules sort fuel (row :: rows) w = (r, w') ->
  r <> Ok tt /\ emits_only no_call w w'.
Proof.
  intros Hu. cbn [for_rules]. unfold bind.
  destruct (rule_pass sort fuel row w) as [r1 w1] eqn:E.
  apply untabulated_rule_pass in E as [Hr Q]; [|done].
  destruct r1 as [[]|e|]; [done | by intros [= <- <-]..].
Qed.

Lemma untabulated_sheets_loop sort row rows fuel :
  forall w r w',
    untabulated row (site w) ->
    sheets_loop sort fuel (row :: rows) w = (r, w') ->
    emits_only no_call w w'.
Proof.
  induction fuel as [|fuel IH]; intros w r w' Hu H.
  - injection H as <- <-. reflexivity.
  - cbn [sheets_loop] in H. unfold bind at 1 in H.
    destruct (before_deadline w) as [rb w0] eqn:E0.
    pose proof (steps_quiet_before_deadline _ _ _ E0) as Q0.
    destruct rb as [[|]|e|]; [| |by injection H as <- <-..].
    + unfold bind at 1 in H.
      destruct (for_rules sort fuel (row :: rows) w0) as [r1 w1] eqn:E1.
      apply untabulated_for_rules in E1 as [Hr Q1];
        [|destruct Q0 as [-> _]; exact Hu].
      destruct r1 as [[]|e|]; [done|..]; injection H as <- <-;
        by etransitivity.
    + by injection H as <- <-.
Qed.

Lemma untabulated_refresh_loop sort row rows fuel :
  forall w r w',
    site_sheet (site w) = row :: rows ->
    untabulated row (site w) ->
    refresh_loop sort fuel w = (r, w') ->
    emits_only no_call w w'.
Proof.
  induction fuel as [|fuel IH]; intros w r w' Hsh Hu H.
  - injection H as <- <-. reflexivity.
  - cbn [refresh_loop] in H. unfold bind at 1 in H.
    destruct (before_deadline w) as [rb w0] eqn:E0.
    pose proof (steps_quiet_before_deadline _ _ _ E0) as Q0.
    destruct rb as [[|]|e|]; [| |by injection H as <- <-..];
      [|by injection H as <- <-].
    unfold bind at 1 in H. destruct (SheetsHandler w0) as [r1 w1] eqn:E1.
    pose proof (steps_only_tick no_call _ _ _ E1) as Q1.
    assert (Q01 : emits_only no_call w w1) by (by etransitivity).
    destruct r1 as [[]|e|]; [|by injection H as <- <-..].
    unfold get_spreadsheet in H. unfold bind at 1 2 in H.
    destruct (tick w1) as [r2 w2] eqn:E2.
    pose proof (steps_only_tick no_call _ _ _ E2) as Q2.
    assert (Q02 : emits_only no_call w w2) by (by etransitivity).
    destruct r2 as [[]|e|]; [|by injection H as <- <-..].
    cbn [bind get_site ret] in H.
    assert (S2 : site w2 = site w) by (by destruct Q02).
    rewrite S2, Hsh in H. unfold bind at 1 in H.
    destruct (sheets_loop sort fuel (row :: rows) w2) as [r3 w3] eqn:E3.
    apply untabulated_sheets_loop in E3; [|by rewrite S2].
    assert (Q03 : emits_only no_call w w3) by (by etransitivity).
    destruct r3 as [[]|e|]; [|by injection H as <- <-..].
    assert (S3 : site w3 = site w) by (by destruct Q03).
    apply IH in H; [by etransitivity | by rewrite S3..].
Qed.

Lemma untabulated_main_loop sort row rows fuel :
  forall w r w',
    site_sheet (site w) = row :: rows ->
    untabulated row (site w) ->
    main_loop sort fuel w = (r, w') ->
    emits_only no_call w w'.
Proof.
  induction fuel as [|fuel IH]; intros w r w' Hsh Hu H.
  - injection H as <- <-. reflexivity.
  - cbn [main_loop] in H. unfold bind at 1 in H.
    destruct (try_except _ _ w) as [r1 w1] eqn:E1.
    assert (Q1 : emits_only no_call w w1).
    { revert E1. unfold try_except, session. unfold bind at 1.
      destruct (BrowserAgent w) as [ra wa] eqn:Ea.
      pose proof (steps_quiet_new_agent _ _ _ Ea) as Qa.
      assert (Hh : forall e w0, emits_only no_call w w0 ->
                emits_only no_call w
                  (set_trace (trace w0 ++ [Print (ErrorMsg e)]) w0)).
      { intros e w0 Q0. etransitivity; [exact Q0|].
        apply (steps_only_emit no_call (Print (ErrorMsg e)) eq_refl w0 (Ok tt)).
        reflexivity. }
      destruct ra as [[]|e|];
        [| intros [= <- <-]; by apply Hh | by intros [= <- <-]].
      unfold bind at 1. destruct (login_workflow wa) as [rl wl] eqn:El.
      pose proof (steps_quiet_driver _ steps_login_workflow _ _ _ El) as Ql.
      assert (Qal : emits_only no_call w wl) by (by etransitivity).
      destruct rl as [[]|e|];
        [| intros [= <- <-]; by apply Hh | by intros [= <- <-]].
      assert (Sl : site wl = site w) by (by destruct Qal).
      destruct (refresh_loop sort fuel wl) as [rr wr] eqn:Er.
      apply (untabulated_refresh_loop sort row rows) in Er;
        [|by rewrite Sl..].
      assert (Qr : emits_only no_call w wr) by (by etransitivity).
      destruct rr as [[]|e|]; intros [= <- <-]; [done | by apply Hh | done]. }
    assert (S1 : site w1 = site w) by (by destruct Q1).
    destruct r1 as [[]|e|]; [|by injection H as <- <-..].
    apply IH in H; [by etransitivity | by rewrite S1..].
Qed.

(** X20: one rule that cannot be tabulated starves the whole sheet.
    When the first rule of the sheet names an airframe that is offered
    and whose collected table [build_table_index] rejects (an hours cell
    that is not a number on one of its pages), then in every run of
    [main], with any faults, any clock and any sort, and however long it
    runs, [purchase_aircraft] is never called, for no rule: each pass
    ends in the first rule, before the later rules are looked at. *)
Theorem untabulated_first_rule_starves_sheet sort (fuel : nat) (w : World)
  (row : Rule) (rows : list Rule) (r : Res unit) (w' : World) :
  site_sheet (site w) = row :: rows ->
  untabulated row (site w) ->
  main sort fuel w = (r, w') ->
  exists evs,
    trace w' = (trace w ++ evs)%list /\ purchase_calls evs = [].
Proof.
  intros Hsh Hu. unfold main, bind. cbn [load_counts]. intros H.
  apply (untabulated_main_loop sort row rows) in H as [_ (evs & T & U)];
    [|done..].
  exists evs. split; [exact T | by apply no_call_events].
Qed.

Lemma untabulated_first_rule_starves_sheet_witness :
  let w := world_of
             (site_of [ page [10];
                        [row 20; {| raw_hours := NonNum "n/a"; raw_rest := "" |};
                         pager] ]
                      [rule "A320" 1 100; rule "A320" 5 1000])
             [true; true; true; true; true; true] in
  let rw := main stable_sort 9 w in
  exists evs,
    trace rw.2 = (trace w ++ evs)%list /\ purchase_calls evs = [].
Proof.
  intros w rw.
  apply (untabulated_first_rule_starves_sheet stable_sort 9 w
           (rule "A320" 1 100) [rule "A320" 5 1000] rw.1 rw.2).
  - reflexivity.
  - exists "17", ValueError. split; [reflexivity|].
    split; [discriminate | reflexivity].
  - apply surjective_pairing.
Defined.

(** ** A worker gets through the faults *)

Lemma fault_bounded_ret {A} (a : A) : fault_bounded (ret a).
Proof. intros w r w' [= <- <-]. split; [lia | by intros e [=]]. Qed.

Lemma fault_bounded_silent {A} (m : M A) :
  (forall w, exists a w', m w = (Ok a, w') /\ faults w' = faults w) ->
  fault_bounded m.
Proof.
  intros H w r w' E. destruct (H w) as (a & w1 & E1 & F).
  rewrite E1 in E. injection E as <- <-. rewrite F.
  split; [lia | by intros e [=]].
Qed.

Lemma fault_bounded_bind {A B} (m : M A) (k : A -> M B) :
  fault_bounded m -> (forall a, fault_bounded (k a)) ->
  fault_bounded (bind m k).
Proof.
  intros Hm Hk w r w' H. unfold bind in H.
  destruct (m w) as [[a|e|] w1] eqn:E; destruct (Hm _ _ _ E) as [L1 R1].
  - destruct (Hk _ _ _ _ H) as [L2 R2]. split; [lia|].
    intros e He. specialize (R2 e He). lia.
  - injection H as <- <-. split; [lia|]. intros e' _. by apply (R1 e).
  - injection H as <- <-. split; [lia | by intros e' [=]].
Qed.

Lemma fault_bounded_tick : fault_bounded tick.
Proof.
  intros w r w'. unfold tick.
  destruct (faults w) as [|[] l] eqn:F; intros [= <- <-]; cbn; rewrite ?F;
    cbn; (split; [lia|]); intros e [=]; lia.
Qed.

Ltac bounded_tac :=
  repeat first
    [ progress intros
    | apply fault_bounded_ret
    | apply fault_bounded_tick
    | apply fault_bounded_bind
    | (apply fault_bounded_silent; intros ?; by eexists _, _)
    | match goal with
      | |- fault_bounded (match ?x with _ => _ end) => destruct x
      end ].

Lemma fault_bounded_goto_leases : fault_bounded goto_leases.
Proof. unfold goto_leases. bounded_tac. Qed.

Lemma fault_bounded_login_workflow : fault_bounded login_workflow.
Proof. unfold login_workflow, goto_leases. bounded_tac. Qed.

Lemma fault_bounded_new_agent : fault_bounded BrowserAgent.
Proof. unfold BrowserAgent. bounded_tac. Qed.

Lemma fault_bounded_get_lease_page a : fault_bounded (get_lease_page a).
Proof.
  unfold get_lease_page, apply_airframe_filter, read_options,
    select_by_value, click_apply_filter, wait_until, page_source.
  bounded_tac.
Qed.

Lemma fault_bounded_after_row j :
  fault_bounded
    (click_link (RowLink j) ;; wait_quote (RowLink j) ;; tick ;;
     emit (Print QuoteTable) ;; tick ;; emit (Click ChkPrepay) ;; tick ;;
     emit (Click BtnGetQuote) ;; wait_until ;; goto_leases).
Proof.
  unfold click_link, wait_quote, goto_leases, wait_until. bounded_tac.
Qed.

(** On a page that has the row, [purchase_aircraft] raises only where a
    remote call was scheduled to fail. *)
Lemma purchase_on_page_bounded r w res w' :
  0 < r <= Z.of_nat (length (table_rows (browser w))) ->
  purchase_on_page r w = (res, w') ->
  (length (faults w') <= length (faults w))%nat /\
  (forall e, res = Raise e -> (length (faults w') < length (faults w))%nat).
Proof.
  intros Hr. unfold purchase_on_page. unfold bind at 1.
  destruct (tick w) as [r0 w1] eqn:Et.
  destruct (fault_bounded_tick _ _ _ Et) as [L0 R0].
  apply tick_keeps in Et as [Hb _].
  destruct r0 as [[]|e|].
  - unfold bind at 1, get_browser. unfold bind at 1, lift.
    rewrite Hb, (table_links_row _ r Hr). intros H.
    destruct (fault_bounded_after_row _ _ _ _ H) as [L1 R1].
    split; [lia|]. intros e He. specialize (R1 e He). lia.
  - intros [= <- <-]. split; [lia|]. intros e' _. by apply (R0 e).
  - intros [= <- <-]. split; [lia | by intros e' [=]].
Qed.

(** A pass for an airframe that is offered with a row on the first page
    of its listing raises only where a remote call was scheduled to
    fail. *)
Lemma fault_bounded_agent_pass a v w r w' :
  available_airframes (site_options (site w)) !! a = Some v ->
  first_page_table (site w) v <> [] ->
  agent_pass a w = (r, w') ->
  (length (faults w') <= length (faults w))%nat /\
  (forall e, r = Raise e -> (length (faults w') < length (faults w))%nat).
Proof.
  intros Ha Hne. unfold agent_pass. unfold bind at 1.
  destruct (goto_leases w) as [r1 w1] eqn:E1.
  destruct (fault_bounded_goto_leases _ _ _ E1) as [L1 R1].
  pose proof (steps_goto_leases _ _ _ E1) as [S1 _ _ _ _ _ _].
  destruct r1 as [[]|e|].
  2:{ intros [= <- <-]. split; [lia|]. intros e' _. by apply (R1 e). }
  2:{ intros [= <- <-]. split; [lia | by intros e' [=]]. }
  unfold bind at 1.
  destruct (get_lease_page a w1) as [r2 w2] eqn:E2.
  destruct (fault_bounded_get_lease_page _ _ _ _ E2) as [L2 R2].
  destruct r2 as [[t|]|e|].
  2:{ intros [= <- <-]. split; [lia | by intros e' [=]]. }
  2:{ intros [= <- <-]. split; [lia|]. intros e' _.
      specialize (R2 e eq_refl). lia. }
  2:{ intros [= <- <-]. split; [lia | by intros e' [=]]. }
  apply get_lease_page_result in E2 as (S2 & v' & Ha' & _ & Hrows).
  rewrite S1, Ha in Ha'. injection Ha' as <-. rewrite S1 in Hrows.
  unfold bind at 1. rewrite (purchase_aircraft_eval (-1) 1 w2).
  change (0 <=? -1) with false. cbv iota. cbn [ret].
  set (w0 := set_trace _ w2).
  assert (Hr : 0 < 1 <= Z.of_nat (length (table_rows (browser w0)))).
  { change (browser w0) with (browser w2). rewrite Hrows.
    destruct (first_page_table (site w) v); [done | simpl; lia]. }
  destruct (purchase_on_page 1 w0) as [r3 w3] eqn:E3.
  destruct (purchase_on_page_bounded _ _ _ _ Hr E3) as [L3 R3].
  change (faults w0) with (faults w2) in L3, R3.
  destruct r3 as [[]|e|].
  - intros [= <- <-]. cbn. split; [lia | by intros e' [=]].
  - intros [= <- <-]. split; [lia|]. intros e' _.
    specialize (R3 e eq_refl). lia.
  - intros [= <- <-]. split; [lia | by intros e' [=]].
Qed.

Lemma fuel_free_login_workflow : fuel_free login_workflow.
Proof.
  unfold login_workflow, goto_leases.
  repeat first
    [ progress intros
    | apply fuel_free_tick
    | apply fuel_free_bind
    | match goal with
      | |- fuel_free (emit _) => by intros ?
      | |- fuel_free get_site => by intros ?
      | |- fuel_free (modify_browser _) => by intros ?
      end ].
Qed.

Lemma fuel_free_agent_pass a : fuel_free (agent_pass a).
Proof.
  unfold agent_pass, goto_leases, get_lease_page, apply_airframe_filter,
    read_options, select_by_value, click_apply_filter, wait_until,
    page_source.
  repeat first
    [ progress intros
    | apply fuel_free_ret
    | apply fuel_free_tick
    | apply fuel_free_purchase_aircraft
    | apply fuel_free_bind
    | match goal with
      | |- fuel_free (match ?x with _ => _ end) => destruct x
      | |- fuel_free (if ?x then _ else _) => destruct x
      | |- fuel_free (emit _) => by intros ?
      | |- fuel_free get_site => by intros ?
      | |- fuel_free get_browser => by intros ?
      | |- fuel_free (modify_browser _) => by intros ?
      | |- fuel_free (fun _ => _) => by intros ?
      end ].
Qed.

(** A pass that returns for an airframe that is offered has purchased. *)
Lemma agent_pass_returns a w w' :
  is_Some (available_airframes (site_options (site w)) !! a) ->
  agent_pass a w = (Ok tt, w') ->
  purchases w' = purchases w + 1.
Proof.
  intros Ha H. unfold agent_pass in H.
  apply bind_Ok_inv in H as ([] & w1 & E1 & H).
  pose proof (steps_goto_leases _ _ _ E1) as [S1 _ _ P1 _ _ _].
  apply bind_Ok_inv in H as (tables & w2 & E2 & H).
  pose proof (steps_get_lease_page _ _ _ _ E2) as [_ _ _ P2 _ _ _].
  destruct tables as [t|].
  - apply bind_Ok_inv in H as ([] & w3 & E3 & H).
    apply purchase_aircraft_calls in E3 as (_ & _ & P3 & _).
    apply bind_Ok_inv in H as ([] & w4 & E4 & H).
    injection E4 as <-. injection H as <-. cbn. lia.
  - exfalso. unfold get_lease_page in E2.
    apply bind_Ok_inv in E2 as (present & w0 & E & E2).
    apply apply_airframe_filter_result in E as [Hp _].
    rewrite S1 in Hp. destruct present.
    + apply bind_Ok_inv in E2 as (dom & w5 & _ & E2). discriminate E2.
    + assert (Hf : false = true) by (by apply Hp). discriminate Hf.
Qed.

(** A pass with its handler, for an airframe that is offered: it
    purchases, or it has used up a fault. *)
Lemma agent_try_progress a v w r w1 :
  available_airframes (site_options (site w)) !! a = Some v ->
  first_page_table (site w) v <> [] ->
  try_except (agent_pass a)
    (fun e => emit (Print (WarnPurchasing a e))) w = (r, w1) ->
  r = Ok tt /\ site w1 = site w /\
  ((purchases w1 = purchases w + 1 /\
    (length (faults w1) <= length (faults w))%nat) \/
   (purchases w1 = purchases w /\
    (length (faults w1) < length (faults w))%nat)).
Proof.
  intros Ha Hne. unfold try_except.
  pose proof (fuel_free_agent_pass a w) as Hff.
  destruct (agent_pass a w) as [r0 w0] eqn:E. cbn [fst] in Hff.
  pose proof (steps_agent_pass _ _ _ _ E) as [S0 _ _].
  destruct (fault_bounded_agent_pass _ _ _ _ _ Ha Hne E) as [L0 R0].
  destruct r0 as [[]|e|]; [| |done].
  - intros [= <- <-]. split; [done|]. split; [done|]. left.
    split; [apply (agent_pass_returns a); [by eexists | done] | done].
  - apply agent_pass_cases in E as (evs & _ & Hc & _).
    intros [= <- <-]. split; [done|]. split; [done|]. right. cbn.
    split; [|by apply (R0 e)].
    destruct Hc as [[_ ->] | [(_ & [=] & _) | (_ & _ & ->)]]; done.
Qed.

Lemma agent_loop_gets_through a v mx fuel :
  forall w,
    available_airframes (site_options (site w)) !! a = Some v ->
    first_page_table (site w) v <> [] ->
    (Z.to_nat (mx - purchases w) + length (faults w) < fuel)%nat ->
    exists w',
      agent_loop fuel a mx w = (Ok tt, w') /\
      mx <= purchases w' /\ site w' = site w /\
      (length (faults w') <= length (faults w))%nat.
Proof.
  induction fuel as [|fuel IH]; intros w Ha Hne Hfuel; [lia|].
  cbn [agent_loop]. unfold bind at 1. cbn [get_purchases].
  destruct (purchases w <? mx) eqn:Hlt.
  - apply Z.ltb_lt in Hlt. unfold bind at 1.
    destruct (try_except _ _ w) as [r1 w1] eqn:E.
    apply (agent_try_progress a v) in E as (-> & S1 & Hp); [|done..].
    destruct (IH w1) as (w' & Hrun & Hq & S' & L');
      [by rewrite S1 | by rewrite S1 | lia|].
    exists w'. split; [exact Hrun|]. split; [done|].
    split; [congruence | lia].
  - apply Z.ltb_ge in Hlt. exists w. by repeat split.
Qed.

Lemma launch_loop_gets_through a v mx fuel :
  forall w,
    available_airframes (site_options (site w)) !! a = Some v ->
    first_page_table (site w) v <> [] ->
    (Z.to_nat (mx - purchases w) + length (faults w) + 1 < fuel)%nat ->
    exists w', launch_loop fuel a mx w = (Ok tt, w') /\ mx <= purchases w'.
Proof.
  induction fuel as [|fuel IH]; intros w Ha Hne Hfuel; [lia|].
  cbn [launch_loop]. unfold bind at 1. cbn [get_purchases].
  destruct (purchases w <? mx) eqn:Hlt.
  2:{ apply Z.ltb_ge in Hlt. by exists w. }
  apply Z.ltb_lt in Hlt. unfold bind at 1, try_except.
  unfold bind at 1. destruct (BrowserAgent w) as [r0 w0] eqn:E0.
  destruct (fault_bounded_new_agent _ _ _ E0) as [L0 R0].
  apply new_agent_cases in E0 as (P0 & _ & _ & S0 & _ & _ & C0).
  assert (Hretry : forall w1,
            purchases w1 = purchases w -> site w1 = site w ->
            (length (faults w1) < length (faults w))%nat ->
            exists w',
              launch_loop fuel a mx
                (set_trace (trace w1 ++ [Print WarnLogin]) w1) = (Ok tt, w') /\
              mx <= purchases w').
  { intros w1 P1 S1 L1.
    apply IH; cbn; [by rewrite S1 | by rewrite S1 | lia]. }
  destruct r0 as [[]|e|];
    [| cbn [emit]; apply Hretry; [done | done | by apply (R0 e)]
     | by destruct C0 as [[[=] _] | [[=] _]]].
  unfold bind at 1. destruct (login_workflow w0) as [r1 w1] eqn:E1.
  destruct (fault_bounded_login_workflow _ _ _ E1) as [L1 R1].
  pose proof (fuel_free_login_workflow w0) as Hff.
  rewrite E1 in Hff. cbn [fst] in Hff.
  pose proof (steps_login_workflow _ _ _ E1) as [S1 _ _ P1 _ _ _].
  destruct r1 as [[]|e|].
  - destruct (agent_loop_gets_through a v mx fuel w1)
      as (w2 & Hrun & Hq & S2 & L2);
      [by rewrite S1, S0 | by rewrite S1, S0 | lia|].
    rewrite Hrun. destruct fuel as [|fuel']; [lia|].
    cbn [launch_loop]. unfold bind at 1. cbn [get_purchases].
    rewrite (proj2 (Z.ltb_ge (purchases w2) mx)) by lia. by exists w2.
  - cbn [emit]. apply Hretry; [congruence | congruence|].
    specialize (R1 e eq_refl). lia.
  - done.
Qed.



(** * A table that cannot be indexed, anywhere in a session *)

(** An exception at a point that a computation reaches outside any [try]
    is the exception of the computation. *)
Lemma reaches_raise {C A} (k : M C) (w1 : World) (m : M A) (w : World)
  (e : Exn) (w2 : World) :
  reaches k w1 m w -> k w1 = (Raise e, w2) -> m w = (Raise e, w2).
Proof.
  intros H Hk. induction H as [|A B m f w _ IH|A B m f w a w0 Hm _ IH].
  - exact Hk.
  - apply bind_raise, IH.
  - rewrite (bind_eval _ _ _ _ _ Hm). exact IH.
Qed.

(** A list returned by [get_leases] holds the table of the first page at
    least. *)
Lemma get_leases_nonempty a w ts w' :
  get_leases a w = (Ok (Some ts), w') -> ts <> [].
Proof.
  intros H. unfold get_leases in H.
  apply bind_Ok_inv in H as (present & w1 & _ & H).
  destruct present; [|discriminate H].
  apply bind_Ok_inv in H as (dom & w2 & _ & H).
  apply bind_Ok_inv in H as (pages & w3 & _ & H).
  apply bind_Ok_inv in H as (ts' & w4 & Hl & H).
  injection H as <- <-. apply get_leases_loop_length in Hl.
  intros ->. simpl in Hl. lia.
Qed.

(** What a construction and a login that go through leave in the
    trace. *)
Lemma start_trace w ws :
  (BrowserAgent ;; login_workflow) w = (Ok tt, ws) ->
  trace ws = (trace w ++ [NewSession; Login; GotoLeases])%list.
Proof.
  unfold BrowserAgent, login_workflow, goto_leases, bind, tick, emit,
    modify_browser, get_site, ret.
  destruct (faults w) as [|[] [|[] [|[] l]]] eqn:F; cbn;
    repeat (rewrite F; cbn);
    intros [= <-]; cbn; by rewrite <- !app_assoc.
Qed.



(** * A pass of a worker *)

Lemma row_clicks_app a b :
  row_clicks (a ++ b) = (row_clicks a ++ row_clicks b)%list.
Proof. apply omap_app. Qed.

Lemma steps_linkless_goto_leases :
  steps (emits_only (fun e => negb (is_page_click e) && negb (is_row_click e)))
    goto_leases.
Proof. unfold goto_leases. only_tac. Qed.

Lemma steps_linkless_get_lease_page a :
  steps (emits_only (fun e => negb (is_page_click e) && negb (is_row_click e)))
    (get_lease_page a).
Proof.
  unfold get_lease_page, apply_airframe_filter, read_options,
    select_by_value, click_apply_filter, wait_until, page_source.
  only_tac.
Qed.

(** The rows clicked in a pass of a worker, whatever the faults: none,
    and then nothing is counted; or the first row, once, and then the
    airframe is offered and the first page of its listing has a row. *)
Lemma agent_pass_rows a w r0 w0 :
  agent_pass a w = (r0, w0) ->
  exists evs,
    trace w0 = (trace w ++ evs)%list /\
    ((row_clicks evs = [] /\ purchases w0 = purchases w) \/
     (row_clicks evs = [0] /\
      exists v,
        available_airframes (site_options (site w)) !! a = Some v /\
        first_page_table (site w) v <> [])).
Proof.
  unfold agent_pass. unfold bind at 1.
  destruct (goto_leases w) as [r1 w1] eqn:E1.
  destruct (steps_linkless_goto_leases _ _ _ E1) as [S1 (evs1 & T1 & U1)].
  pose proof (ds_purchases _ _ (steps_goto_leases _ _ _ E1)) as P1.
  destruct (no_table_clicks _ U1) as [_ R1].
  destruct r1 as [[]|e|].
  2,3: intros [= <- <-]; exists evs1; split; [done|]; by left.
  unfold bind at 1.
  destruct (get_lease_page a w1) as [r2 w2] eqn:E2.
  destruct (steps_linkless_get_lease_page a _ _ _ E2)
    as [S2 (evs2 & T2 & U2)].
  pose proof (ds_purchases _ _ (steps_get_lease_page a _ _ _ E2)) as P2.
  destruct (no_table_clicks _ U2) as [_ R2].
  assert (R12 : row_clicks (evs1 ++ evs2) = [])
    by (by rewrite row_clicks_app, R1, R2).
  assert (T12 : trace w2 = (trace w ++ evs1 ++ evs2)%list)
    by (by rewrite T2, T1, <- app_assoc).
  destruct r2 as [[t|]|e|].
  2,3,4: intros [= <- <-]; exists (evs1 ++ evs2)%list;
         (split; [done|]); left; (split; [done | congruence]).
  apply get_lease_page_result in E2 as (_ & v & Ha & _ & Hrows).
  rewrite S1 in Ha, Hrows.
  unfold bind at 1. rewrite (purchase_aircraft_eval (-1) 1 w2).
  change (0 <=? -1) with false. cbv iota. cbn [ret].
  set (wc := set_trace (trace w2 ++ [CallPurchase (-1) 1]) w2).
  destruct (purchase_on_page 1 wc) as [r3 w3] eqn:E3.
  pose proof (ds_purchases _ _ (steps_purchase_on_page 1 _ _ _ E3)) as P3.
  change (purchases wc) with (purchases w2) in P3.
  destruct (purchase_on_page_inv _ _ _ _ E3)
    as [_ [(e & -> & T3)|(c & evs3 & L & T3 & U3 & Hok)]].
  - intros [= <- <-].
    exists (evs1 ++ evs2 ++ [CallPurchase (-1) 1])%list. split.
    + rewrite T3. cbn. by rewrite T12, <- !app_assoc.
    + left. split; [|congruence].
      rewrite app_assoc, row_clicks_app, R12. done.
  - destruct (no_table_clicks _ U3) as [_ R3].
    assert (T3' : trace w3
                  = (trace w ++ evs1 ++ evs2
                     ++ CallPurchase (-1) 1 :: Click c :: evs3)%list).
    { rewrite T3. cbn. by rewrite T12, <- !app_assoc. }
    destruct (table_links_found _ _ _ L)
      as [(j & -> & Hj & Hj0) | (t' & -> & _)].
    + assert (j = 0) by (apply Hj0; lia). subst j.
      assert (Hne : first_page_table (site w) v <> []).
      { change (browser wc) with (browser w2) in Hj. rewrite Hrows in Hj.
        intros Hnil. rewrite Hnil in Hj. simpl in Hj. lia. }
      assert (Rall : forall tl,
                row_clicks tl = [] ->
                row_clicks (evs1 ++ evs2 ++ CallPurchase (-1) 1
                            :: Click (RowLink 0) :: evs3 ++ tl) = [0]).
      { intros tl Htl.
        rewrite app_assoc, row_clicks_app, R12. cbn.
        by rewrite row_clicks_app, R3, Htl. }
      destruct r3 as [[]|e|].
      * intros [= <- <-].
        exists (evs1 ++ evs2 ++ CallPurchase (-1) 1 :: Click (RowLink 0)
                :: evs3 ++ [Print InfoTimeToPurchase])%list.
        split; [cbn; rewrite T3'; by rewrite <- !app_assoc|].
        right. split; [by apply Rall | by exists v].
      * intros [= <- <-].
        exists (evs1 ++ evs2 ++ CallPurchase (-1) 1 :: Click (RowLink 0)
                :: evs3 ++ [])%list.
        split; [by rewrite app_nil_r|].
        right. split; [by apply Rall | by exists v].
      * intros [= <- <-].
        exists (evs1 ++ evs2 ++ CallPurchase (-1) 1 :: Click (RowLink 0)
                :: evs3 ++ [])%list.
        split; [by rewrite app_nil_r|].
        right. split; [by apply Rall | by exists v].
    + assert (Hr3 : r3 <> Ok tt).
      { intros ->. by destruct (Hok eq_refl) as [j [=]]. }
      destruct r3 as [[]|e|]; [done| |]; intros [= <- <-];
        exists (evs1 ++ evs2 ++ CallPurchase (-1) 1
                :: Click (PageLink t') :: evs3)%list;
        (split; [done|]); left;
        (split; [|congruence]);
        rewrite app_assoc, row_clicks_app, R12; cbn; exact R3.
Qed.


